(** * sheepdog-ng: operation table, epoch/recovery handlers and the
      VDI object-splitting I/O engine

    A shallow embedding of [sheep/ops.c] (operation table, cluster-format,
    forced recovery and recovery-completion handlers) and of the VDI I/O
    engine of the client library ([vdi_rw_request], [vdi_create_respond]),
    with the properties the design document states about them. *)

From Stdlib Require Import ZArith Lia Bool.
From stdpp Require Import base option list gmap strings.

Local Open Scope Z_scope.

(** ** Fixed-width integers

    C integers are modelled as [Z] with the wrap-around written out. *)

Definition wrap32 (x : Z) : Z := x mod 2 ^ 32.
Definition wrap64 (x : Z) : Z := x mod 2 ^ 64.

(** Conversion to [int] (32-bit two's complement). *)
Definition to_int (x : Z) : Z := (x + 2 ^ 31) mod 2 ^ 32 - 2 ^ 31.

(** * Part I: [sheep/ops.c] *)

Module Ops.

(** ** Result codes and cluster status

    The result codes are numbered in the protocol header; the handlers only
    compare them, so they are an enumeration here: the codes the handlers
    name and the taxonomy of the design document.  The handlers rely on
    [SD_RES_SUCCESS] being 0: they return the 0 of [inc_and_log_epoch] as
    success. *)
Inductive sd_res : Set :=
  | SD_RES_SUCCESS
  | SD_RES_EIO
  | SD_RES_INVALID_PARMS
  | SD_RES_SYSTEM_ERROR
  | SD_RES_NO_OBJ
  | SD_RES_NO_VDI
  | SD_RES_READONLY
  | SD_RES_WAIT_FOR_FORMAT
  | SD_RES_WAIT_FOR_JOIN
  | SD_RES_FORCE_RECOVER
  | SD_RES_NO_STORE
  | SD_RES_BUFFER_SMALL
  | SD_RES_NO_SUPPORT
  | SD_RES_AGAIN.

#[global] Instance sd_res_eq_dec : EqDecision sd_res.
Proof. solve_decision. Defined.

Inductive sd_status : Set :=
  | SD_STATUS_OK
  | SD_STATUS_WAIT
  | SD_STATUS_SHUTDOWN
  | SD_STATUS_KILLED.

#[global] Instance sd_status_eq_dec : EqDecision sd_status.
Proof. solve_decision. Defined.

(** ** The operation table *)

(** [enum sd_op_type]; a table slot without an initialiser has type 0. *)
Definition SD_OP_TYPE_CLUSTER : Z := 1.
Definition SD_OP_TYPE_LOCAL : Z := 2.
Definition SD_OP_TYPE_PEER : Z := 3.
Definition SD_OP_TYPE_GATEWAY : Z := 4.
Definition SD_OP_TYPE_NONE : Z := 5.

(** [struct sd_op_template].  A handler is recorded by the name of the C
    function the table points to; [None] is the null pointer. *)
Record sd_op_template : Set := mk_op {
  name : string;
  type : Z;
  force : bool;
  is_admin_op : bool;
  process_work : option string;
  process_main : option string
}.

(** The opcodes that index the table.  Their numeric values come from the
    protocol header, so an opcode is its name;
    [SD_OP_UNSET] stands for every value without a designated
    initialiser. *)
Inductive sd_opcode : Set :=
  | SD_OP_GET_NID
  | SD_OP_NEW_VDI
  | SD_OP_DEL_VDI
  | SD_OP_MAKE_FS
  | SD_OP_SHUTDOWN
  | SD_OP_GET_VDI_ATTR
  | SD_OP_FORCE_RECOVER
  | SD_OP_NOTIFY_VDI_ADD
  | SD_OP_DELETE_CACHE
  | SD_OP_COMPLETE_RECOVERY
  | SD_OP_GET_VDI_INFO
  | SD_OP_LOCK_VDI
  | SD_OP_RELEASE_VDI
  | SD_OP_REWEIGHT
  | SD_OP_ALTER_CLUSTER_COPY
  | SD_OP_GET_STORE_LIST
  | SD_OP_READ_VDIS
  | SD_OP_GET_NODE_LIST
  | SD_OP_STAT_SHEEP
  | SD_OP_STAT_RECOVERY
  | SD_OP_STAT_CLUSTER
  | SD_OP_GET_OBJ_LIST
  | SD_OP_GET_EPOCH
  | SD_OP_FLUSH_VDI
  | SD_OP_DISCARD_OBJ
  | SD_OP_FLUSH_DEL_CACHE
  | SD_OP_TRACE_ENABLE
  | SD_OP_TRACE_DISABLE
  | SD_OP_TRACE_STATUS
  | SD_OP_TRACE_READ_BUF
  | SD_OP_LIVEPATCH_PATCH
  | SD_OP_LIVEPATCH_UNPATCH
  | SD_OP_LIVEPATCH_STATUS
  | SD_OP_KILL_NODE
  | SD_OP_MD_INFO
  | SD_OP_MD_PLUG
  | SD_OP_MD_UNPLUG
  | SD_OP_GET_HASH
  | SD_OP_GET_CACHE_INFO
  | SD_OP_CACHE_PURGE
  | SD_OP_STAT
  | SD_OP_GET_LOGLEVEL
  | SD_OP_SET_LOGLEVEL
  | SD_OP_EXIST
  | SD_OP_OIDS_EXIST
  | SD_OP_CLUSTER_INFO
  | SD_OP_NFS_CREATE
  | SD_OP_NFS_DELETE
  | SD_OP_REPAIR_REPLICA
  | SD_OP_GET_CLUSTER_DEFAULT
  | SD_OP_CREATE_AND_WRITE_OBJ
  | SD_OP_READ_OBJ
  | SD_OP_WRITE_OBJ
  | SD_OP_REMOVE_OBJ
  | SD_OP_UNREF_OBJ
  | SD_OP_CREATE_AND_WRITE_PEER
  | SD_OP_READ_PEER
  | SD_OP_WRITE_PEER
  | SD_OP_REMOVE_PEER
  | SD_OP_UNSET (code : Z).

(** A zero-initialised slot. *)
Definition zero_op : sd_op_template := mk_op "" 0 false false None None.

(** [sd_ops]: the table, one case per designated initialiser.  The two NFS
    entries exist only in a build with [HAVE_NFS]. *)
Definition sd_ops (HAVE_NFS : bool) (opcode : sd_opcode) : sd_op_template :=
  match opcode with
  | SD_OP_GET_NID =>
      mk_op "NULL" SD_OP_TYPE_NONE true false
        (Some "null_get_nid") None
  | SD_OP_NEW_VDI =>
      mk_op "NEW_VDI" SD_OP_TYPE_CLUSTER false true
        (Some "cluster_new_vdi") (Some "post_cluster_new_vdi")
  | SD_OP_DEL_VDI =>
      mk_op "DEL_VDI" SD_OP_TYPE_CLUSTER false true
        (Some "cluster_del_vdi") (Some "post_cluster_del_vdi")
  | SD_OP_MAKE_FS =>
      mk_op "MAKE_FS" SD_OP_TYPE_CLUSTER true true
        None (Some "cluster_make_fs")
  | SD_OP_SHUTDOWN =>
      mk_op "SHUTDOWN" SD_OP_TYPE_CLUSTER true true
        None (Some "cluster_shutdown")
  | SD_OP_GET_VDI_ATTR =>
      mk_op "GET_VDI_ATTR" SD_OP_TYPE_CLUSTER false false
        (Some "cluster_get_vdi_attr") None
  | SD_OP_FORCE_RECOVER =>
      mk_op "FORCE_RECOVER" SD_OP_TYPE_CLUSTER true true
        (Some "cluster_force_recover_work") (Some "cluster_force_recover_main")
  | SD_OP_NOTIFY_VDI_ADD =>
      mk_op "NOTIFY_VDI_ADD" SD_OP_TYPE_CLUSTER true false
        None (Some "cluster_notify_vdi_add")
  | SD_OP_DELETE_CACHE =>
      mk_op "DELETE_CACHE" SD_OP_TYPE_CLUSTER false false
        None (Some "cluster_delete_cache")
  | SD_OP_COMPLETE_RECOVERY =>
      mk_op "COMPLETE_RECOVERY" SD_OP_TYPE_CLUSTER true false
        None (Some "cluster_recovery_completion")
  | SD_OP_GET_VDI_INFO =>
      mk_op "GET_VDI_INFO" SD_OP_TYPE_CLUSTER false false
        (Some "cluster_get_vdi_info") None
  | SD_OP_LOCK_VDI =>
      mk_op "LOCK_VDI" SD_OP_TYPE_CLUSTER false false
        (Some "cluster_get_vdi_info") None
  | SD_OP_RELEASE_VDI =>
      mk_op "RELEASE_VDI" SD_OP_TYPE_CLUSTER false false
        (Some "local_release_vdi") None
  | SD_OP_REWEIGHT =>
      mk_op "REWEIGHT" SD_OP_TYPE_CLUSTER false true
        (Some "local_reconfig") (Some "cluster_reconfig")
  | SD_OP_ALTER_CLUSTER_COPY =>
      mk_op "ALTER_CLUSTER_COPY" SD_OP_TYPE_CLUSTER false true
        None (Some "cluster_alter_cluster_copy")
  | SD_OP_GET_STORE_LIST =>
      mk_op "GET_STORE_LIST" SD_OP_TYPE_LOCAL true false
        (Some "local_get_store_list") None
  | SD_OP_READ_VDIS =>
      mk_op "READ_VDIS" SD_OP_TYPE_LOCAL true false
        None (Some "local_read_vdis")
  | SD_OP_GET_NODE_LIST =>
      mk_op "GET_NODE_LIST" SD_OP_TYPE_LOCAL true false
        None (Some "local_get_node_list")
  | SD_OP_STAT_SHEEP =>
      mk_op "STAT_SHEEP" SD_OP_TYPE_LOCAL false false
        (Some "local_stat_sheep") None
  | SD_OP_STAT_RECOVERY =>
      mk_op "STAT_RECOVERY" SD_OP_TYPE_LOCAL false false
        None (Some "local_stat_recovery")
  | SD_OP_STAT_CLUSTER =>
      mk_op "STAT_CLUSTER" SD_OP_TYPE_LOCAL true false
        (Some "local_stat_cluster") None
  | SD_OP_GET_OBJ_LIST =>
      mk_op "GET_OBJ_LIST" SD_OP_TYPE_LOCAL false false
        (Some "local_get_obj_list") None
  | SD_OP_GET_EPOCH =>
      mk_op "GET_EPOCH" SD_OP_TYPE_LOCAL false false
        (Some "local_get_epoch") None
  | SD_OP_FLUSH_VDI =>
      mk_op "FLUSH_VDI" SD_OP_TYPE_LOCAL false false
        (Some "local_flush_vdi") None
  | SD_OP_DISCARD_OBJ =>
      mk_op "DISCARD_OBJ" SD_OP_TYPE_LOCAL false false
        (Some "local_discard_obj") None
  | SD_OP_FLUSH_DEL_CACHE =>
      mk_op "DEL_CACHE" SD_OP_TYPE_LOCAL false false
        (Some "local_flush_and_del") None
  | SD_OP_TRACE_ENABLE =>
      mk_op "TRACE_ENABLE" SD_OP_TYPE_LOCAL true false
        None (Some "local_trace_enable")
  | SD_OP_TRACE_DISABLE =>
      mk_op "TRACE_DISABLE" SD_OP_TYPE_LOCAL true false
        None (Some "local_trace_disable")
  | SD_OP_TRACE_STATUS =>
      mk_op "TRACE_STATUS" SD_OP_TYPE_LOCAL true false
        None (Some "local_trace_status")
  | SD_OP_TRACE_READ_BUF =>
      mk_op "TRACE_READ_BUF" SD_OP_TYPE_LOCAL true false
        (Some "local_trace_read_buf") None
  | SD_OP_LIVEPATCH_PATCH =>
      mk_op "LIVEPATCH_PATCH" SD_OP_TYPE_CLUSTER true false
        None (Some "local_livepatch_patch")
  | SD_OP_LIVEPATCH_UNPATCH =>
      mk_op "LIVEPATCH_UNPATCH" SD_OP_TYPE_CLUSTER true false
        None (Some "local_livepatch_unpatch")
  | SD_OP_LIVEPATCH_STATUS =>
      mk_op "LIVEPATCH_STATUS" SD_OP_TYPE_LOCAL true false
        None (Some "local_livepatch_status")
  | SD_OP_KILL_NODE =>
      mk_op "KILL_NODE" SD_OP_TYPE_LOCAL true true
        None (Some "local_kill_node")
  | SD_OP_MD_INFO =>
      mk_op "MD_INFO" SD_OP_TYPE_LOCAL false false
        (Some "local_md_info") None
  | SD_OP_MD_PLUG =>
      mk_op "MD_PLUG_DISKS" SD_OP_TYPE_LOCAL false true
        None (Some "local_md_plug")
  | SD_OP_MD_UNPLUG =>
      mk_op "MD_UNPLUG_DISKS" SD_OP_TYPE_LOCAL false true
        None (Some "local_md_unplug")
  | SD_OP_GET_HASH =>
      mk_op "GET_HASH" SD_OP_TYPE_LOCAL false false
        (Some "local_get_hash") None
  | SD_OP_GET_CACHE_INFO =>
      mk_op "GET_CACHE_INFO" SD_OP_TYPE_LOCAL false false
        (Some "local_get_cache_info") None
  | SD_OP_CACHE_PURGE =>
      mk_op "CACHE_PURGE" SD_OP_TYPE_LOCAL false false
        (Some "local_cache_purge") None
  | SD_OP_STAT =>
      mk_op "STAT" SD_OP_TYPE_LOCAL false false
        None (Some "local_sd_stat")
  | SD_OP_GET_LOGLEVEL =>
      mk_op "GET_LOGLEVEL" SD_OP_TYPE_LOCAL true false
        (Some "local_get_loglevel") None
  | SD_OP_SET_LOGLEVEL =>
      mk_op "SET_LOGLEVEL" SD_OP_TYPE_LOCAL true false
        (Some "local_set_loglevel") None
  | SD_OP_EXIST =>
      mk_op "EXIST" SD_OP_TYPE_LOCAL true false
        (Some "local_oid_exist") None
  | SD_OP_OIDS_EXIST =>
      mk_op "OIDS_EXIST" SD_OP_TYPE_LOCAL true false
        None (Some "local_oids_exist")
  | SD_OP_CLUSTER_INFO =>
      mk_op "CLUSTER INFO" SD_OP_TYPE_LOCAL true false
        None (Some "local_cluster_info")
  | SD_OP_NFS_CREATE =>
      if HAVE_NFS then
        mk_op "NFS_CREATE" SD_OP_TYPE_LOCAL false false
          (Some "local_nfs_create") None
      else zero_op
  | SD_OP_NFS_DELETE =>
      if HAVE_NFS then
        mk_op "NFS_DELETE" SD_OP_TYPE_LOCAL false false
          (Some "local_nfs_delete") None
      else zero_op
  | SD_OP_REPAIR_REPLICA =>
      mk_op "REPAIR_REPLICA" SD_OP_TYPE_LOCAL false false
        (Some "local_repair_replica") None
  | SD_OP_GET_CLUSTER_DEFAULT =>
      mk_op "GET_CLUSTER_DEFAULT" SD_OP_TYPE_LOCAL true false
        None (Some "local_get_cluster_default")
  | SD_OP_CREATE_AND_WRITE_OBJ =>
      mk_op "CREATE_AND_WRITE_OBJ" SD_OP_TYPE_GATEWAY false false
        (Some "gateway_create_object") None
  | SD_OP_READ_OBJ =>
      mk_op "READ_OBJ" SD_OP_TYPE_GATEWAY false false
        (Some "gateway_read_object") None
  | SD_OP_WRITE_OBJ =>
      mk_op "WRITE_OBJ" SD_OP_TYPE_GATEWAY false false
        (Some "gateway_write_object") None
  | SD_OP_REMOVE_OBJ =>
      mk_op "REMOVE_OBJ" SD_OP_TYPE_GATEWAY false false
        (Some "gateway_remove_object") None
  | SD_OP_UNREF_OBJ =>
      mk_op "UNREF_OBJ" SD_OP_TYPE_GATEWAY false false
        (Some "gateway_unref_object") None
  | SD_OP_CREATE_AND_WRITE_PEER =>
      mk_op "CREATE_AND_WRITE_PEER" SD_OP_TYPE_PEER false false
        (Some "peer_create_and_write_obj") None
  | SD_OP_READ_PEER =>
      mk_op "READ_PEER" SD_OP_TYPE_PEER false false
        (Some "peer_read_obj") None
  | SD_OP_WRITE_PEER =>
      mk_op "WRITE_PEER" SD_OP_TYPE_PEER false false
        (Some "peer_write_obj") None
  | SD_OP_REMOVE_PEER =>
      mk_op "REMOVE_PEER" SD_OP_TYPE_PEER false false
        (Some "peer_remove_obj") None
  | SD_OP_UNSET _ => zero_op
  end.

(** [get_sd_op]: a slot whose type is 0 is no operation. *)
Definition get_sd_op (HAVE_NFS : bool) (opcode : sd_opcode)
  : option sd_op_template :=
  if type (sd_ops HAVE_NFS opcode) =? 0 then None
  else Some (sd_ops HAVE_NFS opcode).

Definition op_name (op : option sd_op_template) : string :=
  match op with
  | None => "(invalid opcode)"
  | Some o => name o
  end.

Definition is_null_op (op : option sd_op_template) : bool :=
  match op with None => false | Some o => type o =? SD_OP_TYPE_NONE end.

Definition is_cluster_op (op : option sd_op_template) : bool :=
  match op with None => false | Some o => type o =? SD_OP_TYPE_CLUSTER end.

Definition is_local_op (op : option sd_op_template) : bool :=
  match op with None => false | Some o => type o =? SD_OP_TYPE_LOCAL end.

Definition is_peer_op (op : option sd_op_template) : bool :=
  match op with None => false | Some o => type o =? SD_OP_TYPE_PEER end.

Definition is_gateway_op (op : option sd_op_template) : bool :=
  match op with None => false | Some o => type o =? SD_OP_TYPE_GATEWAY end.

Definition is_force_op (op : option sd_op_template) : bool :=
  match op with None => false | Some o => force o end.

Definition is_logging_op (op : option sd_op_template) : bool :=
  match op with None => false | Some o => is_admin_op o end.

Definition has_process_work (op : option sd_op_template) : bool :=
  match op with None => false | Some o => bool_decide (is_Some (process_work o)) end.

Definition has_process_main (op : option sd_op_template) : bool :=
  match op with None => false | Some o => bool_decide (is_Some (process_main o)) end.

(** ** Nodes and membership views *)

Inductive node_status : Set :=
  | NODE_STATUS_RUNNING
  | NODE_STATUS_RECOVER.

#[global] Instance node_status_eq_dec : EqDecision node_status.
Proof. solve_decision. Defined.

(** [struct node_id] and [struct sd_node]. *)
Record node_id : Set := mk_nid {
  addr : Z;
  port : Z;
  status : node_status
}.

Record sd_node : Set := mk_node {
  nid : node_id;
  nr_vnodes : Z;
  zone : Z;
  space : Z
}.

(** Modelled from the spec: [node_cmp], declared in a header of the
    project and not in [ops.c].  The design document calls it the
    comparison of node identity that keys the ordered container of cluster
    nodes; here it orders nodes by address, then port, and returns a
    negative, zero or positive [int]. *)
Definition node_cmp (a b : sd_node) : Z :=
  match addr (nid a) ?= addr (nid b) with
  | Lt => -1
  | Gt => 1
  | Eq =>
      match port (nid a) ?= port (nid b) with
      | Lt => -1
      | Gt => 1
      | Eq => 0
      end
  end.

(** The red-black tree [nroot] is kept as the list of its entries.
    [rb_search] returns the entry that compares equal to the key. *)
Definition rb_search (nroot : list sd_node) (key : sd_node) : option sd_node :=
  find (fun n => node_cmp key n =? 0) nroot.

(** [rb_insert] keeps the entries ordered and refuses a key that is already
    present. *)
Fixpoint rb_insert (nroot : list sd_node) (n : sd_node) : list sd_node :=
  match nroot with
  | [] => [n]
  | m :: rest =>
      if node_cmp n m =? 0 then nroot
      else if node_cmp n m <? 0 then n :: nroot
      else m :: rb_insert rest n
  end.

(** [xqsort] with [node_cmp]: the order of entries that compare equal is
    left open by the C library; this model keeps insertion order. *)
Fixpoint insert_sorted (n : sd_node) (l : list sd_node) : list sd_node :=
  match l with
  | [] => [n]
  | m :: rest =>
      if node_cmp n m <=? 0 then n :: l else m :: insert_sorted n rest
  end.

Definition xqsort (l : list sd_node) : list sd_node :=
  foldr insert_sorted [] l.

(** [struct vnode_info]: the membership view of an epoch. *)
Record vnode_info : Set := mk_vinfo {
  nroot : list sd_node;
  nr_nodes : Z;
  nr_zones : Z
}.

(** ** The store driver and the system state *)

(** [struct store_driver]: [format] and [init] are given by the result the
    driver returns when called; [cleanup] tells whether the hook is set. *)
Record store_driver : Set := mk_driver {
  drv_name : string;
  format : sd_res;
  init : sd_res;
  cleanup : bool
}.

(** Calls that leave the handlers, in the order they are made. *)
Inductive event : Set :=
  | EvFormat (driver : string)
  | EvInit (driver : string)
  | EvSetClusterConfig
  | EvRemoveEpoch (epoch : Z)
  | EvCleanVdiState
  | EvObjlistCacheFormat
  | EvEpochLog (epoch : Z)
  | EvStartRecovery (old_nodes : list sd_node)
  | EvCleanup.

#[global] Instance node_id_eq_dec : EqDecision node_id.
Proof. solve_decision. Defined.

#[global] Instance sd_node_eq_dec : EqDecision sd_node.
Proof. solve_decision. Defined.

#[global] Instance event_eq_dec : EqDecision event.
Proof. solve_decision. Defined.

(** The part of [sys] (and of the globals [sd_store] and the current
    membership view) that the handlers read and write. *)
Record system : Set := mk_system {
  cinfo_epoch : Z;
  cinfo_status : sd_status;
  cinfo_flags : Z;
  cinfo_store : string;
  cinfo_nr_copies : Z;
  cinfo_copy_policy : Z;
  cinfo_ctime : Z;
  cinfo_nodes : list sd_node;
  this_node : sd_node;
  vdi_inuse : list Z;
  sd_store : option store_driver;
  current_vnode_info : vnode_info;
  trace : list event
}.

Definition set_epoch (e : Z) (s : system) : system :=
  mk_system e (cinfo_status s) (cinfo_flags s) (cinfo_store s)
    (cinfo_nr_copies s) (cinfo_copy_policy s) (cinfo_ctime s) (cinfo_nodes s)
    (this_node s) (vdi_inuse s) (sd_store s) (current_vnode_info s) (trace s).

Definition set_status (st : sd_status) (s : system) : system :=
  mk_system (cinfo_epoch s) st (cinfo_flags s) (cinfo_store s)
    (cinfo_nr_copies s) (cinfo_copy_policy s) (cinfo_ctime s) (cinfo_nodes s)
    (this_node s) (vdi_inuse s) (sd_store s) (current_vnode_info s) (trace s).

Definition emit (e : event) (s : system) : system :=
  mk_system (cinfo_epoch s) (cinfo_status s) (cinfo_flags s) (cinfo_store s)
    (cinfo_nr_copies s) (cinfo_copy_policy s) (cinfo_ctime s) (cinfo_nodes s)
    (this_node s) (vdi_inuse s) (sd_store s) (current_vnode_info s)
    (trace s ++ [e]).

(** What the handlers obtain from functions defined outside [ops.c]. *)
Record environment : Type := mk_env {
  find_store_driver : string -> option store_driver;
  get_latest_epoch : Z;
  (** the value the epoch-log write returns, 0 when the log is written *)
  update_epoch_log : Z;
  is_cluster_formatted : bool;
  get_vnode_info_epoch : Z -> vnode_info -> option vnode_info
}.

(** Modelled from the spec: [inc_and_log_epoch], which [ops.c] calls and
    does not define.  Per the design document the epoch "advances forward,
    by exactly 1" and is persisted in the epoch log; the function returns
    what the log write returns (non-zero on failure). *)
Definition inc_and_log_epoch (env : environment) (s : system) : Z * system :=
  let e := wrap32 (cinfo_epoch s + 1) in
  (update_epoch_log env, emit (EvEpochLog e) (set_epoch e s)).

Definition set_store (nm : string) (drv : option store_driver) (s : system)
  : system :=
  mk_system (cinfo_epoch s) (cinfo_status s) (cinfo_flags s) nm
    (cinfo_nr_copies s) (cinfo_copy_policy s) (cinfo_ctime s) (cinfo_nodes s)
    (this_node s) (vdi_inuse s) drv (current_vnode_info s) (trace s).

Definition set_cluster_params (copies policy flags ctime : Z) (s : system)
  : system :=
  mk_system (cinfo_epoch s) (cinfo_status s) flags (cinfo_store s)
    copies policy ctime (cinfo_nodes s)
    (this_node s) (vdi_inuse s) (sd_store s) (current_vnode_info s) (trace s).

Definition set_vdi_inuse (l : list Z) (s : system) : system :=
  mk_system (cinfo_epoch s) (cinfo_status s) (cinfo_flags s) (cinfo_store s)
    (cinfo_nr_copies s) (cinfo_copy_policy s) (cinfo_ctime s) (cinfo_nodes s)
    (this_node s) l (sd_store s) (current_vnode_info s) (trace s).

Definition set_nodes (nodes : list sd_node) (me : sd_node) (vi : vnode_info)
    (s : system) : system :=
  mk_system (cinfo_epoch s) (cinfo_status s) (cinfo_flags s) (cinfo_store s)
    (cinfo_nr_copies s) (cinfo_copy_policy s) (cinfo_ctime s) nodes
    me (vdi_inuse s) (sd_store s) vi (trace s).

(** [remove_epoch]: unlinks the epoch file; its result is not used by the
    caller. *)
Definition remove_epoch (epoch : Z) (s : system) : system :=
  emit (EvRemoveEpoch epoch) s.

(** The fields of [req->cluster] the format handler reads. *)
Record sd_req_cluster : Set := mk_req_cluster {
  copies : Z;
  copy_policy : Z;
  flags : Z;
  ctime : Z
}.

Section Handlers.

(** Constants of the project's headers. *)
Variable SD_DEFAULT_COPIES : Z.
Variable SD_CLUSTER_FLAG_MANUAL : Z.
Variable SD_MAX_NODES : Z.
Variable sizeof_sd_node : Z.
(** The value [ec_max_data_strip()] returns. *)
Variable ec_max_data_strip : Z.
(** [sizeof(sys->cinfo.store)], and [pstrcpy], which is defined outside
    [ops.c], by the string it leaves in a buffer of the given size when
    asked to copy the given one. *)
Variable sizeof_cinfo_store : Z.
Variable pstrcpy : Z -> string -> string.

(** [cluster_make_fs] *)
Definition cluster_make_fs (env : environment) (req : sd_req_cluster)
    (data : string) (s : system) : sd_res * system :=
  match find_store_driver env data with
  | None => (SD_RES_NO_STORE, s)
  | Some driver =>
      let s := set_store (pstrcpy sizeof_cinfo_store data) (Some driver) s in
      let latest_epoch := get_latest_epoch env in
      let s := emit (EvFormat (drv_name driver)) s in
      if decide (format driver <> SD_RES_SUCCESS) then (format driver, s)
      else
        let s := emit (EvInit (drv_name driver)) s in
        if decide (init driver <> SD_RES_SUCCESS) then (init driver, s)
        else
          let nr_copies :=
            if copies req =? 0 then SD_DEFAULT_COPIES else copies req in
          let s :=
            set_cluster_params nr_copies (copy_policy req) (flags req)
              (ctime req) s in
          let s := emit EvSetClusterConfig s in
          let s := foldl (fun s i => remove_epoch i s) s (seqZ 1 latest_epoch) in
          let s := set_vdi_inuse [] s in
          let s := emit EvCleanVdiState s in
          let s := emit EvObjlistCacheFormat s in
          let s := set_epoch 0 s in
          let '(ret, s) := inc_and_log_epoch env s in
          if ret =? 0 then (SD_RES_SUCCESS, set_status SD_STATUS_OK s)
          else (SD_RES_EIO, s)
  end.

(** The fields of [struct request] the forced-recovery work phase uses. *)
Record request : Set := mk_request {
  rq_data_length : Z;
  vinfo : option vnode_info;
  rp_epoch : Z;
  rp_data_length : Z;
  data : list sd_node
}.

(** [cluster_force_recover_work] *)
Definition cluster_force_recover_work (env : environment) (s : system)
    (req : request) : sd_res * request :=
  let epoch := cinfo_epoch s in
  match decide (cinfo_status s <> SD_STATUS_WAIT), vinfo req with
  | left _, _ => (SD_RES_FORCE_RECOVER, req)
  | right _, None => (SD_RES_FORCE_RECOVER, req)
  | right _, Some vi =>
      match get_vnode_info_epoch env epoch vi with
      | None => (SD_RES_FORCE_RECOVER, req)
      | Some old_vnode_info =>
          if rq_data_length req <? sizeof_sd_node * nr_nodes old_vnode_info
          then (SD_RES_INVALID_PARMS, req)
          else
            (SD_RES_SUCCESS,
             mk_request (rq_data_length req) (vinfo req) epoch
               (sizeof_sd_node * nr_nodes old_vnode_info)
               (nroot old_vnode_info))
      end
  end.

(** A main-phase handler either returns a result code or ends the process
    in [panic]. *)
Inductive outcome : Set :=
  | Returned (ret : sd_res)
  | Panicked (msg : string).

(** [cluster_force_recover_main]; [rsp_epoch] and [rsp_data_length] are
    [rsp->epoch] and [rsp->data_length], [nodes] is the payload. *)
Definition cluster_force_recover_main (env : environment)
    (rsp_epoch rsp_data_length : Z) (nodes : list sd_node) (s : system)
  : outcome * system :=
  let nr := rsp_data_length / sizeof_sd_node in
  if negb (rsp_epoch =? cinfo_epoch s) then (Returned SD_RES_FORCE_RECOVER, s)
  else
    let '(ret, s) := inc_and_log_epoch env s in
    if negb (ret =? 0) then (Panicked "failed in force recovery", s)
    else
      let s := if is_cluster_formatted env then s else emit EvSetClusterConfig s in
      let s := set_status SD_STATUS_OK s in
      let nroot := foldl rb_insert [] (take (Z.to_nat nr) nodes) in
      let s := emit (EvStartRecovery nroot) s in
      (Returned SD_RES_SUCCESS, s).

(** The function-static variables of [cluster_recovery_completion].
    [recovereds] holds the [nr_recovereds] live slots of the static array:
    a store at [nr_recovereds++] appends, [nr_recovereds = 0] empties.
    [latest_epoch] is kept as the unsigned 32-bit value the comparisons
    with [epoch] and [sys->cinfo.epoch] see. *)
Record recovery_statics : Set := mk_statics {
  recovereds : list sd_node;
  latest_epoch : Z
}.

Definition nr_recovereds (st : recovery_statics) : Z :=
  Z.of_nat (length (recovereds st)).

(** [n->nid.status = NODE_STATUS_RUNNING] *)
Definition set_running (n : sd_node) : sd_node :=
  mk_node (mk_nid (addr (nid n)) (port (nid n)) NODE_STATUS_RUNNING)
    (nr_vnodes n) (zone n) (space n).

(** The entry [rb_search] finds, marked running in place. *)
Fixpoint mark_found_running (key : sd_node) (l : list sd_node) : list sd_node :=
  match l with
  | [] => []
  | t :: rest =>
      if node_cmp key t =? 0 then set_running t :: rest
      else t :: mark_found_running key rest
  end.

(** [sd_store && sd_store->cleanup] *)
Definition has_cleanup (s : system) : bool :=
  match sd_store s with
  | None => false
  | Some drv => cleanup drv
  end.

(** The guarded call of [sd_store->cleanup()]. *)
Definition maybe_cleanup (vi : vnode_info) (s : system) : system :=
  if (ec_max_data_strip <=? nr_zones vi) && has_cleanup s
  then emit EvCleanup s else s.

(** [cluster_recovery_completion]; [epoch] is [req->obj.tgt_epoch] and
    [node] the payload.  [None] is the store past the end of the static
    array [recovereds], which C leaves undefined. *)
Definition cluster_recovery_completion (epoch : Z) (node : sd_node)
    (st : recovery_statics) (s : system)
  : option (sd_res * recovery_statics * system) :=
  if negb (Z.land (cinfo_flags s) SD_CLUSTER_FLAG_MANUAL =? 0) then
    let cur_vinfo := current_vnode_info s in
    let s :=
      match rb_search (nroot cur_vinfo) node with
      | Some n =>
          let nodes' := mark_found_running node (nroot cur_vinfo) in
          let vi' := mk_vinfo nodes' (nr_nodes cur_vinfo) (nr_zones cur_vinfo) in
          let me :=
            if node_cmp n (this_node s) =? 0 then set_running (this_node s)
            else this_node s in
          let s := set_nodes (cinfo_nodes s) me vi' s in
          if existsb (fun t => bool_decide (status (nid t) = NODE_STATUS_RECOVER))
               nodes'
          then s
          else maybe_cleanup vi' s
      | None => s
      end in
    let nodes :=
      map (fun t => if node_cmp node t =? 0 then set_running t else t)
        (cinfo_nodes s) in
    Some (SD_RES_SUCCESS, st,
          set_nodes nodes (this_node s) (current_vnode_info s) s)
  else if epoch <? latest_epoch st then Some (SD_RES_SUCCESS, st, s)
  else
    let st :=
      if latest_epoch st <? epoch then mk_statics [] epoch else st in
    if SD_MAX_NODES <=? nr_recovereds st then None
    else
      let st := mk_statics (xqsort (recovereds st ++ [node])) (latest_epoch st) in
      if negb (cinfo_epoch s =? latest_epoch st) then Some (SD_RES_SUCCESS, st, s)
      else
        let vnode_info := current_vnode_info s in
        let s :=
          if (nr_nodes vnode_info =? nr_recovereds st)
             && forallb (fun r => bool_decide (is_Some (rb_search (nroot vnode_info) r)))
                  (recovereds st)
          then maybe_cleanup vnode_info s
          else s in
        Some (SD_RES_SUCCESS, st, s).

End Handlers.

(** ** Vocabulary of the properties *)

(** Every step of the format succeeds: the driver exists, [format] and
    [init] return success and the epoch log is written. *)
Definition format_steps_succeed (env : environment) (data : string) : Prop :=
  exists drv,
    find_store_driver env data = Some drv /\
    format drv = SD_RES_SUCCESS /\
    init drv = SD_RES_SUCCESS /\
    update_epoch_log env = 0.

(** The number of calls of [sd_store->cleanup()] made so far. *)
Definition cleanups (s : system) : nat :=
  length (filter (fun e => e = EvCleanup) (trace s)).

(** The identity [node_cmp] compares. *)
Definition node_key (n : sd_node) : Z * Z := (addr (nid n), port (nid n)).

(** A sequence of recovery-completion reports [(epoch, node)], handled one
    after the other. *)
Fixpoint run_reports (SD_CLUSTER_FLAG_MANUAL SD_MAX_NODES ec_max_data_strip : Z)
    (reports : list (Z * sd_node)) (st : recovery_statics) (s : system)
  : option (recovery_statics * system) :=
  match reports with
  | [] => Some (st, s)
  | (epoch, node) :: rest =>
      match cluster_recovery_completion SD_CLUSTER_FLAG_MANUAL SD_MAX_NODES
              ec_max_data_strip epoch node st s with
      | None => None
      | Some (_, st', s') =>
          run_reports SD_CLUSTER_FLAG_MANUAL SD_MAX_NODES ec_max_data_strip
            rest st' s'
      end
  end.

(** The handler runs in automatic (non-manual) mode. *)
Definition non_manual (SD_CLUSTER_FLAG_MANUAL : Z) (s : system) : Prop :=
  Z.land (cinfo_flags s) SD_CLUSTER_FLAG_MANUAL = 0.

(** A membership view whose count is the number of its entries, no two of
    which have the same identity. *)
Definition wf_view (vi : vnode_info) : Prop :=
  nr_nodes vi = Z.of_nat (length (nroot vi)) /\
  NoDup (map node_key (nroot vi)).

(** The nodes recorded as recovered are, as a set of identities, the nodes
    of the view. *)
Definition same_node_set (l : list sd_node) (vi : vnode_info) : Prop :=
  forall k, k ∈ map node_key l <-> k ∈ map node_key (nroot vi).

(** The test the handler makes before the cleanup: as many recorded nodes
    as the view has members, each of them found in the view. *)
Definition count_and_members_match (l : list sd_node) (vi : vnode_info) : Prop :=
  nr_nodes vi = Z.of_nat (length l) /\
  forall r, r ∈ l -> node_key r ∈ map node_key (nroot vi).

(** No further report can trigger the cleanup in the current epoch: the
    handler has seen a newer epoch, or it has already recorded at least as
    many reports for the current one as the view has members. *)
Definition spent (st : recovery_statics) (s : system) : Prop :=
  cinfo_epoch s < latest_epoch st \/
  (latest_epoch st = cinfo_epoch s /\
   nr_nodes (current_vnode_info s) <= nr_recovereds st).

(** ** Sample inputs *)

Definition node_a : sd_node :=
  mk_node (mk_nid 1 7000 NODE_STATUS_RUNNING) 128 1 100.
Definition node_b : sd_node :=
  mk_node (mk_nid 2 7000 NODE_STATUS_RUNNING) 128 2 100.

Definition view_ab : vnode_info := mk_vinfo [node_a; node_b] 2 2.

Definition plain_driver : store_driver :=
  mk_driver "plain" SD_RES_SUCCESS SD_RES_SUCCESS true.

(** A node at epoch 1 in automatic mode, with the view [{a, b}]. *)
Definition sys_ab : system :=
  mk_system 1 SD_STATUS_OK 0 "plain" 3 0 0 [node_a; node_b] node_a []
    (Some plain_driver) view_ab [].

(** A node waiting to be recovered at epoch 1. *)
Definition sys_wait : system :=
  mk_system 1 SD_STATUS_WAIT 0 "plain" 3 0 0 [node_a; node_b] node_a []
    (Some plain_driver) view_ab [].

Definition statics0 : recovery_statics := mk_statics [] 0.

(** A [pstrcpy] that keeps the first [size - 1] characters. *)
Definition copy_name (size : Z) (name : string) : string :=
  String.substring 0 (Z.to_nat (size - 1)) name.

Definition env_ok : environment :=
  mk_env (fun nm => if String.eqb nm "plain" then Some plain_driver else None)
    3 0 true (fun _ vi => Some vi).

Definition env_log_fails : environment :=
  mk_env (fun nm => if String.eqb nm "plain" then Some plain_driver else None)
    3 (-1) true (fun _ vi => Some vi).

Definition req_format : sd_req_cluster := mk_req_cluster 3 0 0 0.

End Ops.

(** * Part II: the VDI I/O engine ([vdi_rw_request], [vdi_create_respond]) *)

Module Vdi.

(** The opcodes that index the engine's own [sd_ops] table. *)
Inductive vdi_opcode : Set :=
  | VDI_READ
  | VDI_WRITE
  | VDI_CREATE.

#[global] Instance vdi_opcode_eq_dec : EqDecision vdi_opcode.
Proof. solve_decision. Defined.

(** [struct sheep_request]: one object-level sub-request.  [aiocb] names the
    control block it is counted against.  [buf] is [Some v] when the buffer
    is the 4-byte slot holding [v] (set up by [vdi_create_respond]) and
    [None] when it points into the caller's buffer. *)
Record sheep_request : Set := mk_sheep_request {
  req_offset : Z;
  req_length : Z;
  oid : Z;
  cow_oid : Z;
  aiocb : nat;
  buf : option Z;
  seq_num : Z;
  opcode : vdi_opcode
}.

#[global] Instance sheep_request_eq_dec : EqDecision sheep_request.
Proof. solve_decision. Defined.

Definition set_opcode (op : vdi_opcode) (r : sheep_request) : sheep_request :=
  mk_sheep_request (req_offset r) (req_length r) (oid r) (cow_oid r)
    (aiocb r) (buf r) (seq_num r) op.

(** [struct sheep_aiocb]: one logical read or write.  [aio_opcode] is
    [aiocb->request->opcode]; the live counter [nr_requests] is kept in the
    engine state below, under [aio_id]. *)
Record sheep_aiocb : Set := mk_aiocb {
  aio_id : nat;
  aio_opcode : vdi_opcode;
  aio_offset : Z;
  aio_length : Z
}.

Inductive lock : Set :=
  | vdi_lock
  | blocking_lock.

#[global] Instance lock_eq_dec : EqDecision lock.
Proof. solve_decision. Defined.

(** What the engine does, in order: the log of the calls that leave
    [vdi_rw_request] and [vdi_create_respond], and of their stores to the
    inode map. *)
Inductive event : Set :=
  | EvAlloc (r : sheep_request)
  | EvSubmit (r : sheep_request)
  | EvBlocked (r : sheep_request)
  | EvEnd (r : sheep_request)
  | EvDone (a : nat)
  | EvWriteLock (l : lock)
  | EvUnlock (l : lock)
  | EvInodeSet (idx vid : Z).

#[global] Instance event_eq_dec : EqDecision event.
Proof. solve_decision. Defined.

(** The state the engine works on: the open VDI ([vdi_vid] is
    [request->vdi->vid], [data_vdi_id] the index map of its inode, an
    absent key being the entry 0), the counters [aiocb->nr_requests] by
    aiocb, and [struct sd_cluster] ([seq_num_c], the inflight list and the
    blocking list). *)
Record sd_cluster : Type := mk_cluster {
  vdi_vid : Z;
  data_vdi_id : gmap Z Z;
  nr_requests : gmap nat Z;
  seq_num_c : Z;
  inflight_list : list sheep_request;
  blocking_list : list sheep_request;
  log : list event
}.

Definition emit (e : event) (c : sd_cluster) : sd_cluster :=
  mk_cluster (vdi_vid c) (data_vdi_id c) (nr_requests c) (seq_num_c c)
    (inflight_list c) (blocking_list c) (log c ++ [e]).

Definition set_inode (m : gmap Z Z) (c : sd_cluster) : sd_cluster :=
  mk_cluster (vdi_vid c) m (nr_requests c) (seq_num_c c)
    (inflight_list c) (blocking_list c) (log c).

Definition set_nr_requests (m : gmap nat Z) (c : sd_cluster) : sd_cluster :=
  mk_cluster (vdi_vid c) (data_vdi_id c) m (seq_num_c c)
    (inflight_list c) (blocking_list c) (log c).

Definition set_seq_num (n : Z) (c : sd_cluster) : sd_cluster :=
  mk_cluster (vdi_vid c) (data_vdi_id c) (nr_requests c) n
    (inflight_list c) (blocking_list c) (log c).

Definition set_inflight (l : list sheep_request) (c : sd_cluster) : sd_cluster :=
  mk_cluster (vdi_vid c) (data_vdi_id c) (nr_requests c) (seq_num_c c)
    l (blocking_list c) (log c).

Definition set_blocking (l : list sheep_request) (c : sd_cluster) : sd_cluster :=
  mk_cluster (vdi_vid c) (data_vdi_id c) (nr_requests c) (seq_num_c c)
    (inflight_list c) l (log c).

(** The value of [aiocb->nr_requests]. *)
Definition counter (c : sd_cluster) (a : nat) : Z :=
  default 0 (nr_requests c !! a).

(** [uatomic_inc(&aiocb->nr_requests)] *)
Definition uatomic_inc (a : nat) (c : sd_cluster) : sd_cluster :=
  set_nr_requests (<[a := counter c a + 1]> (nr_requests c)) c.

(** ** Helpers the engine calls *)

(** Modelled from the spec: [vid_to_data_oid], [vid_to_vdi_oid] and
    [data_oid_to_idx], inline functions of the protocol header.  Per the
    design document an object id is a "64-bit identifier combining a
    vid and a data-object index (or the special inode object)": the vid
    sits above a 32-bit index field, and the top bit marks the inode
    object. *)
Definition vid_to_data_oid (vid idx : Z) : Z :=
  Z.lor (Z.shiftl vid 32) idx.

Definition vid_to_vdi_oid (vid : Z) : Z :=
  Z.lor (2 ^ 63) (Z.shiftl vid 32).

Definition data_oid_to_idx (oid : Z) : Z :=
  Z.land oid (Z.ones 32).

(** Modelled from the spec: [sheep_inode_get_vid] reads the index map,
    "entry is 0 (unallocated) until first write". *)
Definition sheep_inode_get_vid (c : sd_cluster) (idx : Z) : Z :=
  default 0 (data_vdi_id c !! idx).

(** Modelled from the spec: [alloc_sheep_request] is the allocation of a
    sub-request by the splitting loop; it takes the opcode of the logical
    request and is counted in the aiocb's live sub-request counter.  The
    sequence number and the counter are handled as [vdi_create_respond]
    does by hand for the request it builds. *)
Definition alloc_sheep_request (a : sheep_aiocb) (oid cow_oid len start : Z)
    (c : sd_cluster) : sheep_request * sd_cluster :=
  let seq := seq_num_c c + 1 in
  let req :=
    mk_sheep_request start len oid cow_oid (aio_id a) None seq (aio_opcode a) in
  (req, emit (EvAlloc req) (uatomic_inc (aio_id a) (set_seq_num seq c))).

(** Modelled from the spec: [submit_sheep_request] hands the sub-request to
    the object store; from then on it is in flight. *)
Definition submit_sheep_request (req : sheep_request) (c : sd_cluster)
  : sd_cluster :=
  emit (EvSubmit req) (set_inflight (inflight_list c ++ [req]) c).

(** Modelled from the spec: [end_sheep_request] completes a sub-request:
    the counter drops by one and "the completion callback fires ... after
    the sub-request counter reaches zero", tested as at the end of
    [vdi_rw_request]. *)
Definition end_sheep_request (req : sheep_request) (c : sd_cluster)
  : sd_cluster :=
  let n := counter c (aiocb req) - 1 in
  let c := emit (EvEnd req) (set_nr_requests (<[aiocb req := n]> (nr_requests c)) c) in
  if n <=? 0 then emit (EvDone (aiocb req)) c else c.

(** Modelled from the spec: [find_inflight_request_oid] consults the
    inflight index for a request on the object. *)
Definition find_inflight_request_oid (c : sd_cluster) (o : Z)
  : option sheep_request :=
  find (fun r => oid r =? o) (inflight_list c).

(** Modelled from the spec: [submit_blocking_sheep_request] does "dequeue
    and resubmit every blocking sub-request waiting on that oid, in FIFO
    order", under the exclusive blocking lock. *)
Definition submit_blocking_sheep_request (o : Z) (c : sd_cluster) : sd_cluster :=
  let c := emit (EvWriteLock blocking_lock) c in
  let waiting := filter (fun r => oid r = o) (blocking_list c) in
  let c := set_blocking (filter (fun r => oid r <> o) (blocking_list c)) c in
  let c := foldl (fun c r => submit_sheep_request r c) c waiting in
  emit (EvUnlock blocking_lock) c.

(** ** [vdi_create_respond] and the reply path *)

Section Engine.

(** Constants of the project's headers. *)
Variable SD_DATA_OBJ_SIZE : Z.
Variable SD_INODE_HEADER_SIZE : Z.

(** [vdi_create_respond]; [sizeof(vid)] is 4. *)
Definition vdi_create_respond (req : sheep_request) (c : sd_cluster)
  : sd_cluster :=
  let vid := vdi_vid c in
  let oid_ := vid_to_vdi_oid vid in
  let idx := data_oid_to_idx (oid req) in
  let seq := seq_num_c c + 1 in
  let new :=
    mk_sheep_request (SD_INODE_HEADER_SIZE + 4 * idx) 4 oid_ 0 (aiocb req)
      (Some vid) seq VDI_WRITE in
  let c := set_seq_num seq c in
  let c := uatomic_inc (aiocb req) c in
  let c := emit (EvWriteLock vdi_lock) c in
  let c := emit (EvInodeSet idx vid) (set_inode (<[idx := vid]> (data_vdi_id c)) c) in
  let c := emit (EvUnlock vdi_lock) c in
  let c := submit_sheep_request new c in
  let c := submit_blocking_sheep_request (oid req) c in
  end_sheep_request req c.

(** The [respond_process] column of the engine's [sd_ops] table. *)
Definition respond_process (req : sheep_request) (c : sd_cluster) : sd_cluster :=
  match opcode req with
  | VDI_READ => end_sheep_request req c
  | VDI_WRITE => end_sheep_request req c
  | VDI_CREATE => vdi_create_respond req c
  end.

Fixpoint remove_seq (id : Z) (l : list sheep_request) : list sheep_request :=
  match l with
  | [] => []
  | r :: rest => if seq_num r =? id then rest else r :: remove_seq id rest
  end.

(** Modelled from the spec: the reply path, which calls the respond
    handlers and is defined elsewhere in the library.  A sub-request is "submitted to the store adapter ..., completes once,
    then released": the reply to the in-flight sub-request with sequence
    number [id] takes it off the inflight list and runs the respond handler
    of its opcode; a reply that matches nothing in flight is dropped.  One
    reply is one atomic step of the reply thread. *)
Definition handle_reply (id : Z) (c : sd_cluster) : sd_cluster :=
  match find (fun r => seq_num r =? id) (inflight_list c) with
  | None => c
  | Some req =>
      respond_process req (set_inflight (remove_seq id (inflight_list c)) c)
  end.

Definition replies (ids : list Z) (c : sd_cluster) : sd_cluster :=
  foldl (fun c id => handle_reply id c) c ids.

(** ** [vdi_rw_request] *)

(** The replies the reply thread handles while one iteration of the
    splitting loop runs: after the iteration has read the index entry and
    allocated its sub-request, between the inflight check and the blocking
    lock, and after the iteration. *)
Record interference : Set := mk_interference {
  after_classify : list Z;
  before_lock : list Z;
  after_iter : list Z
}.

Definition no_interference : interference := mk_interference [] [] [].

(** The loop variables [idx], [total], [start] and [len]. *)
Record loop_state : Set := mk_loop {
  idx : Z;
  total : Z;
  start : Z;
  len : Z
}.

(** The initialisers before the loop: [offset] and [total] are [uint64_t],
    [idx] is [uint32_t], [start] and [len] are [int]. *)
Definition loop_init (offset length : Z) : loop_state :=
  let start := to_int (offset mod SD_DATA_OBJ_SIZE) in
  let idx := wrap32 (offset / SD_DATA_OBJ_SIZE) in
  let len := to_int (wrap64 (SD_DATA_OBJ_SIZE - wrap64 start)) in
  let len := if length <? wrap64 len then to_int length else len in
  mk_loop idx length start len.

(** The four assignments after the label [done]. *)
Definition loop_next (ls : loop_state) : loop_state :=
  let idx' := wrap32 (idx ls + 1) in
  let total' := wrap64 (total ls - wrap64 (len ls)) in
  let start' :=
    to_int (wrap64 (to_int (start ls + len ls)) mod SD_DATA_OBJ_SIZE) in
  let len' :=
    to_int (if SD_DATA_OBJ_SIZE <? total' then SD_DATA_OBJ_SIZE else total') in
  mk_loop idx' total' start' len'.

(** The head of the loop body: the index entry, and the target and
    copy-on-write source it selects. *)
Definition rw_classify (a : sheep_aiocb) (ls : loop_state) (c : sd_cluster)
  : Z * Z * Z :=
  let vid := sheep_inode_get_vid c (idx ls) in
  let inherited := negb (vid =? 0) && negb (vid =? vdi_vid c) in
  let is_write := bool_decide (aio_opcode a = VDI_WRITE) in
  let oid_ :=
    if inherited && negb is_write then vid_to_data_oid vid (idx ls)
    else vid_to_data_oid (vdi_vid c) (idx ls) in
  let cow_oid_ :=
    if inherited && is_write then vid_to_data_oid vid (idx ls) else 0 in
  (vid, oid_, cow_oid_).

(** The section under [blocking_lock]. *)
Definition rw_block_or_submit (ls : loop_state) (req : sheep_request)
    (c : sd_cluster) : sd_cluster :=
  let c := emit (EvWriteLock blocking_lock) c in
  let tmp_vid := sheep_inode_get_vid c (idx ls) in
  if negb (tmp_vid =? 0) && (tmp_vid =? vdi_vid c) then
    submit_sheep_request req (emit (EvUnlock blocking_lock) c)
  else
    emit (EvUnlock blocking_lock)
      (emit (EvBlocked req) (set_blocking (blocking_list c ++ [req]) c)).

(** From the test after [alloc_sheep_request] to the label [done]. *)
Definition rw_dispatch (i : interference) (ls : loop_state) (vid : Z)
    (req : sheep_request) (c : sd_cluster) : sd_cluster :=
  if negb (vid =? 0) && (cow_oid req =? 0) then submit_sheep_request req c
  else
    match opcode req with
    | VDI_WRITE =>
        match find_inflight_request_oid c (oid req) with
        | Some _ => rw_block_or_submit ls req (replies (before_lock i) c)
        | None => submit_sheep_request (set_opcode VDI_CREATE req) c
        end
    | VDI_READ => end_sheep_request req c
    | VDI_CREATE => submit_sheep_request req c
    end.

(** One iteration of the [do ... while] body, with the replies handled
    along the way. *)
Definition rw_iteration (a : sheep_aiocb) (i : interference) (ls : loop_state)
    (c : sd_cluster) : sd_cluster :=
  let '(vid, oid_, cow_oid_) := rw_classify a ls c in
  let '(req, c) := alloc_sheep_request a oid_ cow_oid_ (len ls) (start ls) c in
  let c := replies (after_classify i) c in
  let c := rw_dispatch i ls vid req c in
  replies (after_iter i) c.

(** The [do ... while (total > 0)] loop; the result carries the number of
    iterations run.  [None] is fuel running out. *)
Fixpoint vdi_rw_loop (fuel : nat) (a : sheep_aiocb) (sched : nat -> interference)
    (k : nat) (ls : loop_state) (c : sd_cluster) : option (nat * sd_cluster) :=
  match fuel with
  | O => None
  | S fuel' =>
      let c := rw_iteration a (sched k) ls c in
      let ls' := loop_next ls in
      if 0 <? total ls' then vdi_rw_loop fuel' a sched (S k) ls' c
      else Some (S k, c)
  end.

(** [uatomic_sub_return(&aiocb->nr_requests, 1) <= 0] and the call of
    [aio_done_func] it guards. *)
Definition drop_reference (a : nat) (c : sd_cluster) : sd_cluster :=
  let n := counter c a - 1 in
  let c := set_nr_requests (<[a := n]> (nr_requests c)) c in
  if n <=? 0 then emit (EvDone a) c else c.

(** [vdi_rw_request] *)
Definition vdi_rw_request (fuel : nat) (a : sheep_aiocb)
    (sched : nat -> interference) (c : sd_cluster) : option sd_cluster :=
  let ls := loop_init (aio_offset a) (aio_length a) in
  let c := uatomic_inc (aio_id a) c in
  match vdi_rw_loop fuel a sched O ls c with
  | None => None
  | Some (_, c) => Some (drop_reference (aio_id a) c)
  end.

End Engine.

(** ** Vocabulary of the properties *)

(** The number of data objects a byte range touches: none when it is
    empty, otherwise those from the object of its first byte to the object
    of its last. *)
Definition nr_objects (SD_DATA_OBJ_SIZE offset length : Z) : Z :=
  if length <=? 0 then 0
  else (offset + length - 1) / SD_DATA_OBJ_SIZE - offset / SD_DATA_OBJ_SIZE + 1.

(** The loop variables at the head of iteration [k]. *)
Definition iter_state (SD_DATA_OBJ_SIZE offset length : Z) (k : nat)
  : loop_state :=
  Nat.iter k (loop_next SD_DATA_OBJ_SIZE) (loop_init SD_DATA_OBJ_SIZE offset length).

(** The sub-requests of aiocb [a] that are in flight or blocked. *)
Definition pending (c : sd_cluster) (a : nat) : nat :=
  length (filter (fun r => aiocb r = a) (inflight_list c ++ blocking_list c)).

(** How many times the completion callback of aiocb [a] has fired. *)
Definition fired (c : sd_cluster) (a : nat) : nat :=
  length (filter (fun e => e = EvDone a) (log c)).

(** The sub-requests allocated for aiocb [a] in a stretch of the log. *)
Definition allocated (a : nat) (l : list event) : list sheep_request :=
  omap (fun e => match e with
                 | EvAlloc r => if decide (aiocb r = a) then Some r else None
                 | _ => None
                 end) l.

(** The sub-requests handed to the object store in a stretch of the log. *)
Definition submitted (l : list event) : list sheep_request :=
  omap (fun e => match e with EvSubmit r => Some r | _ => None end) l.

(** The invariant of the loop variables: [start] is inside the object,
    and [len] is what is left of the request or of the object, whichever
    is less. *)
Definition loop_inv (SD_DATA_OBJ_SIZE : Z) (ls : loop_state) : Prop :=
  0 <= start ls < SD_DATA_OBJ_SIZE /\
  0 <= total ls < 2 ^ 64 /\
  len ls = Z.min (total ls) (SD_DATA_OBJ_SIZE - start ls).

(** The bookkeeping of aiocb [a] while its splitting loop runs: the counter
    is the number of its outstanding sub-requests plus the [e] references
    the loop itself holds, and the callback has not fired. *)
Definition counted_running (c : sd_cluster) (a : nat) (e : Z) : Prop :=
  counter c a = Z.of_nat (pending c a) + e /\ fired c a = O.

(** The bookkeeping of aiocb [a] once its splitting loop is over: the
    counter is the number of its outstanding sub-requests, and the callback
    has fired once if none is outstanding and not at all otherwise. *)
Definition counted_after (c : sd_cluster) (a : nat) : Prop :=
  counter c a = Z.of_nat (pending c a) /\
  fired c a = (if decide (pending c a = O) then 1 else 0)%nat.

(** The request [vdi_create_respond] builds to write the index slot of
    [idx] back to the inode object. *)
Definition inode_update (SD_INODE_HEADER_SIZE : Z) (c : sd_cluster)
    (req : sheep_request) : sheep_request :=
  mk_sheep_request
    (SD_INODE_HEADER_SIZE + 4 * data_oid_to_idx (oid req)) 4
    (vid_to_vdi_oid (vdi_vid c)) 0 (aiocb req) (Some (vdi_vid c))
    (seq_num_c c + 1) VDI_WRITE.

(** The sub-request got past the test [vid && !cow_oid]: the index entry
    it read is 0, or it names an ancestor's object as copy-on-write
    source, so that its target is still to be created. *)
Definition needs_create (vid : Z) (req : sheep_request) : Prop :=
  vid = 0 \/ cow_oid req <> 0.

(** The index entry read under the blocking lock says the object is there:
    the test [tmp_vid && tmp_vid == request->vdi->vid]. *)
Definition created (c : sd_cluster) (idx : Z) : Prop :=
  sheep_inode_get_vid c idx <> 0 /\ sheep_inode_get_vid c idx = vdi_vid c.

(** ** Sample inputs *)

(** An engine at rest on VDI 7, with index 1 inherited from VDI 5 and
    index 2 owned. *)
Definition cluster0 : sd_cluster :=
  mk_cluster 7 (<[1 := 5]> (<[2 := 7]> ∅)) ∅ 0 [] [] [].

Definition no_schedule : nat -> interference := fun _ => no_interference.

(** Two logical writes of 10 bytes at offset 0, that is on index 0, which
    is unallocated in [cluster0]. *)
Definition write_a : sheep_aiocb := mk_aiocb 1 VDI_WRITE 0 10.
Definition write_b : sheep_aiocb := mk_aiocb 2 VDI_WRITE 0 10.

(** The sub-requests the loop allocates for them when [write_a] is handled
    first. *)
Definition sub_a : sheep_request :=
  mk_sheep_request 0 10 (vid_to_data_oid 7 0) 0 1 None 1 VDI_WRITE.
Definition sub_b : sheep_request :=
  mk_sheep_request 0 10 (vid_to_data_oid 7 0) 0 2 None 2 VDI_WRITE.

(** The loop variables of both: one sub-request of 10 bytes on index 0. *)
Definition first_ten : loop_state := mk_loop 0 10 0 10.

(** A logical read of three objects' worth from offset 100: it touches
    four objects. *)
Definition read_four : sheep_aiocb := mk_aiocb 1 VDI_READ 100 (3 * 4194304).

(** A logical read of length 0. *)
Definition read_nothing : sheep_aiocb := mk_aiocb 3 VDI_READ 0 0.

(** The loop variables of a sub-request of 10 bytes on index 1, which
    [cluster0] inherits from VDI 5. *)
Definition ten_on_inherited : loop_state := mk_loop 1 10 0 10.

(** Two logical writes of 10 bytes at the start of object 1, which
    [cluster0] inherits from VDI 5, the sub-requests the loop allocates
    for them when [cow_a] is handled first, and the write of the index
    slot of object 1. *)
Definition cow_a : sheep_aiocb := mk_aiocb 1 VDI_WRITE 4194304 10.
Definition cow_b : sheep_aiocb := mk_aiocb 2 VDI_WRITE 4194304 10.

Definition cow_sub_a : sheep_request :=
  mk_sheep_request 0 10 (vid_to_data_oid 7 1) (vid_to_data_oid 5 1) 1 None 1
    VDI_WRITE.
Definition cow_sub_b : sheep_request :=
  mk_sheep_request 0 10 (vid_to_data_oid 7 1) (vid_to_data_oid 5 1) 2 None 2
    VDI_WRITE.

Definition cow_slot_write : sheep_request :=
  mk_sheep_request (4616 + 4 * 1) 4 (vid_to_vdi_oid 7) 0 1 (Some 7) 3 VDI_WRITE.

(** The engine after [cow_a] has issued the create of object 1. *)
Definition cluster_cow_creating : sd_cluster :=
  rw_iteration 4616 cow_a no_interference ten_on_inherited cluster0.

(** The engine after [write_a] has issued the create of object 0. *)
Definition cluster_creating : sd_cluster :=
  rw_iteration 4616 write_a no_interference first_ten cluster0.

(** The write of the index slot of object 0 that the completion of that
    create submits once [write_b] has allocated its sub-request. *)
Definition slot_write : sheep_request :=
  mk_sheep_request 4616 4 (vid_to_vdi_oid 7) 0 1 (Some 7) 3 VDI_WRITE.

(** That engine once [write_b] has allocated its sub-request on the same
    object. *)
Definition cluster_second_allocated : sd_cluster :=
  (alloc_sheep_request write_b (oid sub_b) 0 10 0 cluster_creating).2.

(** The iteration of [write_b] when the reply to the create (sequence
    number 1) is handled between its inflight check and its taking the
    blocking lock. *)
Definition cluster_rechecked : sd_cluster :=
  rw_iteration 4616 write_b (mk_interference [] [1] []) first_ten
    cluster_creating.

(** The iteration of [write_b] when that reply is handled before its
    inflight check. *)
Definition cluster_stale : sd_cluster :=
  rw_iteration 4616 write_b (mk_interference [1] [] []) first_ten
    cluster_creating.

(** The iteration of [write_b] with the create still in flight, and the
    engine after the replies to the create, to the write of the index slot
    and to the resubmitted write. *)
Definition cluster_queued : sd_cluster :=
  rw_iteration 4616 write_b no_interference first_ten cluster_creating.

Definition cluster_settled : sd_cluster := replies 4616 [1; 3; 2] cluster_queued.

End Vdi.

(** * Part III: further handlers of [sheep/ops.c] *)

Module Handlers.
Import Ops.

(** ** Result codes and integer widths *)

(** The result codes these handlers name beside those of [sd_res]. *)
Inductive sd_result : Set :=
  | Res (r : sd_res)
  | SD_RES_SHUTDOWN
  | SD_RES_NO_TAG.

#[global] Instance sd_result_eq_dec : EqDecision sd_result.
Proof. solve_decision. Defined.

(** Conversion to [uint8_t] and to [long] (64-bit two's complement). *)
Definition wrap8 (x : Z) : Z := x mod 2 ^ 8.
Definition to_long (x : Z) : Z := (x + 2 ^ 63) mod 2 ^ 64 - 2 ^ 63.

(** ** Gateway and peer opcodes *)

(** [map_table] and [gateway_to_peer_opcode].  [None] is a slot of
    [map_table] without a designated initialiser, which holds 0, or an
    opcode past the end of the table, where the assertion fails. *)
Definition gateway_to_peer_opcode (opcode : sd_opcode) : option sd_opcode :=
  match opcode with
  | SD_OP_CREATE_AND_WRITE_OBJ => Some SD_OP_CREATE_AND_WRITE_PEER
  | SD_OP_READ_OBJ => Some SD_OP_READ_PEER
  | SD_OP_WRITE_OBJ => Some SD_OP_WRITE_PEER
  | SD_OP_REMOVE_OBJ => Some SD_OP_REMOVE_PEER
  | _ => None
  end.

(** ** Calls that leave the handlers of this part *)

(** [struct vdi_iocb] as [cluster_new_vdi] fills it; [name] is the
    request's data buffer. *)
Record vdi_iocb : Set := mk_iocb {
  iocb_data_len : Z;
  iocb_size : Z;
  iocb_base_vid : Z;
  iocb_create_snapshot : bool;
  iocb_copy_policy : Z;
  iocb_store_policy : Z;
  iocb_nr_copies : Z;
  iocb_time : Z
}.

(** [struct vdi_iocb] as the lookups fill it: [tag] is the offset of the
    tag in the data buffer, [None] being the null pointer. *)
Record lookup_iocb : Set := mk_lookup {
  lk_data_len : Z;
  lk_snapid : Z;
  lk_tag : option Z
}.

Inductive call : Set :=
  | CallVdiCreate (iocb : vdi_iocb)
  | CallVdiSnapshot (iocb : vdi_iocb)
  | CallVdiLookup (iocb : lookup_iocb)
  | CallVdiDelete (vid async_delete : Z)
  | CallUnregisterListeningFds
  | CallSetClusterShutdown (shutdown : bool)
  | CallSetClusterConfig (nr_copies : Z).

#[global] Instance vdi_iocb_eq_dec : EqDecision vdi_iocb.
Proof. solve_decision. Defined.

#[global] Instance lookup_iocb_eq_dec : EqDecision lookup_iocb.
Proof. solve_decision. Defined.

#[global] Instance call_eq_dec : EqDecision call.
Proof. solve_decision. Defined.

(** ** Creating and deleting a VDI *)

(** The initialiser of [iocb.time] in [cluster_new_vdi],
    [(uint64_t) tv.tv_sec << 32 | tv.tv_usec * 1000]: the fields of
    [struct timeval] are [long], the product is a [long] and the result
    is a [uint64_t]. *)
Definition create_time (tv_sec tv_usec : Z) : Z :=
  Z.lor (wrap64 (Z.shiftl (wrap64 tv_sec) 32))
    (wrap64 (to_long (tv_usec * 1000))).

(** The fields of [hdr->vdi] and of [sys->cinfo] that [cluster_new_vdi]
    reads, and the fields of [rsp->vdi] it writes. *)
Record sd_req_vdi : Set := mk_req_vdi {
  rq_vdi_data_length : Z;
  vdi_size : Z;
  base_vdi_id : Z;
  snapid : Z;
  vdi_copies : Z;
  vdi_copy_policy : Z;
  vdi_store_policy : Z;
  async_delete : Z
}.

Record sd_rsp_vdi : Set := mk_rsp_vdi {
  rsp_vdi_id : Z;
  rsp_copies : Z
}.

Section Vdis.

(** Constants of the project's headers. *)
Variable SD_MAX_VDI_LEN : Z.
Variable SD_MAX_VDI_TAG_LEN : Z.

(** Functions defined outside [ops.c], by what they return: the result
    code and the vid they store through their last argument. *)
Variable ec_policy_to_dp : Z -> Z.
Variable vdi_create : vdi_iocb -> sd_res * Z.
Variable vdi_snapshot : vdi_iocb -> sd_res * Z.
Variable vdi_lookup : lookup_iocb -> sd_res * Z.
Variable vdi_delete : Z -> Z -> sd_res.

(** [cluster_new_vdi]; [tv] is what [gettimeofday] stored.  The length
    test follows the set-up of [iocb] and comes before the creation. *)
Definition cluster_new_vdi (s : system) (tv_sec tv_usec : Z) (hdr : sd_req_vdi)
    (rsp : sd_rsp_vdi) : sd_res * sd_rsp_vdi * list call :=
  let nr_copies := vdi_copies hdr in
  let copy_policy := vdi_copy_policy hdr in
  let '(nr_copies, copy_policy) :=
    if vdi_copies hdr =? 0 then (cinfo_nr_copies s, cinfo_copy_policy s)
    else (nr_copies, copy_policy) in
  let nr_copies :=
    if negb (copy_policy =? 0) then ec_policy_to_dp copy_policy
    else nr_copies in
  let iocb :=
    mk_iocb (rq_vdi_data_length hdr) (vdi_size hdr) (base_vdi_id hdr)
      (negb (snapid hdr =? 0)) copy_policy (vdi_store_policy hdr) nr_copies
      (create_time tv_sec tv_usec) in
  if negb (rq_vdi_data_length hdr =? wrap32 SD_MAX_VDI_LEN)
  then (SD_RES_INVALID_PARMS, rsp, [])
  else if iocb_create_snapshot iocb then
    let '(ret, vid) := vdi_snapshot iocb in
    (ret, mk_rsp_vdi vid (iocb_nr_copies iocb), [CallVdiSnapshot iocb])
  else
    let '(ret, vid) := vdi_create iocb in
    (ret, mk_rsp_vdi vid (iocb_nr_copies iocb), [CallVdiCreate iocb]).

(** [vdi_init_tag]: the return value and, when it is 0, the tag stored
    through [tag].  [len] is a [uint32_t], with which the constants are
    compared as unsigned. *)
Definition vdi_init_tag (len : Z) : Z * option Z :=
  if len =? wrap32 (SD_MAX_VDI_LEN + SD_MAX_VDI_TAG_LEN)
  then (0, Some SD_MAX_VDI_LEN)
  else if len =? wrap32 SD_MAX_VDI_LEN then (0, None)
  else (-1, None).

(** [cluster_del_vdi] *)
Definition cluster_del_vdi (hdr : sd_req_vdi) (rsp : sd_rsp_vdi)
  : sd_res * sd_rsp_vdi * list call :=
  let data_len := rq_vdi_data_length hdr in
  let '(r, tag) := vdi_init_tag data_len in
  if r <? 0 then (SD_RES_INVALID_PARMS, rsp, [])
  else
    let iocb := mk_lookup data_len (snapid hdr) tag in
    let '(ret, vid) := vdi_lookup iocb in
    if decide (ret <> SD_RES_SUCCESS) then (ret, rsp, [CallVdiLookup iocb])
    else
      (vdi_delete vid (async_delete hdr),
       mk_rsp_vdi vid (rsp_copies rsp),
       [CallVdiLookup iocb; CallVdiDelete vid (async_delete hdr)]).

End Vdis.

(** ** Cluster status *)

(** [cluster_shutdown]; [node_in_recovery] and [set_cluster_shutdown] are
    given by what they return. *)
Definition cluster_shutdown (node_in_recovery : bool)
    (set_cluster_shutdown : sd_res) (s : system) : sd_res * system * list call :=
  let s := set_status SD_STATUS_SHUTDOWN s in
  if negb node_in_recovery
  then (SD_RES_SUCCESS, s,
        [CallUnregisterListeningFds; CallSetClusterShutdown true])
  else (SD_RES_SUCCESS, s, []).

(** [local_kill_node] *)
Definition local_kill_node (s : system) : sd_res * system * list call :=
  (SD_RES_SUCCESS, set_status SD_STATUS_KILLED s, [CallUnregisterListeningFds]).

Definition set_nr_copies (n : Z) (s : system) : system :=
  mk_system (cinfo_epoch s) (cinfo_status s) (cinfo_flags s) (cinfo_store s)
    n (cinfo_copy_policy s) (cinfo_ctime s) (cinfo_nodes s)
    (this_node s) (vdi_inuse s) (sd_store s) (current_vnode_info s) (trace s).

(** [cluster_alter_cluster_copy]; [set_cluster_config] is given by what it
    returns. *)
Definition cluster_alter_cluster_copy (set_cluster_config : sd_res)
    (req : sd_req_cluster) (s : system) : sd_res * system * list call :=
  if negb (copy_policy req =? 0) then (SD_RES_INVALID_PARMS, s, [])
  else
    let s := set_nr_copies (copies req) s in
    (set_cluster_config, s, [CallSetClusterConfig (cinfo_nr_copies s)]).

(** [rsp->cluster_default] *)
Record sd_rsp_cluster_default : Set := mk_cluster_default {
  nr_copies_default : Z;
  copy_policy_default : Z;
  block_size_shift : Z
}.

(** [local_get_cluster_default] *)
Definition local_get_cluster_default (SD_DEFAULT_BLOCK_SIZE_SHIFT : Z)
    (s : system) : sd_res * sd_rsp_cluster_default :=
  (SD_RES_SUCCESS,
   mk_cluster_default (cinfo_nr_copies s) (cinfo_copy_policy s)
     SD_DEFAULT_BLOCK_SIZE_SHIFT).

(** [struct epoch_log]; [el_nodes] is the array that follows the header. *)
Record epoch_log : Set := mk_elog {
  el_ctime : Z;
  el_time : Z;
  el_epoch : Z;
  el_nr_nodes : Z;
  el_nr_copies : Z;
  el_copy_policy : Z;
  el_flags : Z;
  el_drv_name : string;
  el_nodes : list sd_node
}.

(** What a reader of the epoch log leaves in its out-parameters: the
    number of nodes, the time stamp and the nodes read. *)
Definition read_out : Set := Z * Z * list sd_node.

Section StatCluster.

(** Sizes and constants of the project's headers. *)
Variable sizeof_epoch_log : Z.
Variable sizeof_sd_node : Z.
Variable STORE_LEN : Z.

(** Functions defined outside [ops.c].  A reader of the epoch log is given
    by its result code and by what it leaves in its out-parameters, from
    the epoch, the length of the node buffer and what the out-parameters
    held. *)
Variable pstrcpy : Z -> string -> string.
Variable epoch_log_read_with_timestamp : Z -> Z -> read_out -> sd_result * read_out.
Variable epoch_log_read_remote :
  Z -> Z -> vnode_info -> read_out -> sd_result * read_out.

(** The entry after [memset] and the assignments under [if (i == 0)]. *)
Definition elog_header (s : system) (i : Z) : epoch_log :=
  if i =? 0
  then mk_elog (cinfo_ctime s) 0 0 0 (cinfo_nr_copies s)
         (cinfo_copy_policy s) (cinfo_flags s)
         (pstrcpy STORE_LEN (cinfo_store s)) []
  else mk_elog 0 0 0 0 0 0 0 "" [].

(** The entry once [epoch] is stored, the readers have written its time
    stamp and nodes, and [nr_nodes] holds [nr]. *)
Definition elog_entry (hdr : epoch_log) (epoch : Z) (out : read_out) (nr : Z)
  : epoch_log :=
  mk_elog (el_ctime hdr) out.1.2 epoch nr (el_nr_copies hdr)
    (el_copy_policy hdr) (el_flags hdr) (el_drv_name hdr) out.2.

(** The reads of the node list: the local log and, when it answers
    [NO_TAG], the remote one. *)
Definition read_nodes (epoch len : Z) (vi : vnode_info) : sd_result * read_out :=
  let '(ret, out) := epoch_log_read_with_timestamp epoch len (0, 0, []) in
  if decide (ret = SD_RES_NO_TAG) then epoch_log_read_remote epoch len vi out
  else (ret, out).

(** The result of the loop of [local_stat_cluster]: the code of an early
    [return], the response length and the entries written to the buffer,
    the first written first. *)
Definition stat_loop_result : Set := option sd_result * Z * list epoch_log.

(** The [for] loop from iteration [i] on, [k] iterations being left before
    [i] reaches [max_elogs]. *)
Fixpoint stat_cluster_loop (s : system) (vi : vnode_info) (nodes_nr : Z)
    (k : nat) (i epoch rsp_data_length : Z) (written : list epoch_log)
  : stat_loop_result :=
  match k with
  | O => (None, rsp_data_length, written)
  | S k' =>
      if epoch <=? 0 then (None, rsp_data_length, written)
      else
        let hdr := elog_header s i in
        let len := wrap64 (nodes_nr * sizeof_sd_node) in
        let size := wrap64 (sizeof_epoch_log + len) in
        if 0 <? nodes_nr then
          let '(ret, out) := read_nodes epoch len vi in
          if decide (ret = Res SD_RES_BUFFER_SMALL)
          then (Some ret, rsp_data_length,
                written ++ [elog_entry hdr epoch out 0])
          else
            stat_cluster_loop s vi nodes_nr k' (i + 1) (wrap32 (epoch - 1))
              (wrap32 (rsp_data_length + size))
              (written ++ [elog_entry hdr epoch out out.1.1])
        else
          stat_cluster_loop s vi nodes_nr k' (i + 1) (wrap32 (epoch - 1))
            (wrap32 (rsp_data_length + size))
            (written ++ [elog_entry hdr epoch (0, 0, []) 0])
  end.

(** The [switch] on the cluster status that ends [local_stat_cluster]. *)
Definition status_result (s : system) : sd_result :=
  match cinfo_status s with
  | SD_STATUS_OK => Res SD_RES_SUCCESS
  | SD_STATUS_WAIT =>
      if cinfo_ctime s =? 0 then Res SD_RES_WAIT_FOR_FORMAT
      else Res SD_RES_WAIT_FOR_JOIN
  | SD_STATUS_SHUTDOWN => SD_RES_SHUTDOWN
  | _ => Res SD_RES_SYSTEM_ERROR
  end.

(** [local_stat_cluster]: [data_length] and [nodes_nr] are
    [req->rq.data_length] and [req->rq.cluster.nodes_nr], [vinfo] is
    [req->vinfo], [rsp_data_length] is [rsp->data_length] on entry.  The
    result is the code returned, [rsp->data_length] and the entries
    written to the data buffer. *)
Definition local_stat_cluster (latest_epoch : Z) (s : system)
    (data_length nodes_nr : Z) (vinfo : option vnode_info)
    (rsp_data_length : Z) : sd_result * Z * list epoch_log :=
  match vinfo with
  | None => (status_result s, rsp_data_length, [])
  | Some vi =>
      let size := wrap64 (sizeof_epoch_log + wrap64 (nodes_nr * sizeof_sd_node)) in
      let max_elogs := to_int (data_length / size) in
      match stat_cluster_loop s vi nodes_nr (Z.to_nat max_elogs) 0
              latest_epoch rsp_data_length [] with
      | (Some ret, len, written) => (ret, len, written)
      | (None, len, written) => (status_result s, len, written)
      end
  end.

End StatCluster.

(** ** Looking objects up in the local store *)

Section Exist.

(** A constant of the project's headers. *)
Variable SD_MAX_COPIES : Z.

(** Functions defined outside [ops.c]: [local_ec_index] for the request's
    membership view, [is_erasure_oid], and the [exist] hook of the store
    driver. *)
Variable local_ec_index : Z -> Z.
Variable is_erasure_oid : Z -> bool.
Variable exist : Z -> Z -> bool.

(** [local_oid_exist]; [ec_index] is a [uint8_t]. *)
Definition local_oid_exist (s : system) (oid : Z) : sd_res :=
  let ec_index := wrap8 (local_ec_index oid) in
  if nr_vnodes (this_node s) =? 0 then SD_RES_NO_OBJ
  else if is_erasure_oid oid && (ec_index =? SD_MAX_COPIES) then SD_RES_NO_OBJ
  else if exist oid ec_index then SD_RES_SUCCESS
  else SD_RES_NO_OBJ.

(** The [for] loop of [local_oids_exist], [k] iterations being left before
    [i] reaches [n]; it stores into the array it reads.  [None] is a read
    past the end of the buffer. *)
Fixpoint oids_exist_loop (k : nat) (i j : nat) (oids : list Z)
  : option (nat * list Z) :=
  match k with
  | O => Some (j, oids)
  | S k' =>
      match oids !! i with
      | None => None
      | Some o =>
          let ec_index := wrap8 (local_ec_index o) in
          if is_erasure_oid o && (ec_index =? SD_MAX_COPIES)
          then oids_exist_loop k' (S i) (S j) (<[j := o]> oids)
          else if negb (exist o ec_index)
          then oids_exist_loop k' (S i) (S j) (<[j := o]> oids)
          else oids_exist_loop k' (S i) j oids
      end
  end.

(** [local_oids_exist]: [data_length] is [req->data_length], [oids] the
    data buffer and [rsp_data_length] is [rsp->data_length] on entry; the
    result is the code returned, [rsp->data_length] and the buffer. *)
Definition local_oids_exist (data_length rsp_data_length : Z) (oids : list Z)
  : option (sd_res * Z * list Z) :=
  let n := to_int (data_length / 8) in
  match oids_exist_loop (Z.to_nat n) 0 0 oids with
  | None => None
  | Some (j, oids') =>
      if (0 <? Z.of_nat j)%Z
      then Some (SD_RES_NO_OBJ, wrap32 (8 * Z.of_nat j), oids')
      else Some (SD_RES_SUCCESS, rsp_data_length, oids')
  end.

End Exist.

(** ** Vocabulary of the properties *)

(** The test [local_oids_exist] makes on one object id: it is reported
    missing. *)
Definition reported_missing (SD_MAX_COPIES : Z) (local_ec_index : Z -> Z)
    (is_erasure_oid : Z -> bool) (exist : Z -> Z -> bool) (o : Z) : bool :=
  (is_erasure_oid o && (wrap8 (local_ec_index o) =? SD_MAX_COPIES))
  || negb (exist o (wrap8 (local_ec_index o))).

(** The cluster parameters an entry of the epoch log carries. *)
Definition elog_parameters (e : epoch_log) : Z * Z * Z * Z * string :=
  (el_ctime e, el_nr_copies e, el_copy_policy e, el_flags e, el_drv_name e).

(** A membership tree in the order of [node_cmp], no two entries comparing
    equal. *)
Fixpoint ordered_view (l : list sd_node) : Prop :=
  match l with
  | [] => True
  | a :: rest => Forall (fun b => node_cmp a b < 0) rest /\ ordered_view rest
  end.

(** The redundancy [cluster_new_vdi] settles on: the copy count and policy
    of the request, or those of the cluster when the request names no copy
    count; and under an erasure policy the count that policy stands
    for. *)
Definition effective_policy (s : system) (hdr : sd_req_vdi) : Z :=
  if vdi_copies hdr =? 0 then cinfo_copy_policy s else vdi_copy_policy hdr.

Definition effective_copies (ec_policy_to_dp : Z -> Z) (s : system)
    (hdr : sd_req_vdi) : Z :=
  if effective_policy s hdr =? 0
  then (if vdi_copies hdr =? 0 then cinfo_nr_copies s else vdi_copies hdr)
  else ec_policy_to_dp (effective_policy s hdr).

(** The status of every view entry once the report of [node] is taken. *)
Definition all_running (l : list sd_node) : Prop :=
  Forall (fun t => status (nid t) <> NODE_STATUS_RECOVER) l.

(** ** Sample inputs *)

(** A view with one node still recovering. *)
Definition node_b_recovering : sd_node :=
  mk_node (mk_nid 2 7000 NODE_STATUS_RECOVER) 128 2 100.

Definition sys_manual : system :=
  mk_system 1 SD_STATUS_OK 1 "plain" 3 0 0 [node_a; node_b_recovering] node_a []
    (Some plain_driver) (mk_vinfo [node_a; node_b_recovering] 2 2) [].

(** The node of [sys_manual] once node b has recovered too. *)
Definition sys_manual_recovered : system :=
  mk_system 1 SD_STATUS_OK 1 "plain" 3 0 0 [node_a; node_b] node_a []
    (Some plain_driver) view_ab [].

(** A store that holds the objects with an even id, none of them
    erasure-coded. *)
Definition first_strip (oid : Z) : Z := 0.
Definition no_erasure (oid : Z) : bool := false.
Definition holds_even (oid ec_index : Z) : bool := Z.even oid.

(** A buffer of four object ids, of which a request of 24 bytes announces
    three. *)
Definition four_oids : list Z := [1; 2; 3; 4].

(** A store driver registered under a name of 20 characters. *)
Definition env_long_name : environment :=
  mk_env
    (fun nm =>
       if String.eqb nm "abcdefghijklmnopqrst" then Some plain_driver else None)
    3 0 true (fun _ vi => Some vi).

(** An epoch log whose local copy answers every read with the two nodes
    of the view. *)
Definition read_two_nodes (epoch len : Z) (out : read_out)
  : sd_result * read_out :=
  (Res SD_RES_SUCCESS, (2, 99, [node_a; node_b])).

Definition read_nothing_remote (epoch len : Z) (vi : vnode_info) (out : read_out)
  : sd_result * read_out :=
  (SD_RES_NO_TAG, out).

(** A request for forced recovery with room for two nodes. *)
Definition req_recover : request := mk_request 128 (Some view_ab) 0 0 [].

(** Reports of two epochs, the older one coming back after the newer. *)
Definition mixed_reports : list (Z * sd_node) :=
  [(1, node_a); (2, node_b); (1, node_a); (2, node_a)].

End Handlers.

(** * Part IV: whole requests of the VDI I/O engine *)

Module Requests.
Import Vdi.

(** ** Vocabulary of the properties *)

(** The first byte of the volume a sub-request covers: its offset in the
    data object of the index its object id carries. *)
Definition first_byte (SD_DATA_OBJ_SIZE : Z) (r : sheep_request) : Z :=
  data_oid_to_idx (oid r) * SD_DATA_OBJ_SIZE + req_offset r.

(** The sub-requests tile the bytes from [pos] to [stop]: in their order
    each starts where the one before ends, is not empty and stays inside
    its object, and the last ends at [stop]. *)
Fixpoint tiles (SD_DATA_OBJ_SIZE pos : Z) (l : list sheep_request) (stop : Z)
  : Prop :=
  match l with
  | [] => pos = stop
  | r :: rest =>
      first_byte SD_DATA_OBJ_SIZE r = pos /\
      0 <= req_offset r /\ 0 < req_length r /\
      req_offset r + req_length r <= SD_DATA_OBJ_SIZE /\
      tiles SD_DATA_OBJ_SIZE (pos + req_length r) rest stop
  end.

(** The sub-requests put on the blocking list in a stretch of the log. *)
Definition blocked (l : list event) : list sheep_request :=
  omap (fun e => match e with EvBlocked r => Some r | _ => None end) l.

(** The stores to the index map in a stretch of the log. *)
Definition inode_stores (l : list event) : list (Z * Z) :=
  omap (fun e => match e with EvInodeSet i v => Some (i, v) | _ => None end) l.

(** The lists of the engine agree with the index map.  The vid of the VDI
    and the entries of the map are vids; every blocked sub-request waits
    for a create that is in flight on its object; and a sub-request in
    flight on a data object of the VDI's own vid, unless it is the create
    of that object, is on an object the map says is there. *)
Definition consistent (c : sd_cluster) : Prop :=
  0 < vdi_vid c < 2 ^ 31 /\
  (forall i v, data_vdi_id c !! i = Some v -> 0 <= v < 2 ^ 32) /\
  (forall r, r ∈ blocking_list c ->
     exists r', r' ∈ inflight_list c /\
                opcode r' = VDI_CREATE /\ oid r' = oid r) /\
  (forall r i, r ∈ inflight_list c -> opcode r <> VDI_CREATE ->
     0 <= i < 2 ^ 32 -> oid r = vid_to_data_oid (vdi_vid c) i ->
     sheep_inode_get_vid c i = vdi_vid c).

(** The reply to the sub-request at the head of the inflight list, and
    [n] such replies one after the other. *)
Definition answer_head (SD_INODE_HEADER_SIZE : Z) (c : sd_cluster) : sd_cluster :=
  match inflight_list c with
  | [] => c
  | r :: _ => handle_reply SD_INODE_HEADER_SIZE (seq_num r) c
  end.

Definition drain (SD_INODE_HEADER_SIZE : Z) (n : nat) (c : sd_cluster)
  : sd_cluster :=
  Nat.iter n (answer_head SD_INODE_HEADER_SIZE) c.

(** A bound on the replies it takes to empty the lists: a create in
    flight is followed by the write of its index slot, and a blocked
    sub-request is yet to be submitted. *)
Definition weight (r : sheep_request) : nat :=
  if decide (opcode r = VDI_CREATE) then 2 else 1.

Definition work (c : sd_cluster) : nat :=
  foldr (fun r n => weight r + n)%nat O (inflight_list c)
  + 2 * length (blocking_list c).

(** In a stretch of the log, the index entry [i] is set to [v] before the
    sub-request [r] is ended. *)
Definition stored_before_end (i v : Z) (r : sheep_request) (l : list event)
  : Prop :=
  forall l1 l2, l = l1 ++ EvEnd r :: l2 -> EvInodeSet i v ∈ l1.

(** What is kept, reply after reply, of a write sub-request [req] on the
    object of index [i] of the VDI [own], [l] being the log since it was
    allocated: by the time it is in flight as it is, and by the time the
    entry names the VDI's own vid, the store to the entry is in the log;
    and neither it nor the create made of it has been ended before that
    store. *)
Definition store_first (i own : Z) (req : sheep_request) (c : sd_cluster)
    (l : list event) : Prop :=
  vdi_vid c = own /\
  (req ∈ inflight_list c -> EvInodeSet i own ∈ l) /\
  (sheep_inode_get_vid c i = own -> EvInodeSet i own ∈ l) /\
  (forall r, r = req \/ r = set_opcode VDI_CREATE req ->
     stored_before_end i own r l).

End Requests.

(** * Properties of [sheep/ops.c] *)

Module OpsProps.
Import Ops.

(** ** The force flag *)

(** C9, as the table has it: the descriptors of [STAT_CLUSTER], [SHUTDOWN]
    and [FORCE_RECOVER] carry [force = true], so [is_force_op] returns true
    for them, in a build with or without NFS; the descriptor of
    [STAT_RECOVERY] carries no force flag and [is_force_op] returns false
    for it. *)
Theorem force_flag_of_gate_bypassing_ops (HAVE_NFS : bool) :
  is_force_op (get_sd_op HAVE_NFS SD_OP_STAT_CLUSTER) = true /\
  is_force_op (get_sd_op HAVE_NFS SD_OP_SHUTDOWN) = true /\
  is_force_op (get_sd_op HAVE_NFS SD_OP_FORCE_RECOVER) = true /\
  is_force_op (get_sd_op HAVE_NFS SD_OP_STAT_RECOVERY) = false.
Proof. repeat split; reflexivity. Qed.

(** C9 as stated fails: the four operations do not all have the force flag,
    because [STAT_RECOVERY] does not. *)
Lemma stat_recovery_is_not_force :
  ~ (is_force_op (get_sd_op false SD_OP_STAT_CLUSTER) = true /\
     is_force_op (get_sd_op false SD_OP_STAT_RECOVERY) = true /\
     is_force_op (get_sd_op false SD_OP_SHUTDOWN) = true /\
     is_force_op (get_sd_op false SD_OP_FORCE_RECOVER) = true).
Proof. intros (_ & H & _). vm_compute in H. discriminate H. Qed.

(** ** Cluster format *)

Lemma status_foldl_remove_epoch l s :
  cinfo_status (foldl (fun s i => remove_epoch i s) s l) = cinfo_status s.
Proof.
  revert s. induction l as [|i l IH]; intros s; simpl; [reflexivity|].
  rewrite IH. reflexivity.
Qed.

(** [inc_and_log_epoch] advances the epoch by exactly 1 and logs the new
    epoch. *)
Lemma inc_and_log_epoch_advances env s :
  cinfo_epoch s + 1 < 2 ^ 32 -> 0 <= cinfo_epoch s ->
  cinfo_epoch (inc_and_log_epoch env s).2 = cinfo_epoch s + 1 /\
  last (trace (inc_and_log_epoch env s).2) = Some (EvEpochLog (cinfo_epoch s + 1)) /\
  cinfo_status (inc_and_log_epoch env s).2 = cinfo_status s.
Proof.
  intros H1 H2. unfold inc_and_log_epoch. simpl.
  rewrite last_snoc. unfold wrap32. rewrite Z.mod_small by lia. auto.
Qed.

(** C7: when every step succeeds, [cluster_make_fs] returns success with
    the epoch reset to 0 and then advanced by exactly 1, so that it is 1
    whatever it was before, the new epoch being the last thing logged, and
    with the status set to OK; when a step fails (no such driver, [format]
    or [init] failing, the epoch log not written) it returns a code other
    than success and leaves the status as it was. *)
Theorem cluster_make_fs_spec (SD_DEFAULT_COPIES sizeof_cinfo_store : Z)
    (pstrcpy : Z -> string -> string) (env : environment)
    (req : sd_req_cluster) (data : string) (s : system) :
  let r :=
    cluster_make_fs SD_DEFAULT_COPIES sizeof_cinfo_store pstrcpy env req data s in
  (format_steps_succeed env data ->
     r.1 = SD_RES_SUCCESS /\
     cinfo_status r.2 = SD_STATUS_OK /\
     cinfo_epoch r.2 = 0 + 1 /\
     last (trace r.2) = Some (EvEpochLog 1)) /\
  (~ format_steps_succeed env data ->
     r.1 <> SD_RES_SUCCESS /\ cinfo_status r.2 = cinfo_status s).
Proof.
  unfold format_steps_succeed, cluster_make_fs. simpl. split.
  - intros (drv & Hd & Hf & Hi & Hl). rewrite Hd.
    destruct (decide (format drv <> SD_RES_SUCCESS)) as [Hn|_]; [tauto|].
    destruct (decide (init drv <> SD_RES_SUCCESS)) as [Hn|_]; [tauto|].
    unfold inc_and_log_epoch. rewrite Hl. simpl.
    rewrite last_snoc. repeat split.
  - intros Hno. destruct (find_store_driver env data) as [drv|] eqn:Hd.
    + destruct (decide (format drv <> SD_RES_SUCCESS)) as [Hf|Hf].
      { simpl. split; [exact Hf|reflexivity]. }
      destruct (decide (init drv <> SD_RES_SUCCESS)) as [Hi|Hi].
      { simpl. split; [exact Hi|reflexivity]. }
      unfold inc_and_log_epoch.
      destruct (update_epoch_log env =? 0) eqn:Hl.
      * exfalso. apply Hno. exists drv.
        apply Z.eqb_eq in Hl.
        destruct (decide (format drv = SD_RES_SUCCESS)); [|tauto].
        destruct (decide (init drv = SD_RES_SUCCESS)); tauto.
      * simpl. split; [discriminate|].
        rewrite status_foldl_remove_epoch. reflexivity.
    + simpl. split; [discriminate|reflexivity].
Qed.

(** ** Forced recovery *)

(** C8: the work phase returns [FORCE_RECOVER], leaving the request as it
    was, when the status is not WAIT or no view is available (the request
    carries none, or none is recorded for the epoch); the main phase
    returns [FORCE_RECOVER] and changes nothing when the epoch the work
    phase recorded is not the current one; and when the epochs agree but
    the epoch log cannot be written the main phase ends in [panic]: the
    only codes it ever returns are [FORCE_RECOVER], for the epoch that
    moved, and success, with the log written. *)
Theorem force_recover_failures (sizeof_sd_node : Z) (env : environment)
    (s : system) (req : request) (rsp_epoch rsp_data_length : Z)
    (nodes : list sd_node) :
  let work := cluster_force_recover_work sizeof_sd_node env s req in
  let main :=
    cluster_force_recover_main sizeof_sd_node env rsp_epoch rsp_data_length
      nodes s in
  (cinfo_status s <> SD_STATUS_WAIT \/ vinfo req = None \/
   (exists vi, vinfo req = Some vi /\
               get_vnode_info_epoch env (cinfo_epoch s) vi = None) ->
     work = (SD_RES_FORCE_RECOVER, req)) /\
  (rsp_epoch <> cinfo_epoch s -> main = (Returned SD_RES_FORCE_RECOVER, s)) /\
  (rsp_epoch = cinfo_epoch s -> update_epoch_log env <> 0 ->
     main.1 = Panicked "failed in force recovery") /\
  (forall ret, main.1 = Returned ret ->
     (ret = SD_RES_FORCE_RECOVER /\ rsp_epoch <> cinfo_epoch s) \/
     (ret = SD_RES_SUCCESS /\ rsp_epoch = cinfo_epoch s /\
      update_epoch_log env = 0 /\
      cinfo_status main.2 = SD_STATUS_OK /\
      cinfo_epoch main.2 = wrap32 (cinfo_epoch s + 1))).
Proof.
  simpl. repeat split.
  - unfold cluster_force_recover_work.
    intros [H | [H | (vi & Hv & Hg)]].
    + destruct (decide (cinfo_status s <> SD_STATUS_WAIT)); [reflexivity|tauto].
    + rewrite H. destruct (decide (cinfo_status s <> SD_STATUS_WAIT)); reflexivity.
    + rewrite Hv, Hg.
      destruct (decide (cinfo_status s <> SD_STATUS_WAIT)); reflexivity.
  - intros Hne. unfold cluster_force_recover_main.
    apply Z.eqb_neq in Hne. rewrite Hne. reflexivity.
  - intros Heq Hlog. unfold cluster_force_recover_main, inc_and_log_epoch.
    apply Z.eqb_eq in Heq. apply Z.eqb_neq in Hlog. rewrite Heq, Hlog.
    reflexivity.
  - intros ret. unfold cluster_force_recover_main, inc_and_log_epoch.
    destruct (rsp_epoch =? cinfo_epoch s) eqn:He; simpl.
    + apply Z.eqb_eq in He.
      destruct (update_epoch_log env =? 0) eqn:Hl; simpl.
      * apply Z.eqb_eq in Hl. intros [= <-]. right.
        repeat split; try assumption.
        destruct (is_cluster_formatted env); reflexivity.
      * discriminate.
    + apply Z.eqb_neq in He. intros [= <-]. left. auto.
Qed.

(** ** Recovery completion *)

Lemma node_cmp_key a b : node_cmp a b = 0 <-> node_key a = node_key b.
Proof.
  unfold node_cmp, node_key.
  destruct (Z.compare_spec (addr (nid a)) (addr (nid b)));
    destruct (Z.compare_spec (port (nid a)) (port (nid b)));
    split; intros H'; try lia; try (inversion H'; lia).
  congruence.
Qed.

Lemma rb_search_member l key :
  is_Some (rb_search l key) <-> node_key key ∈ map node_key l.
Proof.
  unfold rb_search. induction l as [|m l IH]; simpl.
  - split; [intros [x Hx]; discriminate Hx | intros H; inversion H].
  - destruct (node_cmp key m =? 0) eqn:Hc.
    + apply Z.eqb_eq, node_cmp_key in Hc. rewrite Hc.
      split; [intros _; left | intros _; eauto].
    + apply Z.eqb_neq in Hc. rewrite IH. split.
      * intros H. now right.
      * intros H. apply elem_of_cons in H as [H|H]; [|assumption].
        exfalso. apply Hc, node_cmp_key. exact H.
Qed.

Lemma insert_sorted_perm n l : insert_sorted n l ≡ₚ n :: l.
Proof.
  induction l as [|m l IH]; simpl; [reflexivity|].
  destruct (node_cmp n m <=? 0); [reflexivity|].
  rewrite IH. apply Permutation_swap.
Qed.

Lemma xqsort_perm l : xqsort l ≡ₚ l.
Proof.
  unfold xqsort. induction l as [|m l IH]; simpl; [reflexivity|].
  rewrite insert_sorted_perm. now rewrite IH.
Qed.

Lemma xqsort_length l : length (xqsort l) = length l.
Proof. apply Permutation_length, xqsort_perm. Qed.

Lemma cleanups_emit_cleanup s : cleanups (emit EvCleanup s) = S (cleanups s).
Proof.
  unfold cleanups, emit. simpl. rewrite filter_app, length_app.
  change (filter (fun e => e = EvCleanup) [EvCleanup]) with [EvCleanup].
  simpl. lia.
Qed.

Section RecoveryCompletion.

Variable SD_CLUSTER_FLAG_MANUAL : Z.
Variable SD_MAX_NODES : Z.
Variable ec_max_data_strip : Z.

Local Abbreviation handler :=
  (cluster_recovery_completion SD_CLUSTER_FLAG_MANUAL SD_MAX_NODES
     ec_max_data_strip).
Local Abbreviation run :=
  (run_reports SD_CLUSTER_FLAG_MANUAL SD_MAX_NODES ec_max_data_strip).
Local Abbreviation auto_mode := (non_manual SD_CLUSTER_FLAG_MANUAL).

(** What one call does in automatic mode. *)
Lemma completion_step epoch node st s r st' s' :
  auto_mode s ->
  handler epoch node st s = Some (r, st', s') ->
  r = SD_RES_SUCCESS /\
  ((epoch < latest_epoch st /\ st' = st /\ s' = s) \/
   (latest_epoch st <= epoch /\ latest_epoch st' = epoch /\
    recovereds st' =
      xqsort ((if latest_epoch st <? epoch then [] else recovereds st) ++ [node]) /\
    (s' = s \/
     (s' = emit EvCleanup s /\
      latest_epoch st' = cinfo_epoch s /\
      count_and_members_match (recovereds st') (current_vnode_info s) /\
      ec_max_data_strip <= nr_zones (current_vnode_info s) /\
      has_cleanup s = true)))).
Proof.
  intros Hauto. unfold cluster_recovery_completion.
  unfold non_manual in Hauto. rewrite Hauto. simpl.
  destruct (epoch <? latest_epoch st) eqn:Hold.
  { intros [= <- <- <-]. apply Z.ltb_lt in Hold. auto. }
  apply Z.ltb_ge in Hold.
  set (st1 := if latest_epoch st <? epoch then mk_statics [] epoch else st).
  assert (Hl1 : latest_epoch st1 = epoch).
  { unfold st1. destruct (latest_epoch st <? epoch) eqn:Hn; [reflexivity|].
    apply Z.ltb_ge in Hn. lia. }
  assert (Hr1 : recovereds st1 =
                if latest_epoch st <? epoch then [] else recovereds st).
  { unfold st1. destruct (latest_epoch st <? epoch); reflexivity. }
  destruct (SD_MAX_NODES <=? nr_recovereds st1); [discriminate|].
  simpl. rewrite Hl1, Hr1.
  destruct (cinfo_epoch s =? epoch) eqn:Hcur; simpl.
  2:{ intros [= <- <- <-]. split; [reflexivity|]. right. simpl. auto. }
  apply Z.eqb_eq in Hcur.
  match goal with
  | |- context [if ?b then maybe_cleanup _ _ _ else _] => destruct b eqn:Hchk
  end.
  2:{ intros [= <- <- <-]. split; [reflexivity|]. right. simpl. auto. }
  unfold maybe_cleanup.
  destruct ((ec_max_data_strip <=? nr_zones (current_vnode_info s))
            && has_cleanup s) eqn:Hgate.
  2:{ intros [= <- <- <-]. split; [reflexivity|]. right. simpl. auto. }
  intros [= <- <- <-]. split; [reflexivity|]. right. simpl.
  repeat split; try assumption.
  right. apply andb_true_iff in Hchk as [Hn Hall].
  apply andb_true_iff in Hgate as [Hz Hc]. apply Z.leb_le in Hz.
  apply Z.eqb_eq in Hn. unfold nr_recovereds in Hn. simpl in Hn.
  repeat split; auto.
  intros r Hr. rewrite forallb_forall in Hall.
  apply list_elem_of_In in Hr. specialize (Hall r Hr).
  apply bool_decide_eq_true in Hall. now apply rb_search_member.
Qed.

Lemma spent_step epoch node st s r st' s' :
  auto_mode s -> spent st s ->
  handler epoch node st s = Some (r, st', s') ->
  s' = s /\ spent st' s.
Proof.
  intros Hauto Hsp Hrun.
  apply completion_step in Hrun as (_ & Hcase); [|assumption].
  destruct Hcase as [(_ & -> & ->) | (Hle & Hlat & Hrec & Hs)]; [auto|].
  assert (Hlen : latest_epoch st = epoch ->
                 nr_recovereds st' = nr_recovereds st + 1).
  { intros He. unfold nr_recovereds. rewrite Hrec, xqsort_length.
    rewrite (proj2 (Z.ltb_ge _ _)) by lia. rewrite length_app. simpl. lia. }
  destruct Hs as [-> | (-> & Hcur & (Hcnt & _) & _)].
  - split; [reflexivity|]. unfold spent in *.
    destruct Hsp as [Hsp | (Hsp1 & Hsp2)]; [left; lia|].
    destruct (decide (epoch = cinfo_epoch s)) as [He|He].
    + right. split; [lia|]. rewrite Hlen by lia. lia.
    + left. lia.
  - exfalso. unfold spent in Hsp.
    destruct Hsp as [Hsp | (Hsp1 & Hsp2)]; [lia|].
    specialize (Hlen ltac:(lia)). unfold nr_recovereds in *. lia.
Qed.

Lemma spent_run reports : forall st s st' s',
  auto_mode s -> spent st s ->
  run reports st s = Some (st', s') -> s' = s.
Proof.
  induction reports as [|[epoch node] rest IH]; intros st s st' s' Hauto Hsp;
    simpl.
  - now intros [= <- <-].
  - destruct (handler epoch node st s) as [[[r st1] s1]|] eqn:Hh; [|discriminate].
    destruct (spent_step _ _ _ _ _ _ _ Hauto Hsp Hh) as [-> Hsp1].
    now apply IH.
Qed.

(** In automatic mode a sequence of reports, handled while the epoch and
    the view of the node stay as they are, triggers the cleanup at most
    once. *)
Lemma cleanup_at_most_once reports : forall st s st' s',
  auto_mode s ->
  run reports st s = Some (st', s') ->
  (cleanups s' <= cleanups s + 1)%nat.
Proof.
  induction reports as [|[epoch node] rest IH]; intros st s st' s' Hauto;
    simpl.
  - intros [= <- <-]. lia.
  - destruct (handler epoch node st s) as [[[r st1] s1]|] eqn:Hh; [|discriminate].
    intros Hrun.
    destruct (completion_step _ _ _ _ _ _ _ Hauto Hh) as (_ & Hcase).
    destruct Hcase as [(_ & -> & ->) | (Hle & Hlat & Hrec & Hs)].
    { now apply (IH st s st' s'). }
    destruct Hs as [-> | (-> & Hcur & (Hcnt & _) & _)].
    { now apply (IH st1 s st' s'). }
    assert (Hsp : spent st1 (emit EvCleanup s)).
    { right. simpl. unfold nr_recovereds. split; [assumption|lia]. }
    apply spent_run in Hrun; [|exact Hauto|exact Hsp].
    subst s'. rewrite cleanups_emit_cleanup. lia.
Qed.

(** When count and membership match and no node was recorded twice, the
    recorded nodes are exactly the nodes of the view. *)
Lemma count_and_members_same_set l vi :
  wf_view vi -> NoDup (map node_key l) ->
  count_and_members_match l vi -> same_node_set l vi.
Proof.
  intros [Hnr Hnd] Hl [Hcnt Hmem] k. split.
  - intros Hk. apply list_elem_of_fmap in Hk as (r & -> & Hr). now apply Hmem.
  - intros Hk. apply list_elem_of_In. apply list_elem_of_In in Hk.
    revert k Hk.
    apply (NoDup_length_incl (l := map node_key l)).
    + apply NoDup_ListNoDup. exact Hl.
    + rewrite !length_map. lia.
    + intros k Hk. apply list_elem_of_In.
      apply list_elem_of_In, list_elem_of_fmap in Hk as (r & -> & Hr).
      now apply Hmem.
Qed.

Lemma members_forallb vi l :
  (forall r, r ∈ l -> node_key r ∈ map node_key (nroot vi)) ->
  forallb (fun r => bool_decide (is_Some (rb_search (nroot vi) r))) l = true.
Proof.
  intros H. apply forallb_forall. intros r Hr.
  apply bool_decide_eq_true, rb_search_member, H. now apply list_elem_of_In.
Qed.

(** Reports of the current epoch that, with the ones already recorded for
    it, come from members of the view and are as many as the view has
    members: the cleanup is triggered, by the last of them. *)
Lemma run_until_all_reported rest : forall st s,
  auto_mode s ->
  latest_epoch st <= cinfo_epoch s ->
  let acc := if latest_epoch st <? cinfo_epoch s then [] else recovereds st in
  rest <> [] ->
  (forall r, r ∈ acc ++ rest ->
     node_key r ∈ map node_key (nroot (current_vnode_info s))) ->
  nr_nodes (current_vnode_info s) = Z.of_nat (length (acc ++ rest)) ->
  Z.of_nat (length (acc ++ rest)) <= SD_MAX_NODES ->
  ec_max_data_strip <= nr_zones (current_vnode_info s) ->
  has_cleanup s = true ->
  exists st',
    run (map (fun n => (cinfo_epoch s, n)) rest) st s
    = Some (st', emit EvCleanup s).
Proof.
  induction rest as [|n rest IH]; intros st s Hauto Hle acc Hne Hmem Hcnt Hmax
    Hz Hc; [congruence|].
  simpl. unfold cluster_recovery_completion.
  unfold non_manual in Hauto. rewrite Hauto. simpl.
  rewrite (proj2 (Z.ltb_ge _ _) Hle).
  set (st1 := if latest_epoch st <? cinfo_epoch s
              then mk_statics [] (cinfo_epoch s) else st).
  assert (Hl1 : latest_epoch st1 = cinfo_epoch s).
  { unfold st1. destruct (latest_epoch st <? cinfo_epoch s) eqn:Hn;
      [reflexivity|]. apply Z.ltb_ge in Hn. lia. }
  assert (Hr1 : recovereds st1 = acc).
  { unfold st1, acc. destruct (latest_epoch st <? cinfo_epoch s); reflexivity. }
  rewrite length_app in Hcnt, Hmax. simpl in Hcnt, Hmax.
  unfold nr_recovereds at 1. rewrite Hr1.
  rewrite (proj2 (Z.leb_gt _ _)) by lia.
  simpl. rewrite Hl1, Z.eqb_refl. simpl.
  unfold nr_recovereds. simpl. rewrite xqsort_length, length_app. simpl.
  assert (Hmem1 : forall r, r ∈ xqsort (acc ++ [n]) ->
            node_key r ∈ map node_key (nroot (current_vnode_info s))).
  { intros r Hr. rewrite xqsort_perm in Hr. apply Hmem.
    apply elem_of_app in Hr as [Hr|Hr]; apply elem_of_app; [now left|].
    right. apply list_elem_of_singleton in Hr as ->. left. }
  rewrite (members_forallb _ _ Hmem1), andb_true_r.
  destruct rest as [|n' rest].
  - rewrite (proj2 (Z.eqb_eq _ _)) by (simpl in Hcnt; lia).
    unfold maybe_cleanup. rewrite (proj2 (Z.leb_le _ _) Hz), Hc. simpl.
    eexists. reflexivity.
  - rewrite (proj2 (Z.eqb_neq _ _)) by (simpl in Hcnt; lia).
    apply IH; simpl.
    + exact Hauto.
    + lia.
    + discriminate.
    + rewrite Z.ltb_irrefl. intros r Hr. apply elem_of_app in Hr as [Hr|Hr].
      * now apply Hmem1.
      * apply Hmem, elem_of_app. right. now right.
    + rewrite Z.ltb_irrefl, length_app, xqsort_length, length_app. simpl in *.
      lia.
    + rewrite Z.ltb_irrefl, length_app, xqsort_length, length_app. simpl in *.
      lia.
    + exact Hz.
    + exact Hc.
Qed.

(** C6, as the handler has it.  In automatic mode: a report with an
    epoch older than the newest seen changes nothing; a report with a newer
    epoch empties the accumulator before it is recorded; a call triggers
    the cleanup only when the newest epoch seen is the node's current one,
    as many reports are recorded as the view has members, each of them from
    a member (which, when no node is recorded twice, makes the recorded
    nodes exactly the nodes of the view), the zone count is at least
    [ec_max_data_strip()] and the store has a cleanup hook; reports handled
    within one epoch trigger it at most once; and when every member of the
    view reports once for the current epoch it is triggered exactly
    once. *)
Theorem recovery_completion_spec (s : system) :
  auto_mode s ->
  (forall epoch node st,
     epoch < latest_epoch st ->
     handler epoch node st s = Some (SD_RES_SUCCESS, st, s)) /\
  (forall epoch node st r st' s',
     latest_epoch st < epoch ->
     handler epoch node st s = Some (r, st', s') ->
     st' = mk_statics [node] epoch) /\
  (forall epoch node st r st' s',
     handler epoch node st s = Some (r, st', s') ->
     cleanups s' = cleanups s \/
     (cleanups s' = S (cleanups s) /\
      latest_epoch st' = cinfo_epoch s /\
      count_and_members_match (recovereds st') (current_vnode_info s) /\
      (wf_view (current_vnode_info s) ->
       NoDup (map node_key (recovereds st')) ->
       same_node_set (recovereds st') (current_vnode_info s)) /\
      ec_max_data_strip <= nr_zones (current_vnode_info s) /\
      has_cleanup s = true)) /\
  (forall reports st st' s',
     run reports st s = Some (st', s') ->
     (cleanups s' <= cleanups s + 1)%nat) /\
  (forall nodes st,
     latest_epoch st < cinfo_epoch s ->
     nodes <> [] ->
     map node_key nodes ≡ₚ map node_key (nroot (current_vnode_info s)) ->
     wf_view (current_vnode_info s) ->
     Z.of_nat (length nodes) <= SD_MAX_NODES ->
     ec_max_data_strip <= nr_zones (current_vnode_info s) ->
     has_cleanup s = true ->
     exists st' s',
       run (map (fun n => (cinfo_epoch s, n)) nodes) st s = Some (st', s') /\
       cleanups s' = S (cleanups s)).
Proof.
  intros Hauto. repeat apply conj.
  - intros epoch node st Hold. unfold cluster_recovery_completion.
    unfold non_manual in Hauto. rewrite Hauto. simpl.
    now rewrite (proj2 (Z.ltb_lt _ _) Hold).
  - intros epoch node st r st' s' Hnew Hrun.
    apply completion_step in Hrun as (_ & Hcase); [|assumption].
    destruct Hcase as [(Hlt & _) | (_ & Hlat & Hrec & _)]; [lia|].
    rewrite (proj2 (Z.ltb_lt _ _) Hnew) in Hrec. simpl in Hrec.
    destruct st' as [l e]. simpl in *. now subst.
  - intros epoch node st r st' s' Hrun.
    apply completion_step in Hrun as (_ & Hcase); [|assumption].
    destruct Hcase as [(_ & _ & ->) | (_ & _ & _ & Hs)]; [now left|].
    destruct Hs as [-> | (-> & Hcur & Hm & Hz & Hc)]; [now left|].
    right. rewrite cleanups_emit_cleanup. repeat split; try assumption.
    + apply Hm.
    + apply Hm.
    + now apply count_and_members_same_set.
    + now apply count_and_members_same_set.
  - intros reports st st' s'. now apply cleanup_at_most_once.
  - intros nodes st Hnew Hne Hperm [Hnr Hnd] Hmax Hz Hc.
    destruct (run_until_all_reported nodes st s) as [st' Hrun];
      try assumption.
    + lia.
    + rewrite (proj2 (Z.ltb_lt _ _) Hnew). simpl. intros r Hr.
      rewrite <- Hperm. now apply list_elem_of_fmap_2.
    + rewrite (proj2 (Z.ltb_lt _ _) Hnew). simpl. rewrite Hnr.
      apply Permutation_length in Hperm. rewrite !length_map in Hperm. lia.
    + rewrite (proj2 (Z.ltb_lt _ _) Hnew). simpl. exact Hmax.
    + exists st', (emit EvCleanup s). split; [exact Hrun|].
      apply cleanups_emit_cleanup.
Qed.

End RecoveryCompletion.

(** C6 as stated fails when a node is recorded twice: with the view
    [{a, b}], two reports of [a] for the current epoch trigger the cleanup
    although [b] has not reported. *)
Lemma duplicate_report_triggers_cleanup :
  run_reports 8 1024 1 [(1, node_a); (1, node_a)] statics0 sys_ab
  = Some (mk_statics [node_a; node_a] 1, emit EvCleanup sys_ab) /\
  non_manual 8 sys_ab /\
  ~ same_node_set [node_a; node_a] (current_vnode_info sys_ab).
Proof.
  split; [vm_compute; reflexivity|]. split; [reflexivity|].
  intros H. specialize (H (node_key node_b)).
  destruct H as [_ H].
  assert (Hb : node_key node_b ∈ map node_key (nroot (current_vnode_info sys_ab))).
  { simpl. right. left. }
  specialize (H Hb). simpl in H.
  apply elem_of_cons in H as [H|H]; [discriminate H|].
  apply elem_of_cons in H as [H|H]; [discriminate H|].
  inversion H.
Qed.


(** ** The properties at sample inputs *)

Lemma cluster_make_fs_spec_witness :
  format_steps_succeed env_ok "plain" /\
  (cluster_make_fs 3 16 copy_name env_ok req_format "plain" sys_wait).1 = SD_RES_SUCCESS /\
  cinfo_status (cluster_make_fs 3 16 copy_name env_ok req_format "plain" sys_wait).2
  = SD_STATUS_OK /\
  cinfo_epoch (cluster_make_fs 3 16 copy_name env_ok req_format "plain" sys_wait).2 = 0 + 1 /\
  last (trace (cluster_make_fs 3 16 copy_name env_ok req_format "plain" sys_wait).2)
  = Some (EvEpochLog 1).
Proof.
  assert (H : format_steps_succeed env_ok "plain").
  { exists plain_driver. repeat split; reflexivity. }
  split; [exact H|].
  exact (proj1 (cluster_make_fs_spec 3 16 copy_name env_ok req_format "plain" sys_wait) H).
Defined.

Lemma force_recover_failures_witness :
  cluster_force_recover_work 64 env_ok sys_ab (mk_request 128 (Some view_ab) 0 0 [])
  = (SD_RES_FORCE_RECOVER, mk_request 128 (Some view_ab) 0 0 []) /\
  cluster_force_recover_main 64 env_ok 0 128 [node_a; node_b] sys_wait
  = (Returned SD_RES_FORCE_RECOVER, sys_wait) /\
  (cluster_force_recover_main 64 env_log_fails 1 128 [node_a; node_b] sys_wait).1
  = Panicked "failed in force recovery".
Proof.
  split; [|split].
  - apply (proj1 (force_recover_failures 64 env_ok sys_ab
                    (mk_request 128 (Some view_ab) 0 0 []) 0 0 [])).
    left. discriminate.
  - apply (proj1 (proj2 (force_recover_failures 64 env_ok sys_wait
                    (mk_request 128 (Some view_ab) 0 0 []) 0 128
                    [node_a; node_b]))).
    discriminate.
  - apply (proj1 (proj2 (proj2 (force_recover_failures 64 env_log_fails sys_wait
                    (mk_request 128 (Some view_ab) 0 0 []) 1 128
                    [node_a; node_b])))).
    + reflexivity.
    + discriminate.
Defined.

Lemma recovery_completion_spec_witness :
  non_manual 8 sys_ab /\
  exists st' s',
    run_reports 8 1024 1 (map (fun n => (cinfo_epoch sys_ab, n)) [node_b; node_a])
      statics0 sys_ab = Some (st', s') /\
    cleanups s' = S (cleanups sys_ab).
Proof.
  assert (H : non_manual 8 sys_ab) by reflexivity.
  split; [exact H|].
  apply (proj2 (proj2 (proj2 (proj2 (recovery_completion_spec 8 1024 1 sys_ab H))))).
  - simpl. lia.
  - discriminate.
  - simpl. apply Permutation_swap.
  - split; [reflexivity|]. simpl. repeat constructor.
    + intros Hin. apply list_elem_of_singleton in Hin. discriminate Hin.
    + intros Hin. inversion Hin.
  - simpl. lia.
  - simpl. lia.
  - reflexivity.
Defined.

End OpsProps.

(** * Properties of the VDI I/O engine *)

Module VdiProps.
Import Vdi.

Lemma wrap32_small x : 0 <= x < 2 ^ 32 -> wrap32 x = x.
Proof. intros H. unfold wrap32. now apply Z.mod_small. Qed.

Lemma wrap64_small x : 0 <= x < 2 ^ 64 -> wrap64 x = x.
Proof. intros H. unfold wrap64. now apply Z.mod_small. Qed.

Lemma to_int_small x : - 2 ^ 31 <= x < 2 ^ 31 -> to_int x = x.
Proof. intros H. unfold to_int. rewrite Z.mod_small; lia. Qed.

Lemma find_snoc {A} (f : A -> bool) (l : list A) (x : A) :
  find f (l ++ [x])
  = match find f l with
    | Some y => Some y
    | None => if f x then Some x else None
    end.
Proof.
  induction l as [|y l IH]; simpl; [reflexivity|].
  destruct (f y); [reflexivity|exact IH].
Qed.

(** ** Object ids *)

Lemma vid_to_data_oid_sum vid idx :
  0 <= vid -> 0 <= idx < 2 ^ 32 ->
  vid_to_data_oid vid idx = vid * 2 ^ 32 + idx.
Proof.
  intros Hv Hi. unfold vid_to_data_oid.
  assert (Hland : Z.land (Z.shiftl vid 32) idx = 0).
  { apply Z.bits_inj'. intros n Hn. rewrite Z.land_spec, Z.bits_0.
    destruct (Z.lt_ge_cases n 32) as [Hlt|Hge].
    - rewrite Z.shiftl_spec_low by lia. reflexivity.
    - rewrite andb_comm.
      replace idx with (idx mod 2 ^ 32) by (apply Z.mod_small; lia).
      rewrite Z.mod_pow2_bits_high by lia. reflexivity. }
  rewrite <- Z.lxor_lor by exact Hland.
  rewrite <- Z.add_nocarry_lxor by exact Hland.
  rewrite Z.shiftl_mul_pow2 by lia. reflexivity.
Qed.

Lemma data_oid_to_idx_data_oid vid idx :
  0 <= vid -> 0 <= idx < 2 ^ 32 ->
  data_oid_to_idx (vid_to_data_oid vid idx) = idx.
Proof.
  intros Hv Hi. unfold data_oid_to_idx.
  rewrite Z.land_ones by lia. rewrite vid_to_data_oid_sum by assumption.
  rewrite Z.add_comm, Z.mod_add by lia. apply Z.mod_small. lia.
Qed.

Lemma vid_to_data_oid_inj vid vid' idx idx' :
  0 <= vid -> 0 <= vid' -> 0 <= idx < 2 ^ 32 -> 0 <= idx' < 2 ^ 32 ->
  vid_to_data_oid vid idx = vid_to_data_oid vid' idx' ->
  vid = vid' /\ idx = idx'.
Proof.
  intros Hv Hv' Hi Hi' H.
  rewrite !vid_to_data_oid_sum in H by assumption. lia.
Qed.

Lemma vid_to_data_oid_nonzero vid idx :
  0 < vid -> 0 <= idx < 2 ^ 32 -> vid_to_data_oid vid idx <> 0.
Proof.
  intros Hv Hi. rewrite vid_to_data_oid_sum by lia. lia.
Qed.

(** ** The splitting loop *)

Section Loop.

Variable SD_DATA_OBJ_SIZE : Z.
Hypothesis obj_size_range : 0 < SD_DATA_OBJ_SIZE < 2 ^ 31.

Local Abbreviation OBJ := SD_DATA_OBJ_SIZE.
Local Abbreviation next := (loop_next SD_DATA_OBJ_SIZE).
Local Abbreviation init := (loop_init SD_DATA_OBJ_SIZE).

Local Abbreviation loop_inv := (Vdi.loop_inv SD_DATA_OBJ_SIZE).

Lemma loop_init_inv offset length :
  0 <= offset < 2 ^ 64 -> 0 <= length < 2 ^ 64 ->
  loop_inv (init offset length) /\
  start (init offset length) = offset mod OBJ /\
  total (init offset length) = length.
Proof.
  intros Ho Hl. unfold loop_init, Vdi.loop_inv. simpl.
  pose proof (Z.mod_pos_bound offset OBJ ltac:(lia)) as Hm.
  rewrite (to_int_small (offset mod OBJ)) by lia.
  rewrite (wrap64_small (offset mod OBJ)) by lia.
  rewrite (wrap64_small (OBJ - offset mod OBJ)) by lia.
  rewrite (to_int_small (OBJ - offset mod OBJ)) by lia.
  rewrite (wrap64_small (OBJ - offset mod OBJ)) by lia.
  destruct (length <? OBJ - offset mod OBJ) eqn:Hlt.
  - apply Z.ltb_lt in Hlt. rewrite to_int_small by lia.
    repeat split; lia.
  - apply Z.ltb_ge in Hlt. repeat split; lia.
Qed.

(** One pass over the assignments at [done], on loop variables that
    satisfy the invariant: nothing wraps. *)
Lemma loop_next_inv ls :
  loop_inv ls ->
  total (next ls) = total ls - len ls /\
  0 <= len ls <= total ls /\
  (0 < total ls -> 0 < len ls) /\
  (0 < total (next ls) -> len ls = OBJ - start ls /\ start (next ls) = 0) /\
  loop_inv (next ls).
Proof.
  intros (Hs & Ht & Hl). unfold loop_next, Vdi.loop_inv. simpl.
  assert (Hlen : 0 <= len ls <= total ls) by lia.
  assert (Hlen' : len ls <= OBJ - start ls) by lia.
  rewrite (wrap64_small (len ls)) by lia.
  rewrite (wrap64_small (total ls - len ls)) by lia.
  rewrite (to_int_small (start ls + len ls)) by lia.
  rewrite (wrap64_small (start ls + len ls)) by lia.
  pose proof (Z.mod_pos_bound (start ls + len ls) OBJ ltac:(lia)) as Hm.
  rewrite (to_int_small ((start ls + len ls) mod OBJ)) by lia.
  assert (Hboundary : 0 < total ls - len ls ->
            len ls = OBJ - start ls /\ (start ls + len ls) mod OBJ = 0).
  { intros Hpos. assert (len ls = OBJ - start ls) by lia. split; [assumption|].
    replace (start ls + len ls) with OBJ by lia. apply Z.mod_same. lia. }
  split; [reflexivity|]. split; [exact Hlen|]. split; [lia|].
  split; [exact Hboundary|].
  split; [lia|]. split; [lia|].
  destruct (OBJ <? total ls - len ls) eqn:Hbig.
  - apply Z.ltb_lt in Hbig. rewrite to_int_small by lia.
    destruct (Hboundary ltac:(lia)) as [_ ->]. lia.
  - apply Z.ltb_ge in Hbig. rewrite to_int_small by lia.
    destruct (Z.eq_dec (total ls - len ls) 0) as [Hz|Hz]; [lia|].
    destruct (Hboundary ltac:(lia)) as [_ ->]. lia.
Qed.

Lemma iter_state_inv offset length k :
  0 <= offset < 2 ^ 64 -> 0 <= length < 2 ^ 64 ->
  loop_inv (iter_state OBJ offset length k).
Proof.
  intros Ho Hl. induction k as [|k IH]; simpl.
  - now apply loop_init_inv.
  - now apply loop_next_inv.
Qed.

Variable SD_INODE_HEADER_SIZE : Z.

Local Abbreviation iteration := (rw_iteration SD_INODE_HEADER_SIZE).
Local Abbreviation loop := (vdi_rw_loop SD_DATA_OBJ_SIZE SD_INODE_HEADER_SIZE).

Lemma vdi_rw_loop_S fuel a sched k ls c :
  loop (S fuel) a sched k ls c =
  if 0 <? total (next ls)
  then loop fuel a sched (S k) (next ls) (iteration a (sched k) ls c)
  else Some (S k, iteration a (sched k) ls c).
Proof. reflexivity. Qed.

(** The loop, entered with a positive remaining length on loop variables
    that satisfy the invariant, runs as many iterations as objects remain,
    whatever the replies handled on the way; a property of the engine
    state that every iteration carries one step further holds at the
    end. *)
Lemma loop_runs (a : sheep_aiocb) (sched : nat -> interference)
    (P : nat -> sd_cluster -> Prop) :
  (forall j ls c, P j c -> P (S j) (iteration a (sched j) ls c)) ->
  forall (n : nat) ls k c fuel,
    loop_inv ls -> 0 < total ls ->
    (start ls + total ls - 1) / OBJ + 1 = Z.of_nat n ->
    (n <= fuel)%nat ->
    P k c ->
    exists c', loop fuel a sched k ls c = Some ((k + n)%nat, c') /\
               P (k + n)%nat c'.
Proof.
  intros Hstep. induction n as [|n IH]; intros ls k c fuel Hinv Hpos Hcnt Hfuel HP.
  - exfalso. destruct Hinv as (Hs & Ht & _).
    pose proof (Z.div_pos (start ls + total ls - 1) OBJ ltac:(lia) ltac:(lia)).
    lia.
  - destruct fuel as [|fuel]; [lia|]. rewrite vdi_rw_loop_S.
    destruct (loop_next_inv ls Hinv) as (Htot & Hlen & _ & Hbnd & Hinv').
    destruct (0 <? total (next ls)) eqn:Hmore.
    + apply Z.ltb_lt in Hmore. destruct (Hbnd Hmore) as [Hl Hs0].
      replace (k + S n)%nat with (S k + n)%nat by lia.
      apply IH; try assumption; try lia.
      * rewrite Hs0, Htot, Hl.
        replace (0 + (total ls - (OBJ - start ls)) - 1)
          with (start ls + total ls - 1 + (-1) * OBJ) by lia.
        rewrite Z.div_add by lia. lia.
      * now apply Hstep.
    + apply Z.ltb_ge in Hmore.
      assert (Hn : n = O).
      { destruct Hinv as (Hs & Ht & Hmin).
        assert (total ls <= OBJ - start ls) by lia.
        rewrite Z.div_small in Hcnt by lia. lia. }
      subst n. eexists. split.
      * replace (k + 1)%nat with (S k) by lia. reflexivity.
      * replace (k + 1)%nat with (S k) by lia. now apply Hstep.
Qed.

(** The objects left from the loop variables at the start are the objects
    the byte range touches. *)
Lemma nr_objects_init offset length :
  0 <= offset -> 0 < length ->
  (offset mod OBJ + length - 1) / OBJ + 1 = nr_objects OBJ offset length.
Proof.
  intros Ho Hl. unfold nr_objects. rewrite (proj2 (Z.leb_gt _ _)) by lia.
  rewrite (Z.div_mod offset OBJ) at 2 by lia.
  replace (OBJ * (offset / OBJ) + offset mod OBJ + length - 1)
    with (offset mod OBJ + length - 1 + (offset / OBJ) * OBJ) by lia.
  rewrite Z.div_add by lia. lia.
Qed.

Lemma nr_objects_pos offset length :
  0 <= offset -> 0 < length -> 0 < nr_objects OBJ offset length.
Proof.
  intros Ho Hl. rewrite <- nr_objects_init by assumption.
  pose proof (Z.mod_pos_bound offset OBJ ltac:(lia)).
  pose proof (Z.div_pos (offset mod OBJ + length - 1) OBJ ltac:(lia) ltac:(lia)).
  lia.
Qed.

End Loop.

(** ** Bookkeeping of the primitive steps *)

Section Bookkeeping.

Variable SD_INODE_HEADER_SIZE : Z.

Local Abbreviation reply := (handle_reply SD_INODE_HEADER_SIZE).
Local Abbreviation replies := (Vdi.replies SD_INODE_HEADER_SIZE).
Local Abbreviation create_respond := (vdi_create_respond SD_INODE_HEADER_SIZE).

(** The number of requests of aiocb [a] in a list. *)
Local Abbreviation owned a l := (length (filter (fun r => aiocb r = a) l)).

Lemma pending_split c a :
  pending c a = (owned a (inflight_list c) + owned a (blocking_list c))%nat.
Proof. unfold pending. now rewrite filter_app, length_app. Qed.

Lemma owned_snoc a l r :
  owned a (l ++ [r]) = (owned a l + if decide (aiocb r = a) then 1 else 0)%nat.
Proof.
  rewrite filter_app, length_app. f_equal.
  rewrite filter_cons. destruct (decide (aiocb r = a)); reflexivity.
Qed.

Lemma fired_emit e c a :
  fired (emit e c) a = (fired c a + if decide (e = EvDone a) then 1 else 0)%nat.
Proof.
  unfold fired, emit. simpl. rewrite filter_app, length_app. f_equal.
  rewrite filter_cons. destruct (decide (e = EvDone a)); reflexivity.
Qed.

Lemma fired_emit_ne e c a : e <> EvDone a -> fired (emit e c) a = fired c a.
Proof. intros H. rewrite fired_emit, decide_False by assumption. lia. Qed.

Lemma counter_insert c a x n :
  counter (set_nr_requests (<[a := n]> (nr_requests c)) c) x =
  if decide (a = x) then n else counter c x.
Proof.
  unfold counter. simpl. destruct (decide (a = x)) as [->|Hne].
  - now rewrite lookup_insert_eq.
  - now rewrite lookup_insert_ne.
Qed.

(** [submit_sheep_request] *)
Lemma submit_effect r c :
  inflight_list (submit_sheep_request r c) = inflight_list c ++ [r] /\
  blocking_list (submit_sheep_request r c) = blocking_list c /\
  nr_requests (submit_sheep_request r c) = nr_requests c /\
  data_vdi_id (submit_sheep_request r c) = data_vdi_id c /\
  vdi_vid (submit_sheep_request r c) = vdi_vid c /\
  seq_num_c (submit_sheep_request r c) = seq_num_c c /\
  log (submit_sheep_request r c) = log c ++ [EvSubmit r].
Proof. repeat split. Qed.

Lemma submit_counts r c a :
  counter (submit_sheep_request r c) a = counter c a /\
  pending (submit_sheep_request r c) a
  = (pending c a + if decide (aiocb r = a) then 1 else 0)%nat /\
  fired (submit_sheep_request r c) a = fired c a.
Proof.
  split; [reflexivity|]. split.
  - rewrite !pending_split. simpl. rewrite owned_snoc. lia.
  - unfold submit_sheep_request. rewrite fired_emit.
    rewrite decide_False by discriminate. unfold fired. simpl. lia.
Qed.

Lemma counter_emit e c a : counter (emit e c) a = counter c a.
Proof. reflexivity. Qed.

Lemma pending_emit e c a : pending (emit e c) a = pending c a.
Proof. reflexivity. Qed.

Lemma fired_set_nr_requests m c a : fired (set_nr_requests m c) a = fired c a.
Proof. reflexivity. Qed.

Lemma fired_set_inode m c a : fired (set_inode m c) a = fired c a.
Proof. reflexivity. Qed.

Lemma fired_uatomic_inc x c a : fired (uatomic_inc x c) a = fired c a.
Proof. reflexivity. Qed.

Lemma fired_set_seq_num n c a : fired (set_seq_num n c) a = fired c a.
Proof. reflexivity. Qed.

Lemma pending_set_inode m c a : pending (set_inode m c) a = pending c a.
Proof. reflexivity. Qed.

Lemma pending_uatomic_inc x c a : pending (uatomic_inc x c) a = pending c a.
Proof. reflexivity. Qed.

Lemma pending_set_seq_num n c a : pending (set_seq_num n c) a = pending c a.
Proof. reflexivity. Qed.

Lemma counter_uatomic_inc x c a :
  counter (uatomic_inc x c) a
  = if decide (x = a) then counter c a + 1 else counter c a.
Proof.
  unfold uatomic_inc. rewrite counter_insert.
  destruct (decide (x = a)) as [<-|]; reflexivity.
Qed.

Lemma counter_set_seq_num n c a : counter (set_seq_num n c) a = counter c a.
Proof. reflexivity. Qed.

Lemma counter_set_inode m c a : counter (set_inode m c) a = counter c a.
Proof. reflexivity. Qed.

(** [end_sheep_request] *)
Lemma end_counts r c a :
  pending (end_sheep_request r c) a = pending c a /\
  counter (end_sheep_request r c) a
  = (if decide (aiocb r = a) then counter c a - 1 else counter c a) /\
  fired (end_sheep_request r c) a
  = (fired c a +
     if decide (aiocb r = a)
     then (if (counter c a - 1 <=? 0)%Z then 1 else 0) else 0)%nat.
Proof.
  unfold end_sheep_request.
  destruct (decide (aiocb r = a)) as [Heq|Hne]; [subst a|];
    destruct (counter c (aiocb r) - 1 <=? 0) eqn:Hz;
    (split; [reflexivity|]); split;
    rewrite ?counter_emit, ?counter_insert, ?fired_emit, ?fired_set_nr_requests;
    rewrite ?(decide_False (P := EvEnd r = EvDone _)) by discriminate;
    rewrite ?(decide_True (P := aiocb r = aiocb r)) by reflexivity;
    rewrite ?(decide_True (P := EvDone (aiocb r) = EvDone (aiocb r)))
      by reflexivity;
    rewrite ?(decide_False (P := aiocb r = a)) by assumption;
    rewrite ?(decide_False (P := EvDone (aiocb r) = EvDone a)) by congruence;
    try reflexivity; lia.
Qed.

Lemma foldl_submit_effect l : forall c,
  let c' := foldl (fun c r => submit_sheep_request r c) c l in
  inflight_list c' = inflight_list c ++ l /\
  blocking_list c' = blocking_list c /\
  nr_requests c' = nr_requests c /\
  data_vdi_id c' = data_vdi_id c /\
  vdi_vid c' = vdi_vid c /\
  seq_num_c c' = seq_num_c c /\
  log c' = log c ++ map EvSubmit l.
Proof.
  induction l as [|r l IH]; intros c; simpl.
  - rewrite !app_nil_r. repeat split.
  - destruct (IH (submit_sheep_request r c)) as (H1 & H2 & H3 & H4 & H5 & H6 & H7).
    rewrite H1, H2, H3, H4, H5, H6, H7. simpl.
    rewrite <- !app_assoc. repeat split.
Qed.

(** [submit_blocking_sheep_request] moves the requests waiting on the
    object, in their order, from the blocking list to the end of the
    inflight list. *)
Lemma submit_blocking_effect o c :
  let c' := submit_blocking_sheep_request o c in
  let waiting := filter (fun r => oid r = o) (blocking_list c) in
  inflight_list c' = inflight_list c ++ waiting /\
  blocking_list c' = filter (fun r => oid r <> o) (blocking_list c) /\
  nr_requests c' = nr_requests c /\
  data_vdi_id c' = data_vdi_id c /\
  vdi_vid c' = vdi_vid c /\
  seq_num_c c' = seq_num_c c /\
  log c' = log c ++ [EvWriteLock blocking_lock] ++ map EvSubmit waiting
             ++ [EvUnlock blocking_lock].
Proof.
  unfold submit_blocking_sheep_request. simpl.
  match goal with
  | |- context [foldl _ ?c0 ?l] =>
      destruct (foldl_submit_effect l c0) as (H1 & H2 & H3 & H4 & H5 & H6 & H7)
  end.
  simpl in *. rewrite H1, H2, H3, H4, H5, H6, H7.
  rewrite <- !app_assoc. repeat split.
Qed.

Lemma owned_partition a (P : sheep_request -> Prop) `{forall r, Decision (P r)} l :
  (owned a (filter P l) + owned a (filter (fun r => ~ P r) l))%nat = owned a l.
Proof.
  induction l as [|r l IH]; [reflexivity|].
  rewrite !(filter_cons _ r).
  destruct (decide (P r)) as [HP|HP].
  - rewrite (decide_False (P := ~ P r)) by tauto.
    rewrite (filter_cons _ r). destruct (decide (aiocb r = a)); simpl; lia.
  - rewrite (decide_True (P := ~ P r)) by tauto.
    rewrite (filter_cons _ r). destruct (decide (aiocb r = a)); simpl; lia.
Qed.

Lemma submit_blocking_counts o c a :
  counter (submit_blocking_sheep_request o c) a = counter c a /\
  pending (submit_blocking_sheep_request o c) a = pending c a /\
  fired (submit_blocking_sheep_request o c) a = fired c a.
Proof.
  destruct (submit_blocking_effect o c) as (H1 & H2 & H3 & _ & _ & _ & H7).
  split; [|split].
  - unfold counter. now rewrite H3.
  - rewrite !pending_split, H1, H2.
    rewrite filter_app, length_app.
    pose proof (owned_partition a (fun r => oid r = o) (blocking_list c)). lia.
  - unfold fired. rewrite H7. rewrite !filter_app, !length_app.
    assert (Hmap : forall l, filter (fun e => e = EvDone a) (map EvSubmit l) = []).
    { induction l as [|r l IH]; [reflexivity|]. cbn [map].
      rewrite filter_cons_False by discriminate. exact IH. }
    rewrite Hmap.
    rewrite !filter_cons_False by discriminate. simpl. lia.
Qed.

Lemma find_remove_seq a id l req :
  find (fun r => seq_num r =? id) l = Some req ->
  owned a l
  = (owned a (remove_seq id l) + if decide (aiocb req = a) then 1 else 0)%nat.
Proof.
  induction l as [|r l IH]; simpl; [discriminate|].
  destruct (seq_num r =? id) eqn:Hs.
  - intros [= ->]. rewrite filter_cons.
    destruct (decide (aiocb req = a)); simpl; lia.
  - intros Hf. rewrite !filter_cons.
    destruct (decide (aiocb r = a)); simpl; rewrite (IH Hf); lia.
Qed.

Lemma end_effect r c :
  let c' := end_sheep_request r c in
  inflight_list c' = inflight_list c /\
  blocking_list c' = blocking_list c /\
  data_vdi_id c' = data_vdi_id c /\
  vdi_vid c' = vdi_vid c /\
  seq_num_c c' = seq_num_c c /\
  log c' = log c ++ [EvEnd r] ++
           (if counter c (aiocb r) - 1 <=? 0 then [EvDone (aiocb r)] else []).
Proof.
  unfold end_sheep_request.
  destruct (counter c (aiocb r) - 1 <=? 0); simpl; rewrite <- ?app_assoc;
    repeat split.
Qed.

(** What [vdi_create_respond] does, step by step. *)
Lemma create_respond_effect req c :
  let idx := data_oid_to_idx (oid req) in
  let new := inode_update SD_INODE_HEADER_SIZE c req in
  let waiting := filter (fun r => oid r = oid req) (blocking_list c) in
  let c' := create_respond req c in
  data_vdi_id c' = <[idx := vdi_vid c]> (data_vdi_id c) /\
  inflight_list c' = inflight_list c ++ [new] ++ waiting /\
  blocking_list c' = filter (fun r => oid r <> oid req) (blocking_list c) /\
  seq_num_c c' = seq_num_c c + 1 /\
  vdi_vid c' = vdi_vid c /\
  log c' = log c ++
    [EvWriteLock vdi_lock; EvInodeSet idx (vdi_vid c); EvUnlock vdi_lock;
     EvSubmit new; EvWriteLock blocking_lock]
    ++ map EvSubmit waiting
    ++ [EvUnlock blocking_lock; EvEnd req]
    ++ (if counter c (aiocb req) <=? 0 then [EvDone (aiocb req)] else []).
Proof.
  unfold vdi_create_respond. cbv zeta.
  set (new := mk_sheep_request _ _ _ _ _ _ _ _).
  change new with (inode_update SD_INODE_HEADER_SIZE c req).
  clear new. set (new := inode_update SD_INODE_HEADER_SIZE c req).
  match goal with
  | |- context [end_sheep_request req ?c1] =>
      set (cb := c1);
      destruct (end_effect req cb) as (E1 & E2 & E3 & E4 & E5 & E6)
  end.
  match goal with
  | cb := submit_blocking_sheep_request ?o ?c0 |- _ =>
      set (cs := c0) in *;
      destruct (submit_blocking_effect o cs) as (B1 & B2 & B3 & B4 & B5 & B6 & B7)
  end.
  fold cb in B1, B2, B3, B4, B5, B6, B7.
  cbv zeta in *.
  rewrite E1, E2, E3, E4, E5, E6, B1, B2, B4, B5, B6, B7.
  assert (Hcnt : counter cb (aiocb req) = counter c (aiocb req) + 1).
  { unfold counter. rewrite B3. unfold cs. simpl.
    rewrite lookup_insert_eq. reflexivity. }
  rewrite Hcnt. replace (counter c (aiocb req) + 1 - 1) with (counter c (aiocb req)) by lia.
  unfold cs. simpl. rewrite <- !app_assoc. simpl. repeat split.
  now rewrite <- app_assoc.
Qed.

Lemma create_respond_counts req c a :
  let c' := create_respond req c in
  counter c' a = counter c a /\
  pending c' a = (pending c a + if decide (aiocb req = a) then 1 else 0)%nat /\
  fired c' a
  = (fired c a + if decide (aiocb req = a)
                 then (if (counter c a <=? 0)%Z then 1 else 0) else 0)%nat.
Proof.
  unfold vdi_create_respond. cbv zeta.
  match goal with
  | |- context [end_sheep_request req ?c1] =>
      destruct (end_counts req c1 a) as (E1 & E2 & E3)
  end.
  rewrite E1, E2, E3.
  match goal with
  | |- context [submit_blocking_sheep_request ?o ?c0] =>
      destruct (submit_blocking_counts o c0 a) as (B1 & B2 & B3)
  end.
  rewrite B1, B2, B3.
  match goal with
  | |- context [submit_sheep_request ?r ?c0] =>
      destruct (submit_counts r c0 a) as (S1 & S2 & S3)
  end.
  rewrite S1, S2, S3. simpl aiocb.
  rewrite !counter_emit, !pending_emit.
  rewrite !fired_emit_ne by discriminate.
  assert (Hc : counter (uatomic_inc (aiocb req) (set_seq_num (seq_num_c c + 1) c)) a
               = if decide (aiocb req = a) then counter c a + 1 else counter c a).
  { unfold uatomic_inc. rewrite counter_insert.
    destruct (decide (aiocb req = a)) as [<-|]; reflexivity. }
  assert (Hc' : counter (set_inode (<[data_oid_to_idx (oid req):=vdi_vid c]> (data_vdi_id c))
                  (emit (EvWriteLock vdi_lock)
                    (uatomic_inc (aiocb req) (set_seq_num (seq_num_c c + 1) c)))) a
               = if decide (aiocb req = a) then counter c a + 1 else counter c a).
  { exact Hc. }
  simpl vdi_vid. simpl data_vdi_id.
  rewrite Hc'.
  rewrite pending_set_inode, pending_emit, pending_uatomic_inc,
    pending_set_seq_num.
  rewrite fired_set_inode, fired_emit_ne, fired_uatomic_inc, fired_set_seq_num
    by discriminate.
  destruct (decide (aiocb req = a)) as [Heq|Hne].
  - replace (counter c a + 1 - 1) with (counter c a) by lia.
    repeat split.
  - repeat split.
Qed.

(** What one reply does to the bookkeeping of aiocb [a]. *)
Lemma reply_counts id c a :
  match find (fun r => seq_num r =? id) (inflight_list c) with
  | None => reply id c = c
  | Some req =>
      let c' := reply id c in
      if decide (aiocb req = a) then
        (1 <= pending c a)%nat /\
        match opcode req with
        | VDI_CREATE =>
            counter c' a = counter c a /\
            pending c' a = pending c a /\
            fired c' a = (fired c a + if (counter c a <=? 0)%Z then 1 else 0)%nat
        | _ =>
            counter c' a = counter c a - 1 /\
            S (pending c' a) = pending c a /\
            fired c' a = (fired c a + if (counter c a - 1 <=? 0)%Z then 1 else 0)%nat
        end
      else
        counter c' a = counter c a /\
        pending c' a = pending c a /\
        fired c' a = fired c a
  end.
Proof.
  unfold handle_reply.
  destruct (find (fun r => seq_num r =? id) (inflight_list c)) as [req|] eqn:Hf;
    [|reflexivity].
  cbv zeta.
  set (c1 := set_inflight (remove_seq id (inflight_list c)) c).
  assert (Hp : pending c a
               = (pending c1 a + if decide (aiocb req = a) then 1 else 0)%nat).
  { rewrite !pending_split. unfold c1. simpl.
    rewrite (find_remove_seq a id _ req Hf). lia. }
  assert (Hc : counter c1 a = counter c a) by reflexivity.
  assert (Hd : fired c1 a = fired c a) by reflexivity.
  unfold respond_process.
  destruct (decide (aiocb req = a)) as [Heq|Hne].
  - split; [lia|].
    destruct (opcode req).
    + destruct (end_counts req c1 a) as (E1 & E2 & E3).
      rewrite E1, E2, E3, Hc, Hd, !decide_True by assumption.
      repeat split; lia.
    + destruct (end_counts req c1 a) as (E1 & E2 & E3).
      rewrite E1, E2, E3, Hc, Hd, !decide_True by assumption.
      repeat split; lia.
    + destruct (create_respond_counts req c1 a) as (E1 & E2 & E3).
      rewrite E1, E2, E3, Hc, Hd, !decide_True by assumption.
      repeat split; lia.
  - destruct (opcode req).
    + destruct (end_counts req c1 a) as (E1 & E2 & E3).
      rewrite E1, E2, E3, Hc, Hd, !decide_False by assumption.
      repeat split; lia.
    + destruct (end_counts req c1 a) as (E1 & E2 & E3).
      rewrite E1, E2, E3, Hc, Hd, !decide_False by assumption.
      repeat split; lia.
    + destruct (create_respond_counts req c1 a) as (E1 & E2 & E3).
      rewrite E1, E2, E3, Hc, Hd, !decide_False by assumption.
      repeat split; lia.
Qed.

(** While the loop of aiocb [a] holds a reference, no reply brings its
    counter to zero. *)
Lemma reply_counted_running id c a e :
  1 <= e -> counted_running c a e -> counted_running (reply id c) a e.
Proof.
  intros He [Hc Hf]. unfold counted_running.
  pose proof (reply_counts id c a) as H.
  destruct (find (fun r => seq_num r =? id) (inflight_list c)) as [req|];
    [|rewrite H; now split].
  cbv zeta in H. destruct (decide (aiocb req = a)).
  - destruct H as [Hp H]. destruct (opcode req); destruct H as (H1 & H2 & H3);
      rewrite H1, H3;
      [ rewrite (proj2 (Z.leb_gt _ _)) by lia
      | rewrite (proj2 (Z.leb_gt _ _)) by lia
      | rewrite (proj2 (Z.leb_gt _ _)) by lia ]; split; lia.
  - destruct H as (H1 & H2 & H3). rewrite H1, H2, H3. now split.
Qed.

Lemma replies_counted_running ids : forall c a e,
  1 <= e -> counted_running c a e -> counted_running (replies ids c) a e.
Proof.
  induction ids as [|id ids IH]; intros c a e He H; simpl; [exact H|].
  apply IH; [exact He|]. now apply reply_counted_running.
Qed.

(** Once the loop of aiocb [a] is over, the callback fires with the reply
    that completes its last outstanding sub-request, and only then. *)
Lemma reply_counted_after id c a :
  counted_after c a -> counted_after (reply id c) a.
Proof.
  intros [Hc Hf]. unfold counted_after.
  pose proof (reply_counts id c a) as H.
  destruct (find (fun r => seq_num r =? id) (inflight_list c)) as [req|];
    [|rewrite H; now split].
  cbv zeta in H. destruct (decide (aiocb req = a)).
  - destruct H as [Hp H].
    rewrite (decide_False (P := pending c a = O)) in Hf by lia.
    destruct (opcode req); destruct H as (H1 & H2 & H3); rewrite H1, H3, Hf.
    + split; [lia|].
      destruct (decide (pending (reply id c) a = O)) as [Hz|Hz].
      * rewrite (proj2 (Z.leb_le _ _)) by lia. reflexivity.
      * rewrite (proj2 (Z.leb_gt _ _)) by lia. reflexivity.
    + split; [lia|].
      destruct (decide (pending (reply id c) a = O)) as [Hz|Hz].
      * rewrite (proj2 (Z.leb_le _ _)) by lia. reflexivity.
      * rewrite (proj2 (Z.leb_gt _ _)) by lia. reflexivity.
    + split; [lia|]. rewrite H2.
      rewrite (decide_False (P := pending c a = O)) by lia.
      rewrite (proj2 (Z.leb_gt _ _)) by lia. reflexivity.
  - destruct H as (H1 & H2 & H3). rewrite H1, H2, H3. now split.
Qed.

Lemma replies_counted_after ids : forall c a,
  counted_after c a -> counted_after (replies ids c) a.
Proof.
  induction ids as [|id ids IH]; intros c a H; simpl; [exact H|].
  apply IH. now apply reply_counted_after.
Qed.

(** *** The log only grows, and only the loop body allocates *)

Lemma allocated_app a l1 l2 :
  allocated a (l1 ++ l2) = allocated a l1 ++ allocated a l2.
Proof. unfold allocated. apply omap_app. Qed.

Lemma allocated_submits a l : allocated a (map EvSubmit l) = [].
Proof. induction l as [|r l IH]; [reflexivity|exact IH]. Qed.

(** [c'] continues the log of [c] without allocating. *)
Local Abbreviation continues c c' :=
  (exists l, log c' = log c ++ l /\ forall a, allocated a l = []).

Lemma continues_refl c : continues c c.
Proof. exists []. split; [now rewrite app_nil_r|reflexivity]. Qed.

Lemma continues_trans c1 c2 c3 :
  continues c1 c2 -> continues c2 c3 -> continues c1 c3.
Proof.
  intros (l1 & H1 & A1) (l2 & H2 & A2). exists (l1 ++ l2). split.
  - now rewrite H2, H1, app_assoc.
  - intros a. now rewrite allocated_app, A1, A2.
Qed.

Lemma end_continues r c : continues c (end_sheep_request r c).
Proof.
  destruct (end_effect r c) as (_ & _ & _ & _ & _ & H).
  eexists. split; [exact H|]. intros a.
  destruct (counter c (aiocb r) - 1 <=? 0); reflexivity.
Qed.

Lemma submit_continues r c : continues c (submit_sheep_request r c).
Proof. exists [EvSubmit r]. split; reflexivity. Qed.

Lemma create_respond_continues r c : continues c (create_respond r c).
Proof.
  destruct (create_respond_effect r c) as (_ & _ & _ & _ & _ & H).
  eexists. split; [exact H|]. intros a.
  rewrite !allocated_app, allocated_submits.
  destruct (counter c (aiocb r) <=? 0); reflexivity.
Qed.

Lemma reply_continues id c : continues c (reply id c).
Proof.
  unfold handle_reply.
  destruct (find (fun r => seq_num r =? id) (inflight_list c)) as [req|];
    [|apply continues_refl].
  unfold respond_process.
  match goal with
  | |- continues c (match _ with _ => _ end) =>
      destruct (opcode req)
  end.
  - exact (end_continues req (set_inflight _ c)).
  - exact (end_continues req (set_inflight _ c)).
  - exact (create_respond_continues req (set_inflight _ c)).
Qed.

Lemma replies_continues ids : forall c, continues c (replies ids c).
Proof.
  induction ids as [|id ids IH]; intros c; simpl; [apply continues_refl|].
  eapply continues_trans; [apply reply_continues|apply IH].
Qed.

Lemma block_or_submit_continues ls req c :
  continues c (rw_block_or_submit ls req c).
Proof.
  unfold rw_block_or_submit. cbv zeta.
  destruct (negb (_ =? 0) && (_ =? _)).
  - exists [EvWriteLock blocking_lock; EvUnlock blocking_lock; EvSubmit req].
    split; [|reflexivity]. simpl. now rewrite <- !app_assoc.
  - exists [EvWriteLock blocking_lock; EvBlocked req; EvUnlock blocking_lock].
    split; [|reflexivity]. simpl. now rewrite <- !app_assoc.
Qed.

Lemma dispatch_continues i ls vid req c :
  continues c (rw_dispatch SD_INODE_HEADER_SIZE i ls vid req c).
Proof.
  unfold rw_dispatch.
  destruct (negb (vid =? 0) && (cow_oid req =? 0)); [apply submit_continues|].
  destruct (opcode req).
  - apply end_continues.
  - destruct (find_inflight_request_oid c (oid req)).
    + eapply continues_trans; [apply replies_continues|].
      apply block_or_submit_continues.
    + apply submit_continues.
  - apply submit_continues.
Qed.

(** One iteration logs the allocation of one sub-request of the aiocb, with
    the length and offset of the loop variables, and allocates nothing
    else. *)
Lemma iteration_log a i ls c :
  exists r l,
    log (rw_iteration SD_INODE_HEADER_SIZE a i ls c) = log c ++ EvAlloc r :: l /\
    (forall x, allocated x l = []) /\
    aiocb r = aio_id a /\ opcode r = aio_opcode a /\
    req_length r = len ls /\ req_offset r = start ls.
Proof.
  unfold rw_iteration.
  destruct (rw_classify a ls c) as [[vid o] co].
  unfold alloc_sheep_request. cbv zeta.
  set (r := mk_sheep_request _ _ _ _ _ _ _ _).
  set (c1 := emit (EvAlloc r) _).
  assert (H : continues c1
                (replies (after_iter i)
                   (rw_dispatch SD_INODE_HEADER_SIZE i ls vid r
                      (replies (after_classify i) c1)))).
  { eapply continues_trans; [apply replies_continues|].
    eapply continues_trans; [apply dispatch_continues|].
    apply replies_continues. }
  destruct H as (l & Hl & Ha).
  exists r, l. rewrite Hl. unfold c1. simpl. rewrite <- app_assoc.
  repeat split. exact Ha.
Qed.

(** *** The counter while the loop runs *)

Lemma submit_counted_running r c e :
  counted_running c (aiocb r) (e + 1) ->
  counted_running (submit_sheep_request r c) (aiocb r) e.
Proof.
  intros [Hc Hf]. destruct (submit_counts r c (aiocb r)) as (S1 & S2 & S3).
  unfold counted_running. rewrite S1, S2, S3, decide_True by reflexivity.
  split; lia.
Qed.

Lemma emit_counted_running ev c a e :
  ev <> EvDone a -> counted_running c a e -> counted_running (emit ev c) a e.
Proof.
  intros Hev [Hc Hf]. unfold counted_running.
  rewrite counter_emit, pending_emit, fired_emit_ne by assumption. now split.
Qed.

Lemma block_or_submit_counted_running ls r c e :
  counted_running c (aiocb r) (e + 1) ->
  counted_running (rw_block_or_submit ls r c) (aiocb r) e.
Proof.
  intros H. unfold rw_block_or_submit. cbv zeta.
  destruct (negb (_ =? 0) && (_ =? _)).
  - apply submit_counted_running.
    apply emit_counted_running; [discriminate|].
    apply emit_counted_running; [discriminate|exact H].
  - destruct H as [Hc Hf]. unfold counted_running.
    rewrite !counter_emit, !pending_emit, !fired_emit_ne by discriminate.
    split; [|rewrite <- Hf; unfold fired; simpl;
             now rewrite filter_app, filter_cons_False, app_nil_r by discriminate].
    change (counter (set_blocking (blocking_list (emit (EvWriteLock blocking_lock) c) ++ [r])
                       (emit (EvWriteLock blocking_lock) c)) (aiocb r))
      with (counter c (aiocb r)).
    rewrite Hc, !pending_split. simpl.
    rewrite owned_snoc, decide_True by reflexivity. lia.
Qed.

Lemma end_counted_running r c e :
  1 <= e ->
  counted_running c (aiocb r) (e + 1) ->
  counted_running (end_sheep_request r c) (aiocb r) e.
Proof.
  intros He [Hc Hf]. destruct (end_counts r c (aiocb r)) as (E1 & E2 & E3).
  unfold counted_running. rewrite E1, E2, E3, !decide_True by reflexivity.
  rewrite (proj2 (Z.leb_gt _ _)) by lia. split; lia.
Qed.

(** One iteration keeps the bookkeeping of the running aiocb: its callback
    does not fire, whatever replies come in. *)
Lemma iteration_counted_running a i ls c :
  counted_running c (aio_id a) 1 ->
  counted_running (rw_iteration SD_INODE_HEADER_SIZE a i ls c) (aio_id a) 1.
Proof.
  intros [Hc Hf]. unfold rw_iteration.
  destruct (rw_classify a ls c) as [[vid o] co].
  unfold alloc_sheep_request. cbv zeta.
  set (r := mk_sheep_request _ _ _ _ _ _ _ _).
  set (c1 := emit (EvAlloc r) _).
  assert (Hr : aiocb r = aio_id a) by reflexivity.
  assert (H1 : counted_running c1 (aio_id a) (1 + 1)).
  { unfold counted_running, c1.
    rewrite counter_emit, pending_emit, fired_emit_ne by discriminate.
    rewrite counter_uatomic_inc, decide_True by reflexivity.
    rewrite counter_set_seq_num, pending_uatomic_inc, pending_set_seq_num,
      fired_uatomic_inc, fired_set_seq_num.
    split; lia. }
  apply replies_counted_running; [lia|].
  apply (replies_counted_running (after_classify i)) in H1; [|lia].
  revert H1. generalize (replies (after_classify i) c1). intros c2 H2.
  rewrite <- Hr in *.
  unfold rw_dispatch.
  destruct (negb (vid =? 0) && (cow_oid r =? 0)).
  { now apply submit_counted_running. }
  destruct (opcode r).
  - now apply end_counted_running.
  - destruct (find_inflight_request_oid c2 (oid r)).
    + apply block_or_submit_counted_running.
      apply replies_counted_running; [lia|exact H2].
    + apply (submit_counted_running (set_opcode VDI_CREATE r)). exact H2.
  - now apply submit_counted_running.
Qed.

End Bookkeeping.

(** ** Create completion *)

Section Respond.

Variable SD_INODE_HEADER_SIZE : Z.

Local Abbreviation HDR := SD_INODE_HEADER_SIZE.

(** C5: [vdi_create_respond] does, in this order and nothing else: take
    the writer lock of the VDI, store the VDI's own vid in the index entry
    of the created object, release the lock; submit a write of 4 bytes,
    holding that vid, at offset [SD_INODE_HEADER_SIZE + 4 * idx] of the
    inode object; submit, under the blocking lock, every blocked
    sub-request waiting on the created object, in the order of the
    blocking list, leaving none of them on it; and end the create
    sub-request. *)
Theorem create_respond_order (req : sheep_request) (c : sd_cluster) :
  let idx := data_oid_to_idx (oid req) in
  let new := inode_update HDR c req in
  let waiting := filter (fun r => oid r = oid req) (blocking_list c) in
  let c' := vdi_create_respond HDR req c in
  log c' = log c ++
    [EvWriteLock vdi_lock; EvInodeSet idx (vdi_vid c); EvUnlock vdi_lock;
     EvSubmit new; EvWriteLock blocking_lock]
    ++ map EvSubmit waiting
    ++ [EvUnlock blocking_lock; EvEnd req]
    ++ (if counter c (aiocb req) <=? 0 then [EvDone (aiocb req)] else []) /\
  sheep_inode_get_vid c' idx = vdi_vid c /\
  (oid new = vid_to_vdi_oid (vdi_vid c) /\
   opcode new = VDI_WRITE /\
   req_offset new = HDR + 4 * idx /\
   req_length new = 4 /\
   buf new = Some (vdi_vid c)) /\
  inflight_list c' = inflight_list c ++ new :: waiting /\
  sublist waiting (blocking_list c) /\
  blocking_list c' = filter (fun r => oid r <> oid req) (blocking_list c) /\
  Forall (fun r => oid r <> oid req) (blocking_list c').
Proof.
  cbv zeta.
  destruct (create_respond_effect HDR req c) as (H1 & H2 & H3 & H4 & H5 & H6).
  split; [exact H6|]. split.
  { unfold sheep_inode_get_vid. rewrite H1, lookup_insert_eq. reflexivity. }
  split; [repeat split|]. split; [exact H2|]. split; [apply sublist_filter|].
  split; [exact H3|]. rewrite H3. apply Forall_forall. intros r Hr.
  apply list_elem_of_filter in Hr. tauto.
Qed.

End Respond.

(** ** One iteration of the splitting loop *)

Section Iteration.

Variable SD_INODE_HEADER_SIZE : Z.

Local Abbreviation HDR := SD_INODE_HEADER_SIZE.

(** X21: A read sub-request on an index whose entry is 0 is ended on the
    spot: the iteration allocates it and calls [end_sheep_request], and
    never hands it to the object store; when no reply comes in meanwhile
    the iteration logs the allocation and the end, and nothing is added
    to the requests in flight.  A read on an index owned by an ancestor
    is allocated on the ancestor's object and submitted. *)
Theorem read_unallocated_short_circuits (a : sheep_aiocb) (i : interference)
    (ls : loop_state) (c : sd_cluster) :
  aio_opcode a = VDI_READ ->
  let vid := sheep_inode_get_vid c (idx ls) in
  (vid = 0 ->
     let req :=
       mk_sheep_request (start ls) (len ls)
         (vid_to_data_oid (vdi_vid c) (idx ls)) 0 (aio_id a) None
         (seq_num_c c + 1) VDI_READ in
     let c1 :=
       replies HDR (after_classify i)
         (alloc_sheep_request a (oid req) 0 (len ls) (start ls) c).2 in
     rw_iteration HDR a i ls c
     = replies HDR (after_iter i) (end_sheep_request req c1) /\
     inflight_list (end_sheep_request req c1) = inflight_list c1 /\
     inflight_list (rw_iteration HDR a no_interference ls c) = inflight_list c /\
     log (rw_iteration HDR a no_interference ls c)
     = log c ++ [EvAlloc req; EvEnd req]
         ++ (if counter c (aio_id a) <=? 0 then [EvDone (aio_id a)] else []) /\
     submitted (drop (length (log c))
                  (log (rw_iteration HDR a no_interference ls c))) = []) /\
  (vid <> 0 -> vid <> vdi_vid c ->
     let req :=
       mk_sheep_request (start ls) (len ls) (vid_to_data_oid vid (idx ls)) 0
         (aio_id a) None (seq_num_c c + 1) VDI_READ in
     let c1 :=
       replies HDR (after_classify i)
         (alloc_sheep_request a (oid req) 0 (len ls) (start ls) c).2 in
     rw_iteration HDR a i ls c
     = replies HDR (after_iter i) (submit_sheep_request req c1) /\
     inflight_list (rw_iteration HDR a no_interference ls c)
     = inflight_list c ++ [req] /\
     log (rw_iteration HDR a no_interference ls c)
     = log c ++ [EvAlloc req; EvSubmit req]).
Proof.
  intros Hop vid. split.
  - intros Hz. cbv zeta. unfold vid in Hz.
    assert (Hiter : forall i',
              rw_iteration HDR a i' ls c
              = replies HDR (after_iter i')
                  (end_sheep_request
                     (mk_sheep_request (start ls) (len ls)
                        (vid_to_data_oid (vdi_vid c) (idx ls)) 0 (aio_id a)
                        None (seq_num_c c + 1) VDI_READ)
                     (replies HDR (after_classify i')
                        (alloc_sheep_request a
                           (vid_to_data_oid (vdi_vid c) (idx ls)) 0 (len ls)
                           (start ls) c).2))).
    { intros i'. unfold rw_iteration, rw_classify. rewrite Hz, Hop. simpl.
      unfold rw_dispatch. simpl. rewrite Hop. reflexivity. }
    split; [apply Hiter|]. split; [apply end_effect|].
    rewrite Hiter. simpl.
    match goal with
    | |- context [end_sheep_request ?r ?c0] =>
        destruct (end_effect r c0) as (E1 & _ & _ & _ & _ & E6)
    end.
    rewrite E1, E6. simpl. rewrite Hop.
    rewrite counter_emit, counter_uatomic_inc, decide_True by reflexivity.
    rewrite counter_set_seq_num.
    replace (counter c (aio_id a) + 1 - 1) with (counter c (aio_id a)) by lia.
    split; [reflexivity|]. rewrite <- app_assoc. split; [reflexivity|].
    rewrite drop_app_length.
    destruct (counter c (aio_id a) <=? 0); reflexivity.
  - intros Hnz Hne. cbv zeta. unfold vid in Hnz, Hne.
    assert (Hiter : forall i',
              rw_iteration HDR a i' ls c
              = replies HDR (after_iter i')
                  (submit_sheep_request
                     (mk_sheep_request (start ls) (len ls)
                        (vid_to_data_oid (sheep_inode_get_vid c (idx ls)) (idx ls))
                        0 (aio_id a) None (seq_num_c c + 1) VDI_READ)
                     (replies HDR (after_classify i')
                        (alloc_sheep_request a
                           (vid_to_data_oid (sheep_inode_get_vid c (idx ls)) (idx ls))
                           0 (len ls) (start ls) c).2))).
    { intros i'. unfold rw_iteration, rw_classify.
      rewrite (proj2 (Z.eqb_neq _ _) Hnz), (proj2 (Z.eqb_neq _ _) Hne), Hop.
      simpl. unfold rw_dispatch. simpl.
      rewrite (proj2 (Z.eqb_neq _ _) Hnz). simpl. rewrite Hop. reflexivity. }
    split; [apply Hiter|]. rewrite Hiter. simpl. rewrite Hop.
    rewrite <- app_assoc. split; reflexivity.
Qed.

Lemma block_or_submit_cases ls req c :
  (created c (idx ls) ->
     rw_block_or_submit ls req c
     = submit_sheep_request req
         (emit (EvUnlock blocking_lock) (emit (EvWriteLock blocking_lock) c))) /\
  (~ created c (idx ls) ->
     rw_block_or_submit ls req c
     = emit (EvUnlock blocking_lock)
         (emit (EvBlocked req)
            (set_blocking (blocking_list c ++ [req])
               (emit (EvWriteLock blocking_lock) c)))).
Proof.
  unfold rw_block_or_submit, created. cbv zeta.
  change (sheep_inode_get_vid (emit (EvWriteLock blocking_lock) c) (idx ls))
    with (sheep_inode_get_vid c (idx ls)).
  change (vdi_vid (emit (EvWriteLock blocking_lock) c)) with (vdi_vid c).
  destruct (Z.eqb_spec (sheep_inode_get_vid c (idx ls)) 0);
    destruct (Z.eqb_spec (sheep_inode_get_vid c (idx ls)) (vdi_vid c)); simpl;
    split; intros H; try reflexivity; tauto.
Qed.

(** X22: The create-race guard, from the inflight check on.  Of two write
    sub-requests on the same object that is still to be created, the one
    that finds no request on the object in flight is submitted as the
    create and is in the inflight index from then on.  The one that finds
    a request on the object in flight issues no create: it takes the
    blocking lock and reads the index entry again; if the object is still
    not there it is appended to the tail of the blocking queue, under the
    lock, and nothing is submitted; if the create has completed meanwhile
    it is submitted as the plain write it is.  The completion of the create
    stores the index entry first and only then resubmits the blocked
    sub-request, which leaves the blocking queue; and each of the two is
    ended by the reply to it. *)
Theorem create_race_guard (i : interference) (ls : loop_state)
    (vidA vidB : Z) (reqA reqB : sheep_request) :
  opcode reqA = VDI_WRITE -> opcode reqB = VDI_WRITE ->
  oid reqA = oid reqB ->
  needs_create vidA reqA -> needs_create vidB reqB ->
  (forall c,
     find_inflight_request_oid c (oid reqA) = None ->
     let c' := rw_dispatch HDR i ls vidA reqA c in
     c' = submit_sheep_request (set_opcode VDI_CREATE reqA) c /\
     is_Some (find_inflight_request_oid c' (oid reqB))) /\
  (forall c,
     is_Some (find_inflight_request_oid c (oid reqB)) ->
     let c1 := replies HDR (before_lock i) c in
     let c' := rw_dispatch HDR i ls vidB reqB c in
     c' = rw_block_or_submit ls reqB c1 /\
     (~ created c1 (idx ls) ->
        blocking_list c' = blocking_list c1 ++ [reqB] /\
        inflight_list c' = inflight_list c1 /\
        log c' = log c1 ++ [EvWriteLock blocking_lock; EvBlocked reqB;
                            EvUnlock blocking_lock]) /\
     (created c1 (idx ls) ->
        blocking_list c' = blocking_list c1 /\
        inflight_list c' = inflight_list c1 ++ [reqB] /\
        log c' = log c1 ++ [EvWriteLock blocking_lock; EvUnlock blocking_lock;
                            EvSubmit reqB])) /\
  (forall c rA,
     opcode rA = VDI_CREATE -> oid rA = oid reqB ->
     find (fun r => seq_num r =? seq_num rA) (inflight_list c) = Some rA ->
     reqB ∈ blocking_list c ->
     let c' := handle_reply HDR (seq_num rA) c in
     sheep_inode_get_vid c' (data_oid_to_idx (oid reqB)) = vdi_vid c /\
     reqB ∈ inflight_list c' /\
     (reqB ∉ blocking_list c') /\
     exists l2 l3,
       log c' = log c ++ EvWriteLock vdi_lock
                  :: EvInodeSet (data_oid_to_idx (oid reqB)) (vdi_vid c)
                  :: l2 ++ EvSubmit reqB :: l3 /\
       EvEnd rA ∈ l3) /\
  (forall c,
     find (fun r => seq_num r =? seq_num reqB) (inflight_list c) = Some reqB ->
     EvEnd reqB ∈ log (handle_reply HDR (seq_num reqB) c)).
Proof.
  intros HopA HopB Hoid HncA HncB.
  assert (Hpast : forall vid req, needs_create vid req ->
            negb (vid =? 0) && (cow_oid req =? 0) = false).
  { intros vid req [-> | Hc]; [reflexivity|].
    rewrite (proj2 (Z.eqb_neq _ _) Hc). apply andb_false_r. }
  split; [|split; [|split]].
  - intros c Hf c'. unfold c', rw_dispatch.
    rewrite (Hpast _ _ HncA), HopA, Hf. split; [reflexivity|].
    unfold find_inflight_request_oid. simpl.
    rewrite find_snoc.
    change (find (fun r => oid r =? oid reqB) (inflight_list c))
      with (find_inflight_request_oid c (oid reqB)).
    rewrite <- Hoid, Hf. simpl. rewrite Z.eqb_refl. eauto.
  - intros c [r Hf] c1 c'. unfold c', rw_dispatch.
    rewrite (Hpast _ _ HncB), HopB, Hf. fold c1. split; [reflexivity|].
    destruct (block_or_submit_cases ls reqB c1) as [Hyes Hno].
    split; intros Hc.
    + rewrite (Hno Hc). simpl. rewrite <- !app_assoc. repeat split.
    + rewrite (Hyes Hc). simpl. rewrite <- !app_assoc. repeat split.
  - intros c rA HopC HoidC Hfind Hblocked c'.
    unfold c', handle_reply. rewrite Hfind. unfold respond_process.
    rewrite HopC.
    set (c0 := set_inflight (remove_seq (seq_num rA) (inflight_list c)) c).
    destruct (create_respond_effect HDR rA c0) as (H1 & H2 & H3 & _ & _ & H6).
    rewrite HoidC in H1, H2, H3, H6.
    assert (Hw : reqB ∈ filter (fun r => oid r = oid reqB) (blocking_list c0)).
    { apply list_elem_of_filter. split; [reflexivity|exact Hblocked]. }
    split.
    { unfold sheep_inode_get_vid. rewrite H1, lookup_insert_eq. reflexivity. }
    split.
    { rewrite H2. set_unfold. tauto. }
    split.
    { rewrite H3. intros Hin. apply list_elem_of_filter in Hin. tauto. }
    apply list_elem_of_split in Hw as (w1 & w2 & Hw).
    rewrite Hw in H6. rewrite map_app in H6. simpl in H6.
    eexists ([EvUnlock vdi_lock; _; EvWriteLock blocking_lock] ++ map EvSubmit w1).
    eexists. split.
    + rewrite H6. simpl. rewrite <- !app_assoc. reflexivity.
    + set_unfold. tauto.
  - intros c Hfind. unfold handle_reply. rewrite Hfind.
    unfold respond_process. rewrite HopB.
    match goal with
    | |- context [end_sheep_request reqB ?c0] =>
        destruct (end_effect reqB c0) as (_ & _ & _ & _ & _ & E6)
    end.
    rewrite E6. set_unfold. tauto.
Qed.

End Iteration.

(** ** The splitting loop as a whole *)

Section Splitting.

Variable SD_DATA_OBJ_SIZE : Z.
Variable SD_INODE_HEADER_SIZE : Z.
Hypothesis obj_size_range : 0 < SD_DATA_OBJ_SIZE < 2 ^ 31.

Local Abbreviation OBJ := SD_DATA_OBJ_SIZE.
Local Abbreviation HDR := SD_INODE_HEADER_SIZE.

(** A request of length 0: the loop variables start with [len = 0] and the
    body runs once. *)
Lemma zero_length_runs_once (a : sheep_aiocb) :
  0 <= aio_offset a < 2 ^ 64 ->
  aio_length a = 0 ->
  let init := loop_init OBJ (aio_offset a) (aio_length a) in
  len init = 0 /\
  forall fuel sched c,
    (1 <= fuel)%nat ->
    vdi_rw_loop OBJ HDR fuel a sched O init c
    = Some (1%nat, rw_iteration HDR a (sched O) init c).
Proof.
  intros Ho Hz init.
  destruct (loop_init_inv OBJ obj_size_range (aio_offset a) (aio_length a) Ho
              ltac:(lia)) as (Hinv & Hstart & Htotal).
  fold init in Hinv, Hstart, Htotal.
  destruct (loop_next_inv OBJ obj_size_range init Hinv) as (Htot & _).
  destruct Hinv as (Hs & Ht & Hlen).
  assert (Hlen0 : len init = 0) by lia.
  split; [exact Hlen0|]. intros fuel sched c Hfuel.
  destruct fuel as [|fuel]; [lia|]. rewrite vdi_rw_loop_S.
  rewrite Htot, Htotal, Hz, Hlen0. reflexivity.
Qed.

(** A request of positive length: the loop runs as many iterations as the
    request touches objects, and carries along what every iteration
    preserves. *)
Lemma positive_length_runs (a : sheep_aiocb) (sched : nat -> interference)
    (P : nat -> sd_cluster -> Prop) :
  (forall j ls c, P j c -> P (S j) (rw_iteration HDR a (sched j) ls c)) ->
  0 <= aio_offset a < 2 ^ 64 ->
  0 < aio_length a < 2 ^ 64 ->
  let n := Z.to_nat (nr_objects OBJ (aio_offset a) (aio_length a)) in
  forall fuel c,
    (n <= fuel)%nat ->
    P O c ->
    exists c',
      vdi_rw_loop OBJ HDR fuel a sched O
        (loop_init OBJ (aio_offset a) (aio_length a)) c = Some (n, c') /\
      P n c'.
Proof.
  intros Hstep Ho Hl n fuel c Hfuel HP.
  destruct (loop_init_inv OBJ obj_size_range (aio_offset a) (aio_length a) Ho
              ltac:(lia)) as (Hinv & Hstart & Htotal).
  apply (loop_runs OBJ obj_size_range HDR a sched P Hstep n _ O c fuel);
    try assumption.
  - lia.
  - rewrite Hstart, Htotal, nr_objects_init by lia.
    pose proof (nr_objects_pos OBJ obj_size_range (aio_offset a)
                  (aio_length a) ltac:(lia) ltac:(lia)).
    unfold n. lia.
Qed.

(** C10: for every offset and length the loop ends.  A request of positive
    length runs as many iterations as it touches objects; each iteration
    that starts with a positive remaining length takes from it the lesser
    of that length and of the bytes up to the next object boundary, which
    is positive.  A request of length 0 runs the body exactly once, on a
    sub-request of length 0. *)
Theorem splitting_loop_terminates (a : sheep_aiocb) :
  0 <= aio_offset a < 2 ^ 64 ->
  0 <= aio_length a < 2 ^ 64 ->
  let init := loop_init OBJ (aio_offset a) (aio_length a) in
  let n :=
    if aio_length a =? 0 then 1%nat
    else Z.to_nat (nr_objects OBJ (aio_offset a) (aio_length a)) in
  (forall fuel sched c,
     (n <= fuel)%nat ->
     (exists c', vdi_rw_loop OBJ HDR fuel a sched O init c = Some (n, c')) /\
     (exists c', vdi_rw_request OBJ HDR fuel a sched c = Some c')) /\
  (forall k,
     let ls := iter_state OBJ (aio_offset a) (aio_length a) k in
     0 < total ls ->
     len ls = Z.min (total ls) (OBJ - start ls) /\
     0 < len ls /\
     total (loop_next OBJ ls) = total ls - len ls /\
     total (loop_next OBJ ls) < total ls) /\
  (aio_length a = 0 ->
     len init = 0 /\
     forall fuel sched c,
       (1 <= fuel)%nat ->
       vdi_rw_loop OBJ HDR fuel a sched O init c
       = Some (1%nat, rw_iteration HDR a (sched O) init c)).
Proof.
  intros Ho Hl init n.
  assert (Hloop : forall fuel sched c,
            (n <= fuel)%nat ->
            exists c', vdi_rw_loop OBJ HDR fuel a sched O init c = Some (n, c')).
  { intros fuel sched c Hfuel. unfold n in *.
    destruct (aio_length a =? 0) eqn:Hz.
    - apply Z.eqb_eq in Hz. destruct (zero_length_runs_once a Ho Hz) as [_ H].
      eexists. now apply H.
    - apply Z.eqb_neq in Hz.
      destruct (positive_length_runs a sched (fun _ _ => True) ltac:(auto) Ho
                  ltac:(lia) fuel c Hfuel I) as (c' & Hc' & _).
      exists c'. exact Hc'. }
  split; [|split; [|now apply zero_length_runs_once]].
  - intros fuel sched c Hfuel. split; [now apply Hloop|].
    unfold vdi_rw_request. fold init.
    destruct (Hloop fuel sched (uatomic_inc (aio_id a) c) Hfuel) as [c' ->].
    eexists. reflexivity.
  - intros k ls Hpos.
    pose proof (iter_state_inv OBJ obj_size_range (aio_offset a) (aio_length a)
                  k Ho Hl) as Hk.
    fold ls in Hk.
    destruct (loop_next_inv OBJ obj_size_range ls Hk) as (Htot & Hlen & Hp & _).
    destruct Hk as (_ & _ & Hmin).
    specialize (Hp Hpos). repeat split; try assumption; lia.
Qed.

(** C1, as the loop has it.  A logical read or write of positive length
    that touches N data objects gets exactly N sub-requests (one of length
    0 gets one, though it touches none).  The loop holds one reference of
    its own on the counter, so that whatever replies come in while it runs
    the callback does not fire before the loop is over; the reference is
    dropped after the loop, and from then on the counter is the number of
    outstanding sub-requests and the callback has fired exactly once when
    that number is zero and not at all before. *)
Theorem sub_requests_and_completion (a : sheep_aiocb) (c : sd_cluster)
    (sched : nat -> interference) (fuel : nat) :
  0 <= aio_offset a < 2 ^ 64 ->
  0 <= aio_length a < 2 ^ 64 ->
  counter c (aio_id a) = 0 ->
  pending c (aio_id a) = O ->
  fired c (aio_id a) = O ->
  let n :=
    if aio_length a =? 0 then 1%nat
    else Z.to_nat (nr_objects OBJ (aio_offset a) (aio_length a)) in
  (n <= fuel)%nat ->
  exists c1 l,
    vdi_rw_loop OBJ HDR fuel a sched O
      (loop_init OBJ (aio_offset a) (aio_length a)) (uatomic_inc (aio_id a) c)
    = Some (n, c1) /\
    vdi_rw_request OBJ HDR fuel a sched c
    = Some (drop_reference (aio_id a) c1) /\
    log c1 = log c ++ l /\
    length (allocated (aio_id a) l) = n /\
    (0 < aio_length a ->
     Z.of_nat (length (allocated (aio_id a) l))
     = nr_objects OBJ (aio_offset a) (aio_length a)) /\
    (EvDone (aio_id a) ∉ l) /\
    counter c1 (aio_id a) = Z.of_nat (pending c1 (aio_id a)) + 1 /\
    forall ids,
      let c2 := replies HDR ids (drop_reference (aio_id a) c1) in
      counter c2 (aio_id a) = Z.of_nat (pending c2 (aio_id a)) /\
      fired c2 (aio_id a)
      = (if decide (pending c2 (aio_id a) = O) then 1 else 0)%nat.
Proof.
  intros Ho Hl Hc0 Hp0 Hf0 n Hfuel.
  set (aid := aio_id a). set (c0 := uatomic_inc aid c).
  set (init := loop_init OBJ (aio_offset a) (aio_length a)).
  set (P := fun (j : nat) (c' : sd_cluster) =>
              exists l, log c' = log c ++ l /\
                        length (allocated aid l) = j /\
                        counted_running c' aid 1).
  assert (HP0 : P O c0).
  { exists []. split; [now rewrite app_nil_r|]. split; [reflexivity|].
    unfold counted_running, c0.
    rewrite counter_uatomic_inc, decide_True by reflexivity.
    rewrite pending_uatomic_inc, fired_uatomic_inc. fold aid in Hc0, Hp0, Hf0.
    rewrite Hc0, Hp0, Hf0. split; reflexivity. }
  assert (Hstep : forall j ls c', P j c' ->
                    P (S j) (rw_iteration HDR a (sched j) ls c')).
  { intros j ls c' (l & Hlog & Hlen & Hrun).
    destruct (iteration_log HDR a (sched j) ls c')
      as (r & l' & Hlog' & Hno & Hr & _).
    exists (l ++ EvAlloc r :: l'). split; [|split].
    - rewrite Hlog', Hlog. now rewrite <- app_assoc.
    - rewrite allocated_app, length_app, Hlen. simpl.
      fold aid in Hr. rewrite decide_True by assumption.
      fold (allocated aid l'). rewrite Hno. simpl. lia.
    - now apply iteration_counted_running. }
  assert (Hloop : exists c1, vdi_rw_loop OBJ HDR fuel a sched O init c0
                             = Some (n, c1) /\ P n c1).
  { unfold n in *. destruct (aio_length a =? 0) eqn:Hz.
    - apply Z.eqb_eq in Hz.
      destruct (zero_length_runs_once a Ho Hz) as [_ H]. fold init in H.
      rewrite (H fuel sched c0 Hfuel). eexists. split; [reflexivity|].
      now apply Hstep.
    - apply Z.eqb_neq in Hz.
      exact (positive_length_runs a sched P Hstep Ho ltac:(lia) fuel c0 Hfuel
               HP0). }
  destruct Hloop as (c1 & Hrun & l & Hlog & Hlen & Hcnt & Hfired).
  exists c1, l. split; [exact Hrun|]. split.
  { unfold vdi_rw_request. fold init. fold aid. fold c0. now rewrite Hrun. }
  split; [exact Hlog|]. split; [exact Hlen|]. split.
  { intros Hpos. rewrite Hlen. unfold n.
    rewrite (proj2 (Z.eqb_neq _ _)) by lia.
    pose proof (nr_objects_pos OBJ obj_size_range (aio_offset a)
                  (aio_length a) ltac:(lia) Hpos).
    lia. }
  split.
  { intros Hin. unfold fired in Hfired. rewrite Hlog, filter_app, length_app in Hfired.
    assert (Hin' : EvDone aid ∈ filter (fun e => e = EvDone aid) l).
    { apply list_elem_of_filter. now split. }
    destruct (filter (fun e => e = EvDone aid) l); [inversion Hin'|].
    simpl in Hfired. lia. }
  split; [exact Hcnt|].
  intros ids. apply replies_counted_after.
  unfold counted_after, drop_reference.
  assert (Hpend : pending (set_nr_requests
                             (<[aid := counter c1 aid - 1]> (nr_requests c1)) c1) aid
                  = pending c1 aid) by reflexivity.
  destruct (counter c1 aid - 1 <=? 0) eqn:Hz.
  - apply Z.leb_le in Hz.
    rewrite counter_emit, pending_emit, fired_emit, counter_insert,
      fired_set_nr_requests, Hpend, !decide_True by reflexivity.
    rewrite decide_True by lia. split; lia.
  - apply Z.leb_gt in Hz.
    rewrite counter_insert, fired_set_nr_requests, Hpend, decide_True
      by reflexivity.
    rewrite decide_False by lia. split; lia.
Qed.

End Splitting.

(** ** The properties at sample inputs *)

(** C1 as stated fails for a request of length 0: it touches no object,
    and still one sub-request is allocated for it (and ended, and the
    callback fires). *)
Lemma zero_length_request_gets_one_sub_request :
  nr_objects 4194304 (aio_offset read_nothing) (aio_length read_nothing) = 0 /\
  (fun c => allocated 3 (log c))
    <$> vdi_rw_request 4194304 4616 1 read_nothing no_schedule cluster0
  = Some [mk_sheep_request 0 0 (vid_to_data_oid 7 0) 0 3 None 1 VDI_READ].
Proof. split; vm_compute; reflexivity. Qed.

Lemma sub_requests_and_completion_witness :
  exists c1 l,
    vdi_rw_request 4194304 4616 4 read_four no_schedule cluster0
    = Some (drop_reference 1 c1) /\
    log c1 = log cluster0 ++ l /\
    Z.of_nat (length (allocated 1 l)) = nr_objects 4194304 100 (3 * 4194304) /\
    nr_objects 4194304 100 (3 * 4194304) = 4 /\
    (EvDone 1 ∉ l) /\
    fired (drop_reference 1 c1) 1 = O /\
    fired (replies 4616 [2; 3] (drop_reference 1 c1)) 1 = 1%nat.
Proof.
  destruct (sub_requests_and_completion 4194304 4616 ltac:(lia) read_four
              cluster0 no_schedule 4)
    as (c1 & l & H1 & H2 & H3 & _ & H5 & H6 & _ & H8);
    try reflexivity; try (simpl; lia).
  exists c1, l. split; [exact H2|]. split; [exact H3|].
  split; [apply H5; reflexivity|]. split; [reflexivity|]. split; [exact H6|].
  pose proof (proj2 (H8 [])) as Hnow. pose proof (proj2 (H8 [2; 3])) as Hlater.
  cbv zeta in Hnow, Hlater. change (aio_id read_four) with 1%nat in Hnow, Hlater.
  change (replies 4616 [] (drop_reference 1 c1))
    with (drop_reference 1 c1) in Hnow.
  rewrite Hnow, Hlater.
  vm_compute in H1. injection H1 as <-.
  split; vm_compute; reflexivity.
Defined.

Lemma splitting_loop_terminates_witness :
  exists c',
    vdi_rw_loop 4194304 4616 4 read_four no_schedule O
      (loop_init 4194304 100 (3 * 4194304)) cluster0
    = Some (4%nat, c').
Proof.
  destruct (splitting_loop_terminates 4194304 4616 ltac:(lia) read_four)
    as (H & _); try (simpl; lia).
  destruct (H 4%nat no_schedule cluster0) as [Hloop _]; [vm_compute; lia|].
  exact Hloop.
Defined.

Lemma read_unallocated_short_circuits_witness :
  inflight_list (rw_iteration 4616 read_four no_interference first_ten cluster0)
  = inflight_list cluster0 /\
  submitted (drop (length (log cluster0))
               (log (rw_iteration 4616 read_four no_interference first_ten
                       cluster0))) = [] /\
  inflight_list (rw_iteration 4616 read_four no_interference ten_on_inherited
                   cluster0)
  = [mk_sheep_request 0 10 (vid_to_data_oid 5 1) 0 1 None 1 VDI_READ].
Proof.
  destruct (read_unallocated_short_circuits 4616 read_four no_interference
              first_ten cluster0 eq_refl) as [H0 _].
  destruct (H0 eq_refl) as (_ & _ & H3 & _ & H5).
  destruct (read_unallocated_short_circuits 4616 read_four no_interference
              ten_on_inherited cluster0 eq_refl) as [_ H1].
  destruct (H1 ltac:(discriminate) ltac:(discriminate)) as (_ & H6 & _).
  split; [exact H3|]. split; [exact H5|]. exact H6.
Defined.

Lemma create_race_guard_witness :
  is_Some (find_inflight_request_oid cluster_second_allocated (oid sub_b)) /\
  blocking_list
    (rw_dispatch 4616 no_interference first_ten 0 sub_b cluster_second_allocated)
  = blocking_list cluster_second_allocated ++ [sub_b] /\
  inflight_list
    (rw_dispatch 4616 no_interference first_ten 0 sub_b cluster_second_allocated)
  = [set_opcode VDI_CREATE sub_a].
Proof.
  assert (Hf : is_Some (find_inflight_request_oid cluster_second_allocated
                          (oid sub_b))).
  { exists (set_opcode VDI_CREATE sub_a). reflexivity. }
  split; [exact Hf|].
  destruct (create_race_guard 4616 no_interference first_ten 0 0 sub_a sub_b
              eq_refl eq_refl eq_refl (or_introl eq_refl) (or_introl eq_refl))
    as (_ & HB & _).
  destruct (HB cluster_second_allocated Hf) as (_ & Hblocked & _).
  destruct Hblocked as (H1 & H2 & _).
  { intros [Hne _]. apply Hne. reflexivity. }
  split; [exact H1|exact H2].
Defined.

(** The re-check under the blocking lock at work.  When the create
    completes between the inflight check of the second sub-request and
    its taking the blocking lock, the create was in flight when the
    second one consulted the inflight index, and the second is not
    appended to the blocking queue but submitted at once, as a plain
    write, after the write of the index slot. *)
Lemma recheck_submits_without_queueing :
  find_inflight_request_oid cluster_second_allocated (oid sub_b)
  = Some (set_opcode VDI_CREATE sub_a) /\
  blocking_list cluster_rechecked = [] /\
  (EvBlocked sub_b ∉ log cluster_rechecked) /\
  submitted (drop (length (log cluster_creating)) (log cluster_rechecked))
  = [slot_write; sub_b].
Proof.
  split; [reflexivity|]. split; [vm_compute; reflexivity|].
  split; [|vm_compute; reflexivity].
  apply (bool_decide_unpack _). vm_compute. reflexivity.
Qed.

(** The two sub-requests handled one after the other with the create
    still in flight, then the replies to the create, to the write of the
    index slot and to the resubmitted write: one create, the write
    resubmitted after the index entry is stored, and both callbacks fired,
    once each. *)
Example create_race_run :
  blocking_list cluster_queued = [sub_b] /\
  submitted (log cluster_queued) = [set_opcode VDI_CREATE sub_a] /\
  drop (length (log cluster_queued)) (log cluster_settled)
  = [EvWriteLock vdi_lock; EvInodeSet 0 7; EvUnlock vdi_lock;
     EvSubmit slot_write;
     EvWriteLock blocking_lock; EvSubmit sub_b; EvUnlock blocking_lock;
     EvEnd (set_opcode VDI_CREATE sub_a);
     EvEnd slot_write; EvDone 1;
     EvEnd sub_b; EvDone 2] /\
  inflight_list cluster_settled = [] /\ blocking_list cluster_settled = [] /\
  fired cluster_settled 1 = 1%nat /\ fired cluster_settled 2 = 1%nat.
Proof. repeat split; vm_compute; reflexivity. Qed.

(** C3: the guard starts at the inflight check, and the claim fails before
    it.  [write_a] has issued the create of object 0 and [write_b] runs on
    the same object, which is still not created when it reads the index
    entry.  The reply to the create is handled after [write_b] has read
    the entry and allocated its sub-request, and before it consults the
    inflight index: the entry it holds is stale, nothing is in flight on
    the object any more, the index entry is not read again, and the
    sub-request is submitted as a second create on the object the first
    create has made, without being queued. *)
Example stale_entry_second_create :
  filter (fun r => opcode r = VDI_CREATE) (submitted (log cluster_stale))
  = [set_opcode VDI_CREATE sub_a; set_opcode VDI_CREATE sub_b] /\
  exists c1 c2,
    vdi_rw_request 4194304 4616 1 write_a no_schedule cluster0 = Some c1 /\
    vdi_rw_request 4194304 4616 1 write_b (fun _ => mk_interference [1] [] [])
      c1 = Some c2 /\
    sheep_inode_get_vid c1 0 = 0 /\
    inflight_list c1 = [set_opcode VDI_CREATE sub_a] /\
    oid sub_a = oid sub_b /\
    drop (length (log c1)) (log c2)
    = [EvAlloc sub_b;
       EvWriteLock vdi_lock; EvInodeSet 0 7; EvUnlock vdi_lock;
       EvSubmit slot_write;
       EvWriteLock blocking_lock; EvUnlock blocking_lock;
       EvEnd (set_opcode VDI_CREATE sub_a);
       EvSubmit (set_opcode VDI_CREATE sub_b)] /\
    submitted (log c2)
    = [set_opcode VDI_CREATE sub_a; slot_write; set_opcode VDI_CREATE sub_b] /\
    blocking_list c2 = [].
Proof.
  split; [vm_compute; reflexivity|].
  eexists. eexists. split; [reflexivity|]. split; [reflexivity|].
  repeat split; vm_compute; reflexivity.
Qed.

End VdiProps.

(** * Properties of the further handlers of [sheep/ops.c] *)

Module HandlersProps.
Import Ops Handlers.
Import OpsProps VdiProps.

(** ** The operation table *)

(** X1: Every operation the table defines is of exactly one of the five kinds.
    The null, peer and gateway operations, which are run through their
    work handler alone, have one and have no main handler; a cluster or
    local operation has at least one of the two.  An opcode the table does
    not define is of no kind and has no handler. *)
Theorem handlers_match_kind (HAVE_NFS : bool) (opcode : sd_opcode) :
  let op := get_sd_op HAVE_NFS opcode in
  let kinds :=
    [is_null_op op; is_cluster_op op; is_local_op op; is_peer_op op;
     is_gateway_op op] in
  length (filter (fun b => b = true) kinds) = (match op with Some _ => 1 | None => 0 end)%nat /\
  ((is_null_op op || is_peer_op op || is_gateway_op op) = true ->
     has_process_work op = true /\ has_process_main op = false) /\
  ((is_cluster_op op || is_local_op op) = true ->
     (has_process_work op || has_process_main op) = true) /\
  (op = None -> has_process_work op = false /\ has_process_main op = false).
Proof.
  destruct HAVE_NFS, opcode; vm_compute; intuition congruence.
Qed.

(** X2: [gateway_to_peer_opcode] sends every gateway operation but
    [UNREF_OBJ] to a peer operation, no two to the same one, and every peer
    operation of the table is reached; it maps nothing else. *)
Theorem gateway_ops_map_to_peer_ops (HAVE_NFS : bool) :
  (forall o p,
     gateway_to_peer_opcode o = Some p ->
     is_gateway_op (get_sd_op HAVE_NFS o) = true /\
     is_peer_op (get_sd_op HAVE_NFS p) = true) /\
  (forall o,
     is_gateway_op (get_sd_op HAVE_NFS o) = true ->
     o <> SD_OP_UNREF_OBJ -> is_Some (gateway_to_peer_opcode o)) /\
  (forall p,
     is_peer_op (get_sd_op HAVE_NFS p) = true ->
     exists o, gateway_to_peer_opcode o = Some p) /\
  (forall o o' p,
     gateway_to_peer_opcode o = Some p -> gateway_to_peer_opcode o' = Some p ->
     o = o') /\
  is_gateway_op (get_sd_op HAVE_NFS SD_OP_UNREF_OBJ) = true /\
  gateway_to_peer_opcode SD_OP_UNREF_OBJ = None.
Proof.
  split; [|split; [|split; [|split; [|split]]]].
  - intros o p Ho.
    destruct o; try discriminate Ho; injection Ho as <-;
      destruct HAVE_NFS; split; reflexivity.
  - intros o Hg Hne.
    destruct o; try (destruct HAVE_NFS; discriminate Hg);
      try (eexists; reflexivity); congruence.
  - intros p Hp.
    destruct p; try (destruct HAVE_NFS; discriminate Hp).
    + exists SD_OP_CREATE_AND_WRITE_OBJ. reflexivity.
    + exists SD_OP_READ_OBJ. reflexivity.
    + exists SD_OP_WRITE_OBJ. reflexivity.
    + exists SD_OP_REMOVE_OBJ. reflexivity.
  - intros o o' p Ho Ho'.
    destruct o; try discriminate Ho; injection Ho as <-;
      destruct o'; try discriminate Ho'; reflexivity.
  - destruct HAVE_NFS; reflexivity.
  - reflexivity.
Qed.

(** ** Looking objects up in the local store *)

Section Exist.

Variable SD_MAX_COPIES : Z.
Variable local_ec_index : Z -> Z.
Variable is_erasure_oid : Z -> bool.
Variable exist : Z -> Z -> bool.

Local Abbreviation miss :=
  (reported_missing SD_MAX_COPIES local_ec_index is_erasure_oid exist).
Local Abbreviation loop :=
  (oids_exist_loop SD_MAX_COPIES local_ec_index is_erasure_oid exist).
Local Abbreviation missing l := (filter (fun o => miss o = true) l).

(** The loop keeps, in the first [j] slots, the ids among the first [i]
    that are reported missing, and leaves the slots from [j] on as they
    were; as [j] never passes [i], the slot it reads is one it has not
    written. *)
Lemma oids_exist_loop_spec (orig : list Z) (k : nat) :
  forall i j oids,
    length oids = length orig -> (j <= i)%nat -> (i + k <= length orig)%nat ->
    take j oids = missing (take i orig) ->
    drop j oids = drop j orig ->
    exists j' oids',
      loop k i j oids = Some (j', oids') /\
      length oids' = length orig /\
      (j' <= i + k)%nat /\
      take j' oids' = missing (take (i + k) orig) /\
      drop j' oids' = drop j' orig.
Proof.
  induction k as [|k IH]; intros i j oids Hlen Hji Hik Htake Hdrop.
  - exists j, oids. rewrite Nat.add_0_r. repeat split; auto.
  - assert (Hi : (i < length orig)%nat) by lia.
    destruct (lookup_lt_is_Some_2 orig i Hi) as [o Ho].
    assert (Hoi : oids !! i = Some o).
    { replace i with (j + (i - j))%nat by lia.
      rewrite <- lookup_drop, Hdrop, lookup_drop.
      replace (j + (i - j))%nat with i by lia. exact Ho. }
    assert (Hstep : take (S i) orig = take i orig ++ [o]).
    { now apply take_S_r. }
    assert (Hkeep : miss o = true ->
              exists j' oids',
                loop k (S i) (S j) (<[j := o]> oids) = Some (j', oids') /\
                length oids' = length orig /\
                (j' <= S i + k)%nat /\
                take j' oids' = missing (take (S i + k) orig) /\
                drop j' oids' = drop j' orig).
    { intros Hm. apply IH; try lia.
      - now rewrite length_insert.
      - assert (Hj : (j < length oids)%nat) by lia.
        rewrite Hstep, filter_app, <- Htake.
        rewrite (filter_cons_True _ o []) by exact Hm. rewrite filter_nil.
        destruct (lookup_lt_is_Some_2 oids j Hj) as [x Hx].
        rewrite (take_S_r _ _ o) by (rewrite list_lookup_insert_eq; auto).
        now rewrite take_insert_ge by lia.
      - rewrite drop_insert_lt by lia.
        replace (S j) with (j + 1)%nat by lia.
        rewrite <- !drop_drop, Hdrop. reflexivity. }
    simpl. rewrite Hoi. replace (i + S k)%nat with (S i + k)%nat by lia.
    unfold reported_missing in Hkeep.
    destruct (is_erasure_oid o && (wrap8 (local_ec_index o) =? SD_MAX_COPIES))
      eqn:Hec; [now apply Hkeep|].
    destruct (exist o (wrap8 (local_ec_index o))) eqn:Hex;
      [|now apply Hkeep].
    simpl. apply IH; try lia; try assumption.
    rewrite Hstep, filter_app, <- Htake.
    rewrite (filter_cons_False _ o []), filter_nil, app_nil_r; [reflexivity|].
    unfold reported_missing. rewrite Hec, Hex. discriminate.
Qed.

(** What [local_oids_exist] returns on a buffer that holds the
    [data_length] bytes the request announces. *)
Lemma oids_exist_run (data_length rsp_data_length : Z) (oids : list Z) :
  0 <= data_length < 2 ^ 32 ->
  data_length / 8 <= Z.of_nat (length oids) ->
  let gone := missing (take (Z.to_nat (data_length / 8)) oids) in
  local_oids_exist SD_MAX_COPIES local_ec_index is_erasure_oid exist
    data_length rsp_data_length oids
  = Some (if decide (gone = []) then SD_RES_SUCCESS else SD_RES_NO_OBJ,
          if decide (gone = []) then rsp_data_length
          else 8 * Z.of_nat (length gone),
          gone ++ drop (length gone) oids).
Proof.
  intros Hd Hn gone. unfold local_oids_exist.
  assert (Hq : 0 <= data_length / 8 < 2 ^ 29).
  { split; [apply Z.div_pos; lia|]. apply Z.div_lt_upper_bound; lia. }
  rewrite to_int_small by lia.
  destruct (oids_exist_loop_spec oids (Z.to_nat (data_length / 8)) 0 0 oids)
    as (j & oids' & Hrun & Hlen & Hjn & Htake & Hdrop);
    try reflexivity; try lia.
  simpl in Htake, Hjn. fold gone in Htake. rewrite Hrun.
  assert (Hj : j = length gone).
  { rewrite <- Htake, length_take. lia. }
  assert (Hoids : oids' = gone ++ drop (length gone) oids).
  { rewrite <- (take_drop j oids'), Htake, Hdrop, Hj. reflexivity. }
  assert (Hle : (length gone <= Z.to_nat (data_length / 8))%nat).
  { unfold gone. etransitivity; [apply length_filter|].
    rewrite length_take. lia. }
  rewrite <- Hoids. destruct (decide (gone = [])) as [He|Hne].
  - rewrite Hj, He. reflexivity.
  - assert (0 < Z.of_nat j).
    { rewrite Hj. destruct gone; [congruence|simpl; lia]. }
    rewrite (proj2 (Z.ltb_lt _ _)) by assumption.
    rewrite wrap32_small by lia. rewrite Hj. reflexivity.
Qed.

Lemma oid_exist_reported (s : system) (o : Z) :
  nr_vnodes (this_node s) <> 0 ->
  local_oid_exist SD_MAX_COPIES local_ec_index is_erasure_oid exist s o
  = if miss o then SD_RES_NO_OBJ else SD_RES_SUCCESS.
Proof.
  intros Hv. unfold local_oid_exist, reported_missing.
  rewrite (proj2 (Z.eqb_neq _ _) Hv).
  destruct (is_erasure_oid o && _); [reflexivity|].
  destruct (exist o _); reflexivity.
Qed.

(** X3: [local_oids_exist] compacts the buffer in place.  On a buffer that
    holds the [data_length / 8] object ids the request announces it
    returns; the ids it reports missing (those of an erasure-coded object
    without a local strip, and those the store does not have) end up at
    the head of the buffer, in their order, and the rest of the buffer is
    as it was.  It returns [NO_OBJ] with the response length set to 8
    bytes per missing id when there is one, and success with the response
    length and the buffer untouched when there is none. *)
Theorem oids_exist_compacts (data_length rsp_data_length : Z) (oids : list Z) :
  0 <= data_length < 2 ^ 32 ->
  data_length / 8 <= Z.of_nat (length oids) ->
  let gone := missing (take (Z.to_nat (data_length / 8)) oids) in
  exists ret len oids',
    local_oids_exist SD_MAX_COPIES local_ec_index is_erasure_oid exist
      data_length rsp_data_length oids = Some (ret, len, oids') /\
    length oids' = length oids /\
    take (length gone) oids' = gone /\
    drop (length gone) oids' = drop (length gone) oids /\
    (gone = [] ->
       ret = SD_RES_SUCCESS /\ len = rsp_data_length /\ oids' = oids) /\
    (gone <> [] ->
       ret = SD_RES_NO_OBJ /\ len = 8 * Z.of_nat (length gone) /\
       len <= data_length).
Proof.
  intros Hd Hn gone.
  pose proof (oids_exist_run data_length rsp_data_length oids Hd Hn) as Hrun.
  cbv zeta in Hrun. fold gone in Hrun.
  assert (Hle : (length gone <= Z.to_nat (data_length / 8))%nat).
  { unfold gone. etransitivity; [apply length_filter|].
    rewrite length_take. lia. }
  assert (Hq : 0 <= data_length / 8) by (apply Z.div_pos; lia).
  assert (Hlen : (length gone <= length oids)%nat) by lia.
  do 3 eexists. split; [exact Hrun|].
  split; [rewrite length_app, length_drop; lia|].
  split; [now rewrite take_app_length|].
  split; [now rewrite drop_app_length|].
  split.
  - intros He. destruct (decide (gone = [])); [|contradiction].
    rewrite He. auto.
  - intros Hne. destruct (decide (gone = [])); [contradiction|].
    repeat split.
    pose proof (Z.mul_div_le data_length 8 ltac:(lia)). lia.
Qed.

(** X4: On a node that has virtual nodes the batch test agrees with the
    single one: [local_oids_exist] succeeds exactly when [local_oid_exist]
    succeeds on each of the ids, and the ids it leaves at the head of the
    buffer are those on which [local_oid_exist] returns [NO_OBJ].  On a
    node without virtual nodes [local_oid_exist] returns [NO_OBJ]
    whatever the store holds. *)
Theorem oids_exist_agrees_with_oid_exist (s : system)
    (data_length rsp_data_length : Z) (oids : list Z) :
  0 <= data_length < 2 ^ 32 ->
  data_length / 8 <= Z.of_nat (length oids) ->
  let asked := take (Z.to_nat (data_length / 8)) oids in
  let single :=
    local_oid_exist SD_MAX_COPIES local_ec_index is_erasure_oid exist s in
  (nr_vnodes (this_node s) <> 0 ->
   exists ret len oids',
     local_oids_exist SD_MAX_COPIES local_ec_index is_erasure_oid exist
       data_length rsp_data_length oids = Some (ret, len, oids') /\
     (ret = SD_RES_SUCCESS <-> Forall (fun o => single o = SD_RES_SUCCESS) asked) /\
     exists j,
       take j oids' = filter (fun o => single o = SD_RES_NO_OBJ) asked) /\
  (nr_vnodes (this_node s) = 0 -> forall o, single o = SD_RES_NO_OBJ).
Proof.
  intros Hd Hn asked single. split.
  - intros Hv.
    pose proof (oids_exist_run data_length rsp_data_length oids Hd Hn) as Hrun.
    cbv zeta in Hrun. fold asked in Hrun.
    assert (Hsame : filter (fun o => single o = SD_RES_NO_OBJ) asked
                    = missing asked).
    { apply list_filter_iff. intros o. unfold single.
      rewrite oid_exist_reported by exact Hv.
      destruct (miss o); split; congruence. }
    do 3 eexists. split; [exact Hrun|]. split.
    + rewrite Forall_forall. split.
      * intros Hret o Ho.
        destruct (decide (missing asked = [])) as [He|]; [|discriminate Hret].
        unfold single. rewrite oid_exist_reported by exact Hv.
        destruct (miss o) eqn:Hm; [|reflexivity].
        assert (Hin : o ∈ missing asked).
        { apply list_elem_of_filter. auto. }
        rewrite He in Hin. inversion Hin.
      * intros Hall. destruct (decide (missing asked = [])) as [|Hne];
          [reflexivity|]. exfalso. apply Hne.
        destruct (missing asked) as [|o rest] eqn:He; [reflexivity|].
        assert (Hin : o ∈ missing asked) by (rewrite He; left).
        apply list_elem_of_filter in Hin. destruct Hin as [Hm Hin].
        specialize (Hall o Hin). unfold single in Hall.
        rewrite oid_exist_reported, Hm in Hall by exact Hv. discriminate Hall.
    + exists (length (missing asked)). rewrite Hsame. now rewrite take_app_length.
  - intros Hz o. unfold single, local_oid_exist. rewrite Hz. reflexivity.
Qed.

End Exist.

(** ** Cluster status *)

Section StatCluster.

Variable sizeof_epoch_log : Z.
Variable sizeof_sd_node : Z.
Variable STORE_LEN : Z.
Variable pstrcpy : Z -> string -> string.
Variable epoch_log_read_with_timestamp : Z -> Z -> read_out -> sd_result * read_out.
Variable epoch_log_read_remote :
  Z -> Z -> vnode_info -> read_out -> sd_result * read_out.

Hypothesis sizeof_epoch_log_range : 2 <= sizeof_epoch_log < 2 ^ 32.
Hypothesis sizeof_sd_node_range : 0 <= sizeof_sd_node < 2 ^ 31.

Local Abbreviation loop :=
  (stat_cluster_loop sizeof_epoch_log sizeof_sd_node STORE_LEN pstrcpy
     epoch_log_read_with_timestamp epoch_log_read_remote).
Local Abbreviation stat_cluster :=
  (local_stat_cluster sizeof_epoch_log sizeof_sd_node STORE_LEN pstrcpy
     epoch_log_read_with_timestamp epoch_log_read_remote).
Local Abbreviation esz nodes_nr := (sizeof_epoch_log + nodes_nr * sizeof_sd_node).
Local Abbreviation descending epoch n :=
  (map (fun t => epoch - Z.of_nat t) (seq 0 n)).
Local Abbreviation own_parameters s :=
  (cinfo_ctime s, cinfo_nr_copies s, cinfo_copy_policy s, cinfo_flags s,
   pstrcpy STORE_LEN (cinfo_store s)).

Lemma descending_S epoch n :
  descending epoch (S n) = epoch :: descending (epoch - 1) n.
Proof.
  simpl. f_equal; [lia|]. rewrite <- fmap_S_seq, <- list_fmap_compose.
  apply list_fmap_ext. intros _ t _. simpl. lia.
Qed.

Lemma stat_cluster_loop_spec (s : system) (vi : vnode_info) (nodes_nr : Z)
    (k : nat) :
  0 <= nodes_nr < 2 ^ 32 ->
  forall i epoch len written,
    0 <= i -> 0 <= epoch < 2 ^ 32 -> 0 <= len ->
    len + esz nodes_nr * Z.of_nat k < 2 ^ 32 ->
    exists r len' extra,
      loop s vi nodes_nr k i epoch len written = (r, len', written ++ extra) /\
      map el_epoch extra = descending epoch (length extra) /\
      (forall n e, extra !! n = Some e ->
         elog_parameters e
         = if i + Z.of_nat n =? 0 then own_parameters s else (0, 0, 0, 0, "")) /\
      (r = None ->
         Z.of_nat (length extra) = Z.min (Z.of_nat k) epoch /\
         len' = len + esz nodes_nr * Z.of_nat (length extra)) /\
      (forall ret, r = Some ret ->
         ret = Res SD_RES_BUFFER_SMALL /\ 0 < nodes_nr /\
         1 <= Z.of_nat (length extra) <= Z.min (Z.of_nat k) epoch /\
         len' = len + esz nodes_nr * (Z.of_nat (length extra) - 1)).
Proof.
  intros Hnr. induction k as [|k IH]; intros i epoch len written Hi He Hl Hfit.
  - exists None, len, []. rewrite app_nil_r. simpl. repeat split; try lia.
    all: try discriminate.
  - cbn [stat_cluster_loop].
    destruct (epoch <=? 0) eqn:Hep.
    { apply Z.leb_le in Hep. exists None, len, []. rewrite app_nil_r. simpl.
      repeat split; try lia; try discriminate. }
    apply Z.leb_gt in Hep.
    assert (Hlen : wrap64 (nodes_nr * sizeof_sd_node) = nodes_nr * sizeof_sd_node).
    { apply wrap64_small. nia. }
    assert (Hsize : wrap64 (sizeof_epoch_log + wrap64 (nodes_nr * sizeof_sd_node))
                    = esz nodes_nr).
    { rewrite Hlen. apply wrap64_small. nia. }
    assert (Hesz : 0 < esz nodes_nr) by nia.
    rewrite Hsize, Hlen. rewrite (wrap32_small (epoch - 1)) by lia.
    rewrite (wrap32_small (len + esz nodes_nr)) by nia.
    assert (Hcont : forall out nr,
              exists r len' extra,
                loop s vi nodes_nr k (i + 1) (epoch - 1) (len + esz nodes_nr)
                  (written ++
                   [elog_entry (elog_header STORE_LEN pstrcpy s i) epoch out nr])
                = (r, len', written ++ extra) /\
                map el_epoch extra = descending epoch (length extra) /\
                (forall n e, extra !! n = Some e ->
                   elog_parameters e
                   = if i + Z.of_nat n =? 0 then own_parameters s
                     else (0, 0, 0, 0, "")) /\
                (r = None ->
                   Z.of_nat (length extra) = Z.min (Z.of_nat (S k)) epoch /\
                   len' = len + esz nodes_nr * Z.of_nat (length extra)) /\
                (forall ret, r = Some ret ->
                   ret = Res SD_RES_BUFFER_SMALL /\ 0 < nodes_nr /\
                   1 <= Z.of_nat (length extra) <= Z.min (Z.of_nat (S k)) epoch /\
                   len' = len + esz nodes_nr * (Z.of_nat (length extra) - 1))).
    { intros out nr.
      destruct (IH (i + 1) (epoch - 1) (len + esz nodes_nr)
                  (written ++
                   [elog_entry (elog_header STORE_LEN pstrcpy s i) epoch out nr]))
        as (r & len' & extra & Hrun & Hep' & Hpar & Hnone & Hsome);
        try lia; try nia.
      exists r, len', (elog_entry (elog_header STORE_LEN pstrcpy s i) epoch out nr
                       :: extra).
      split; [rewrite Hrun, <- app_assoc; reflexivity|].
      split; [cbn [length]; rewrite descending_S; cbn [map]; now rewrite Hep'|].
      split.
      { intros [|n] e Hn.
        - injection Hn as <-. rewrite Z.add_0_r. unfold elog_header.
          destruct (i =? 0); reflexivity.
        - rewrite (Hpar n e Hn).
          replace (i + 1 + Z.of_nat n) with (i + Z.of_nat (S n)) by lia.
          reflexivity. }
      split.
      { intros Hr. destruct (Hnone Hr) as [H1 H2]. simpl length. split; nia. }
      intros ret Hr. destruct (Hsome ret Hr) as (H1 & H2 & H3 & H4).
      simpl length. repeat split; try assumption; nia. }
    destruct (0 <? nodes_nr) eqn:Hn0; [|apply Hcont].
    apply Z.ltb_lt in Hn0.
    destruct (read_nodes _ _ _ _ _) as [ret out].
    destruct (decide (ret = Res SD_RES_BUFFER_SMALL)) as [Hbs|]; [|apply Hcont].
    exists (Some ret), len,
      [elog_entry (elog_header STORE_LEN pstrcpy s i) epoch out 0].
    split; [reflexivity|]. split; [simpl; f_equal; lia|].
    split.
    { intros [|n] e Hn; [|inversion Hn].
      injection Hn as <-. rewrite Z.add_0_r. unfold elog_header.
      destruct (i =? 0); reflexivity. }
    split; [discriminate|].
    intros ret' [= <-]. simpl length. repeat split; try assumption; lia.
Qed.


Lemma status_result_cases (s : system) :
  status_result s <> Res SD_RES_BUFFER_SMALL.
Proof.
  unfold status_result.
  destruct (cinfo_status s); try discriminate.
  destruct (cinfo_ctime s =? 0); discriminate.
Qed.

(** What [local_stat_cluster] returns when the request comes with a
    membership view. *)
Lemma stat_cluster_run (latest_epoch : Z) (s : system)
    (data_length nodes_nr : Z) (vi : vnode_info) (len0 : Z) :
  0 <= latest_epoch < 2 ^ 32 -> 0 <= data_length < 2 ^ 32 ->
  0 <= nodes_nr < 2 ^ 32 -> 0 <= len0 ->
  len0 + data_length < 2 ^ 32 ->
  exists r len written,
    loop s vi nodes_nr (Z.to_nat (data_length / esz nodes_nr)) 0 latest_epoch
      len0 [] = (r, len, written) /\
    stat_cluster latest_epoch s data_length nodes_nr (Some vi) len0
    = (match r with Some ret => ret | None => status_result s end, len, written) /\
    map el_epoch written = descending latest_epoch (length written) /\
    (forall n e, written !! n = Some e ->
       elog_parameters e
       = if decide (n = O) then own_parameters s else (0, 0, 0, 0, "")) /\
    (r = None ->
       Z.of_nat (length written)
       = Z.min (data_length / esz nodes_nr) latest_epoch /\
       len = len0 + esz nodes_nr * Z.of_nat (length written)) /\
    (forall ret, r = Some ret ->
       ret = Res SD_RES_BUFFER_SMALL /\ 0 < nodes_nr /\
       1 <= Z.of_nat (length written)
       <= Z.min (data_length / esz nodes_nr) latest_epoch /\
       len = len0 + esz nodes_nr * (Z.of_nat (length written) - 1)).
Proof.
  intros He Hd Hn Hl0 Hfit.
  assert (Hesz : 2 <= esz nodes_nr) by nia.
  assert (Hq : 0 <= data_length / esz nodes_nr < 2 ^ 31).
  { split; [apply Z.div_pos; lia|]. apply Z.div_lt_upper_bound; nia. }
  pose proof (Z.mul_div_le data_length (esz nodes_nr) ltac:(lia)) as Hmul.
  destruct (stat_cluster_loop_spec s vi nodes_nr
              (Z.to_nat (data_length / esz nodes_nr)) Hn 0 latest_epoch len0 [])
    as (r & len & extra & Hrun & Hep & Hpar & Hnone & Hsome); try lia.
  simpl in Hrun. exists r, len, extra. split; [exact Hrun|].
  split.
  { unfold local_stat_cluster.
    rewrite (wrap64_small (nodes_nr * sizeof_sd_node)) by nia.
    rewrite (wrap64_small (esz nodes_nr)) by nia.
    rewrite to_int_small by lia. rewrite Hrun. destruct r; reflexivity. }
  split; [exact Hep|]. split.
  { intros n e Hne. rewrite (Hpar n e Hne).
    destruct n; simpl; [reflexivity|].
    destruct (decide (S n = O)); [lia|].
    destruct (Z.pos (Pos.of_succ_nat n)); reflexivity. }
  split.
  - intros Hr. destruct (Hnone Hr). split; lia.
  - intros ret Hr. destruct (Hsome ret Hr) as (H1 & H2 & H3 & H4).
    repeat split; try assumption; lia.
Qed.

(** X5: [local_stat_cluster] never writes past the end of the request's
    buffer, and lists the epochs backwards from the latest.  With entries
    of [sizeof_epoch_log + nodes_nr * sizeof_sd_node] bytes, the entries it
    writes fit in the [data_length] bytes of the buffer; their epochs are
    the latest, the one before, and so on; only the first carries the
    cluster parameters.  Unless a read of a node list answers
    [BUFFER_SMALL], it writes as many entries as fit, or as there are
    epochs if that is less, sets the response length to their size and
    returns the code of the cluster status; on [BUFFER_SMALL] it returns
    that code at once, the response length covering the entries before
    the one being read. *)
Theorem stat_cluster_fills_buffer (latest_epoch : Z) (s : system)
    (data_length nodes_nr : Z) (vi : vnode_info) :
  0 <= latest_epoch < 2 ^ 32 -> 0 <= data_length < 2 ^ 32 ->
  0 <= nodes_nr < 2 ^ 32 ->
  let size := esz nodes_nr in
  let r := stat_cluster latest_epoch s data_length nodes_nr (Some vi) 0 in
  let ret := r.1.1 in
  let len := r.1.2 in
  let written := r.2 in
  size * Z.of_nat (length written) <= data_length /\
  map el_epoch written = descending latest_epoch (length written) /\
  (forall n e, written !! n = Some e ->
     elog_parameters e
     = if decide (n = O) then own_parameters s else (0, 0, 0, 0, "")) /\
  (ret <> Res SD_RES_BUFFER_SMALL ->
     ret = status_result s /\
     Z.of_nat (length written) = Z.min (data_length / size) latest_epoch /\
     len = size * Z.of_nat (length written)) /\
  (ret = Res SD_RES_BUFFER_SMALL ->
     0 < nodes_nr /\ 1 <= Z.of_nat (length written) /\
     len = size * (Z.of_nat (length written) - 1)).
Proof.
  intros He Hd Hn. cbv zeta.
  assert (Hesz : 2 <= esz nodes_nr) by nia.
  pose proof (Z.mul_div_le data_length (esz nodes_nr) ltac:(lia)) as Hmul.
  destruct (stat_cluster_run latest_epoch s data_length nodes_nr vi 0)
    as (r & len & written & Hloop & Hrun & Hep & Hpar & Hnone & Hsome);
    try lia.
  rewrite Hrun. simpl.
  assert (Hcount : Z.of_nat (length written)
                   <= Z.min (data_length / esz nodes_nr) latest_epoch).
  { destruct r as [ret|].
    - destruct (Hsome ret eq_refl) as (_ & _ & H & _). lia.
    - destruct (Hnone eq_refl). lia. }
  split; [nia|]. split; [exact Hep|]. split; [exact Hpar|].
  destruct r as [ret|].
  - destruct (Hsome ret eq_refl) as (-> & H2 & H3 & H4). split.
    + intros Hne. congruence.
    + intros _. split; [exact H2|]. split; lia.
  - destruct (Hnone eq_refl) as [H1 H2]. split.
    + intros _. split; [reflexivity|]. split; [exact H1|lia].
    + intros Hbs. exfalso. exact (status_result_cases s Hbs).
Qed.

(** The loop returns early on [BUFFER_SMALL] alone, and only when node
    lists are asked for. *)
Lemma stat_cluster_loop_early (s : system) (vi : vnode_info) (nodes_nr : Z)
    (k : nat) :
  forall i epoch len written ret len' written',
    loop s vi nodes_nr k i epoch len written = (Some ret, len', written') ->
    ret = Res SD_RES_BUFFER_SMALL /\ 0 < nodes_nr.
Proof.
  induction k as [|k IH]; intros i epoch len written ret len' written' H;
    [discriminate H|].
  cbn [stat_cluster_loop] in H.
  destruct (epoch <=? 0); [discriminate H|].
  destruct (0 <? nodes_nr) eqn:Hn; [|now apply IH in H].
  apply Z.ltb_lt in Hn.
  destruct (read_nodes _ _ _ _ _) as [ret0 out].
  destruct (decide (ret0 = Res SD_RES_BUFFER_SMALL)) as [->|].
  - injection H as <- _ _. auto.
  - now apply IH in H.
Qed.

Lemma stat_cluster_code (latest_epoch : Z) (s : system)
    (data_length nodes_nr : Z) (vinfo : option vnode_info) (len0 : Z) :
  let ret := (stat_cluster latest_epoch s data_length nodes_nr vinfo len0).1.1 in
  (ret = status_result s \/ ret = Res SD_RES_BUFFER_SMALL) /\
  (vinfo = None \/ nodes_nr <= 0 -> ret = status_result s).
Proof.
  cbv zeta. unfold local_stat_cluster. destruct vinfo as [vi|].
  - destruct (loop _ _ _ _ _ _ _ _) as [[[ret|] len] written] eqn:Hrun; simpl.
    + destruct (stat_cluster_loop_early _ _ _ _ _ _ _ _ _ _ _ Hrun) as [-> Hn].
      split; [now right|]. intros [H|H]; [discriminate H|lia].
    + split; [now left|reflexivity].
  - simpl. split; [now left|reflexivity].
Qed.

Lemma make_fs_success_status (SD_DEFAULT_COPIES sizeof_cinfo_store : Z)
    (env : environment) (req : sd_req_cluster) (data : string) (s : system) :
  (cluster_make_fs SD_DEFAULT_COPIES sizeof_cinfo_store pstrcpy env req data s).1
  = SD_RES_SUCCESS ->
  cinfo_status
    (cluster_make_fs SD_DEFAULT_COPIES sizeof_cinfo_store pstrcpy env req data s).2
  = SD_STATUS_OK.
Proof.
  unfold cluster_make_fs.
  destruct (find_store_driver env data) as [drv|]; [|discriminate].
  destruct (decide (format drv <> SD_RES_SUCCESS)); [simpl; congruence|].
  destruct (decide (init drv <> SD_RES_SUCCESS)); [simpl; congruence|].
  cbv zeta. destruct (inc_and_log_epoch env _) as [ret s'] eqn:Hinc.
  destruct (ret =? 0); [reflexivity|discriminate].
Qed.

(** X6: [local_stat_cluster] reports the status the other handlers leave.
    Unless a read of a node list answers [BUFFER_SMALL], which cannot
    happen when the request comes without a view or asks for no node
    list, it returns success after a successful [cluster_make_fs],
    [SHUTDOWN] after [cluster_shutdown] and [SYSTEM_ERROR] after
    [local_kill_node]; on a node that waits it returns [WAIT_FOR_FORMAT]
    when the cluster has no creation time and [WAIT_FOR_JOIN] when it has
    one. *)
Theorem stat_cluster_reports_status (latest_epoch : Z) (s : system)
    (data_length nodes_nr : Z) (vinfo : option vnode_info) (len0 : Z)
    (SD_DEFAULT_COPIES sizeof_cinfo_store : Z) (env : environment)
    (req : sd_req_cluster) (data : string) (node_in_recovery : bool)
    (set_cluster_shutdown : sd_res) :
  let stat s' :=
    (stat_cluster latest_epoch s' data_length nodes_nr vinfo len0).1.1 in
  let formatted :=
    cluster_make_fs SD_DEFAULT_COPIES sizeof_cinfo_store pstrcpy env req data s in
  let stopped := cluster_shutdown node_in_recovery set_cluster_shutdown s in
  let killed := local_kill_node s in
  (forall s', vinfo = None \/ nodes_nr <= 0 ->
     stat s' <> Res SD_RES_BUFFER_SMALL) /\
  (formatted.1 = SD_RES_SUCCESS ->
     stat formatted.2 <> Res SD_RES_BUFFER_SMALL ->
     stat formatted.2 = Res SD_RES_SUCCESS) /\
  (stopped.1.1 = SD_RES_SUCCESS /\
   (stat stopped.1.2 <> Res SD_RES_BUFFER_SMALL ->
    stat stopped.1.2 = SD_RES_SHUTDOWN)) /\
  (killed.1.1 = SD_RES_SUCCESS /\
   (stat killed.1.2 <> Res SD_RES_BUFFER_SMALL ->
    stat killed.1.2 = Res SD_RES_SYSTEM_ERROR)) /\
  (cinfo_status s = SD_STATUS_WAIT ->
     stat s <> Res SD_RES_BUFFER_SMALL ->
     stat s = if cinfo_ctime s =? 0 then Res SD_RES_WAIT_FOR_FORMAT
              else Res SD_RES_WAIT_FOR_JOIN).
Proof.
  cbv zeta.
  assert (Hcode : forall s',
            (stat_cluster latest_epoch s' data_length nodes_nr vinfo len0).1.1
            <> Res SD_RES_BUFFER_SMALL ->
            (stat_cluster latest_epoch s' data_length nodes_nr vinfo len0).1.1
            = status_result s').
  { intros s' Hne.
    destruct (stat_cluster_code latest_epoch s' data_length nodes_nr vinfo len0)
      as [[H|H] _]; [exact H|contradiction]. }
  split.
  { intros s' Hno.
    destruct (stat_cluster_code latest_epoch s' data_length nodes_nr vinfo len0)
      as [_ H].
    cbv zeta in H. rewrite (H Hno). apply status_result_cases. }
  split.
  { intros Hok Hne. rewrite (Hcode _ Hne). unfold status_result.
    now rewrite (make_fs_success_status _ _ _ _ _ _ Hok). }
  split.
  { split; [unfold cluster_shutdown; destruct node_in_recovery; reflexivity|].
    intros Hne. rewrite (Hcode _ Hne).
    unfold cluster_shutdown. destruct node_in_recovery; reflexivity. }
  split.
  { split; [reflexivity|]. intros Hne. rewrite (Hcode _ Hne). reflexivity. }
  intros Hw Hne. rewrite (Hcode _ Hne). unfold status_result. now rewrite Hw.
Qed.

End StatCluster.

(** ** Cluster format *)

Lemma foldl_remove_epoch (l : list Z) : forall s,
  foldl (fun s i => remove_epoch i s) s l
  = mk_system (cinfo_epoch s) (cinfo_status s) (cinfo_flags s) (cinfo_store s)
      (cinfo_nr_copies s) (cinfo_copy_policy s) (cinfo_ctime s) (cinfo_nodes s)
      (this_node s) (vdi_inuse s) (sd_store s) (current_vnode_info s)
      (trace s ++ map EvRemoveEpoch l).
Proof.
  induction l as [|i l IH]; intros s; simpl.
  - rewrite app_nil_r. now destruct s.
  - rewrite IH. simpl. now rewrite <- app_assoc.
Qed.

(** X7: What [cluster_make_fs] leaves behind.  Without a driver of the name
    it changes nothing.  With one, the driver of the node is replaced and
    the store name becomes what [pstrcpy] leaves of the name in the
    [sizeof(sys->cinfo.store)] bytes of the field, which need not be the
    whole name the driver was found under; both are replaced before
    anything is tried, and stay replaced when [format] or [init] fails,
    the cluster parameters, the bitmap of VDIs in use and the epoch being
    then as they were.  Once both have
    succeeded the parameters are those of the request, the copy count
    being [SD_DEFAULT_COPIES] when the request names none; the
    configuration is saved, the epoch files from 1 to the latest epoch
    are removed in that order, the bitmap of VDIs in use is emptied and
    the epoch log is written for epoch 1; and when that write fails, the
    code then being [EIO], the epoch is 1 all the same and the status is
    as it was. *)
Theorem make_fs_side_effects (SD_DEFAULT_COPIES sizeof_cinfo_store : Z)
    (pstrcpy : Z -> string -> string) (env : environment)
    (req : sd_req_cluster) (data : string) (s : system) :
  let r :=
    cluster_make_fs SD_DEFAULT_COPIES sizeof_cinfo_store pstrcpy env req data s in
  (find_store_driver env data = None -> r = (SD_RES_NO_STORE, s)) /\
  (forall drv, find_store_driver env data = Some drv ->
     cinfo_store r.2 = pstrcpy sizeof_cinfo_store data /\
     sd_store r.2 = Some drv /\
     (format drv <> SD_RES_SUCCESS ->
        r.1 = format drv /\
        trace r.2 = trace s ++ [EvFormat (drv_name drv)]) /\
     (format drv = SD_RES_SUCCESS -> init drv <> SD_RES_SUCCESS ->
        r.1 = init drv /\
        trace r.2 = trace s ++ [EvFormat (drv_name drv); EvInit (drv_name drv)]) /\
     (format drv <> SD_RES_SUCCESS \/ init drv <> SD_RES_SUCCESS ->
        cinfo_nr_copies r.2 = cinfo_nr_copies s /\
        cinfo_copy_policy r.2 = cinfo_copy_policy s /\
        cinfo_flags r.2 = cinfo_flags s /\ cinfo_ctime r.2 = cinfo_ctime s /\
        vdi_inuse r.2 = vdi_inuse s /\ cinfo_epoch r.2 = cinfo_epoch s /\
        cinfo_status r.2 = cinfo_status s) /\
     (format drv = SD_RES_SUCCESS -> init drv = SD_RES_SUCCESS ->
        cinfo_nr_copies r.2
        = (if copies req =? 0 then SD_DEFAULT_COPIES else copies req) /\
        cinfo_copy_policy r.2 = copy_policy req /\
        cinfo_flags r.2 = flags req /\ cinfo_ctime r.2 = ctime req /\
        vdi_inuse r.2 = [] /\ cinfo_epoch r.2 = 1 /\
        trace r.2
        = trace s
          ++ [EvFormat (drv_name drv); EvInit (drv_name drv); EvSetClusterConfig]
          ++ map EvRemoveEpoch (seqZ 1 (get_latest_epoch env))
          ++ [EvCleanVdiState; EvObjlistCacheFormat; EvEpochLog 1] /\
        (update_epoch_log env <> 0 ->
           r.1 = SD_RES_EIO /\ cinfo_status r.2 = cinfo_status s))).
Proof.
  cbv zeta. unfold cluster_make_fs. split.
  - now intros ->.
  - intros drv ->.
    destruct (decide (format drv <> SD_RES_SUCCESS)) as [Hf|Hf].
    { simpl. repeat split; try tauto; try congruence. }
    apply dec_stable in Hf.
    destruct (decide (init drv <> SD_RES_SUCCESS)) as [Hi|Hi].
    { simpl. rewrite <- app_assoc. repeat split; try tauto; try congruence. }
    apply dec_stable in Hi. cbv zeta.
    unfold inc_and_log_epoch. rewrite foldl_remove_epoch.
    destruct (update_epoch_log env =? 0) eqn:Hlog; simpl;
      rewrite <- ?app_assoc; simpl.
    + apply Z.eqb_eq in Hlog.
      repeat split; try tauto; try congruence; try (intros [?|?]; congruence).
    + repeat split; try tauto; try congruence; try (intros [?|?]; congruence).
Qed.

(** ** Forced recovery *)

Lemma node_cmp_antisym a b : node_cmp a b < 0 -> 0 < node_cmp b a.
Proof.
  unfold node_cmp.
  rewrite (Z.compare_antisym (addr (nid a)) (addr (nid b))).
  rewrite (Z.compare_antisym (port (nid a)) (port (nid b))).
  destruct (addr (nid a) ?= addr (nid b)); simpl; try lia.
  destruct (port (nid a) ?= port (nid b)); simpl; lia.
Qed.

(** A node that comes after every entry is inserted at the end. *)
Lemma rb_insert_last l n :
  Forall (fun m => node_cmp m n < 0) l -> rb_insert l n = l ++ [n].
Proof.
  induction 1 as [|m l Hm _ IH]; [reflexivity|]. simpl.
  apply node_cmp_antisym in Hm.
  rewrite (proj2 (Z.eqb_neq _ _)) by lia.
  rewrite (proj2 (Z.ltb_ge _ _)) by lia. now rewrite IH.
Qed.

Lemma ordered_view_app l1 l2 :
  ordered_view (l1 ++ l2) <->
  ordered_view l1 /\ ordered_view l2 /\
  Forall (fun a => Forall (fun b => node_cmp a b < 0) l2) l1.
Proof.
  induction l1 as [|a l1 IH]; simpl.
  - split; [intros H; repeat split; [exact H|constructor]|tauto].
  - rewrite IH, Forall_app, Forall_cons. tauto.
Qed.

(** Inserting the entries of an ordered tree one after the other, as the
    main phase does with the payload, rebuilds the tree. *)
Lemma rb_insert_rebuilds l : forall acc,
  ordered_view (acc ++ l) -> foldl rb_insert acc l = acc ++ l.
Proof.
  induction l as [|n l IH]; intros acc Hord; simpl.
  - now rewrite app_nil_r.
  - assert (Hn : Forall (fun m => node_cmp m n < 0) acc).
    { apply ordered_view_app in Hord as (_ & _ & H).
      eapply Forall_impl; [exact H|]. intros a Ha.
      now apply Forall_cons in Ha as [Ha _]. }
    rewrite rb_insert_last by exact Hn.
    rewrite IH; rewrite <- app_assoc; [reflexivity|exact Hord].
Qed.

(** X8: Forced recovery end to end.  On a node that waits, with the view of
    its epoch at hand, a buffer large enough for the nodes of that
    view and the epoch log writable, the work phase succeeds and puts the
    epoch and the nodes of the view in the response; the main phase, run
    on that response while the epoch has not moved, succeeds, advances
    the epoch by exactly 1, logs it, sets the status to OK and starts the
    recovery from exactly the nodes of the old view. *)
Theorem force_recover_round_trip (sizeof_sd_node : Z) (env : environment)
    (s : system) (req : request) (vi old : vnode_info) :
  0 < sizeof_sd_node ->
  cinfo_status s = SD_STATUS_WAIT ->
  vinfo req = Some vi ->
  get_vnode_info_epoch env (cinfo_epoch s) vi = Some old ->
  ordered_view (nroot old) ->
  nr_nodes old = Z.of_nat (length (nroot old)) ->
  sizeof_sd_node * nr_nodes old <= rq_data_length req ->
  update_epoch_log env = 0 ->
  0 <= cinfo_epoch s -> cinfo_epoch s + 1 < 2 ^ 32 ->
  exists req',
    cluster_force_recover_work sizeof_sd_node env s req = (SD_RES_SUCCESS, req') /\
    rp_epoch req' = cinfo_epoch s /\
    rp_data_length req' = sizeof_sd_node * nr_nodes old /\
    data req' = nroot old /\
    let main :=
      cluster_force_recover_main sizeof_sd_node env (rp_epoch req')
        (rp_data_length req') (data req') s in
    main.1 = Returned SD_RES_SUCCESS /\
    cinfo_epoch main.2 = cinfo_epoch s + 1 /\
    cinfo_status main.2 = SD_STATUS_OK /\
    EvEpochLog (cinfo_epoch s + 1) ∈ trace main.2 /\
    last (trace main.2) = Some (EvStartRecovery (nroot old)).
Proof.
  intros Hsz Hw Hv Hg Hord Hnr Hbuf Hlog He0 He1.
  eexists. split.
  { unfold cluster_force_recover_work. rewrite Hv, Hg.
    destruct (decide (cinfo_status s <> SD_STATUS_WAIT)); [contradiction|].
    rewrite (proj2 (Z.ltb_ge _ _)) by exact Hbuf. reflexivity. }
  cbn [rp_epoch rp_data_length data]. repeat split.
  all: unfold cluster_force_recover_main, inc_and_log_epoch.
  all: rewrite Z.eqb_refl, Hlog; cbn [negb Z.eqb].
  all: rewrite wrap32_small by lia.
  - reflexivity.
  - destruct (is_cluster_formatted env); reflexivity.
  - destruct (is_cluster_formatted env); reflexivity.
  - destruct (is_cluster_formatted env); simpl; set_solver.
  - rewrite Z.mul_comm, Z.div_mul by lia. rewrite Hnr, Nat2Z.id.
    rewrite firstn_all. rewrite (rb_insert_rebuilds (nroot old) []) by exact Hord.
    destruct (is_cluster_formatted env); simpl; now rewrite last_snoc.
Qed.

(** ** Recovery completion in manual mode *)

Section ManualCompletion.

Variable SD_CLUSTER_FLAG_MANUAL : Z.
Variable SD_MAX_NODES : Z.
Variable ec_max_data_strip : Z.

Local Abbreviation handler :=
  (cluster_recovery_completion SD_CLUSTER_FLAG_MANUAL SD_MAX_NODES
     ec_max_data_strip).
Local Abbreviation run :=
  (run_reports SD_CLUSTER_FLAG_MANUAL SD_MAX_NODES ec_max_data_strip).
Local Abbreviation manual s :=
  (Z.land (cinfo_flags s) SD_CLUSTER_FLAG_MANUAL <> 0).
Local Abbreviation view s := (nroot (current_vnode_info s)).

Lemma existsb_recover l :
  existsb (fun t => bool_decide (status (nid t) = NODE_STATUS_RECOVER)) l = false
  <-> all_running l.
Proof.
  unfold all_running. induction l as [|t l IH]; simpl.
  - split; [constructor|reflexivity].
  - rewrite Forall_cons, <- IH, orb_false_iff.
    rewrite bool_decide_eq_false. tauto.
Qed.

Lemma mark_found_running_keys key l :
  map node_key (mark_found_running key l) = map node_key l.
Proof.
  induction l as [|t l IH]; simpl; [reflexivity|].
  destruct (node_cmp key t =? 0); simpl; [reflexivity|now rewrite IH].
Qed.

Lemma all_running_mark key l :
  all_running l -> all_running (mark_found_running key l).
Proof.
  unfold all_running. induction 1 as [|t l Ht Hl IH]; simpl; [constructor|].
  destruct (node_cmp key t =? 0); constructor; try assumption.
  simpl. discriminate.
Qed.

(** The cleanup is due on a report in manual mode: the reporting node is
    in the view, no entry of the view is still recovering once the
    reporter's is marked running, the view has enough zones and the store
    has a cleanup hook. *)
Local Abbreviation cleanup_due node s :=
  (is_Some (rb_search (view s) node) /\
   all_running (mark_found_running node (view s)) /\
   ec_max_data_strip <= nr_zones (current_vnode_info s) /\
   has_cleanup s = true).

(** What one report does in manual mode. *)
Lemma manual_step (epoch : Z) (node : sd_node) (st : recovery_statics)
    (s : system) :
  manual s ->
  exists s',
    handler epoch node st s = Some (SD_RES_SUCCESS, st, s') /\
    (cinfo_epoch s' = cinfo_epoch s /\ cinfo_status s' = cinfo_status s /\
     cinfo_flags s' = cinfo_flags s /\ sd_store s' = sd_store s /\
     nr_zones (current_vnode_info s') = nr_zones (current_vnode_info s)) /\
    cinfo_nodes s'
    = map (fun t => if node_cmp node t =? 0 then set_running t else t)
        (cinfo_nodes s) /\
    view s' = match rb_search (view s) node with
              | Some _ => mark_found_running node (view s)
              | None => view s
              end /\
    (rb_search (view s) node = None ->
       current_vnode_info s' = current_vnode_info s /\
       this_node s' = this_node s) /\
    ((cleanup_due node s /\ trace s' = trace s ++ [EvCleanup]) \/
     (~ cleanup_due node s /\ trace s' = trace s)).
Proof.
  intros Hm. unfold cluster_recovery_completion.
  rewrite (proj2 (Z.eqb_neq _ _) Hm). cbn [negb].
  destruct (rb_search (view s) node) as [n|] eqn:Hfound; cbv beta iota zeta.
  - destruct (existsb _ (mark_found_running node (view s))) eqn:Hex.
    + eexists. split; [reflexivity|]. simpl. repeat split; try congruence.
      right. split; [|reflexivity]. intros (_ & Hall & _).
      apply existsb_recover in Hall. congruence.
    + apply existsb_recover in Hex. unfold maybe_cleanup. cbn [nr_zones].
      destruct (ec_max_data_strip <=? nr_zones (current_vnode_info s)) eqn:Hz.
      * destruct (has_cleanup (set_nodes _ _ _ s)) eqn:Hc.
        -- eexists. split; [reflexivity|]. simpl. repeat split; try congruence.
           left. apply Z.leb_le in Hz. repeat split; eauto.
        -- eexists. split; [reflexivity|]. simpl. repeat split; try congruence.
           right. split; [|reflexivity]. intros (_ & _ & _ & Hc').
           unfold has_cleanup in Hc, Hc'. simpl in Hc. congruence.
      * eexists. split; [reflexivity|]. simpl. repeat split; try congruence.
        right. split; [|reflexivity]. intros (_ & _ & Hz' & _).
        apply Z.leb_gt in Hz. lia.
  - eexists. split; [reflexivity|]. simpl.
    split; [destruct s; repeat split|].
    split; [reflexivity|]. split; [reflexivity|].
    split; [intros _; destruct s; split; reflexivity|].
    right. split; [|reflexivity]. intros ([x Hx] & _). discriminate Hx.
Qed.

(** X9: A recovery-completion report in manual mode.  The handler returns
    success and leaves its accumulator of recovered nodes as it was,
    however many reports came before; it marks the reporter running in
    [sys->cinfo.nodes] and, when the reporter is in the view, in the view.
    It calls the cleanup exactly when the reporter is in the view, no
    entry of the view is recovering any more, the view has at least
    [ec_max_data_strip()] zones and the store has a cleanup hook.  A
    report from a node that is not in the view leaves the view and this
    node as they were and calls no cleanup. *)
Theorem manual_completion_report (epoch : Z) (node : sd_node)
    (st : recovery_statics) (s : system) :
  manual s ->
  exists s',
    handler epoch node st s = Some (SD_RES_SUCCESS, st, s') /\
    cinfo_epoch s' = cinfo_epoch s /\
    cinfo_status s' = cinfo_status s /\
    cinfo_nodes s'
    = map (fun t => if node_cmp node t =? 0 then set_running t else t)
        (cinfo_nodes s) /\
    (is_Some (rb_search (view s) node) ->
       view s' = mark_found_running node (view s)) /\
    (rb_search (view s) node = None ->
       current_vnode_info s' = current_vnode_info s /\
       this_node s' = this_node s /\ trace s' = trace s) /\
    (cleanup_due node s -> trace s' = trace s ++ [EvCleanup]) /\
    (~ cleanup_due node s -> trace s' = trace s).
Proof.
  intros Hm.
  destruct (manual_step epoch node st s Hm)
    as (s' & Hrun & (He & Hs & _) & Hn & Hv & Hnone & Hcl).
  exists s'. split; [exact Hrun|]. split; [exact He|]. split; [exact Hs|].
  split; [exact Hn|]. split.
  { intros [n Hf]. now rewrite Hf in Hv. }
  split.
  { intros Hf. destruct (Hnone Hf) as [H1 H2]. repeat split; try assumption.
    destruct Hcl as [[([x Hx] & _) _]|[_ Ht]]; [congruence|exact Ht]. }
  split.
  - intros Hdue. destruct Hcl as [[_ Ht]|[Hnot _]]; [exact Ht|contradiction].
  - intros Hnot. destruct Hcl as [[Hdue _]|[_ Ht]]; [contradiction|exact Ht].
Qed.

(** X10: In manual mode the cleanup is not limited to once per epoch: when no
    entry of the view is recovering, the view has enough zones and the
    store has a cleanup hook, every further report from a node of the
    view calls the cleanup again. *)
Theorem manual_cleanup_repeats (reports : list (Z * sd_node)) :
  forall (st : recovery_statics) (s : system),
    manual s ->
    all_running (view s) ->
    ec_max_data_strip <= nr_zones (current_vnode_info s) ->
    has_cleanup s = true ->
    Forall (fun r => node_key r.2 ∈ map node_key (view s)) reports ->
    exists s',
      run reports st s = Some (st, s') /\
      cleanups s' = (cleanups s + length reports)%nat.
Proof.
  induction reports as [|[epoch node] reports IH];
    intros st s Hm Hall Hz Hc Hmem.
  - exists s. split; [reflexivity|]. simpl. lia.
  - apply Forall_cons in Hmem as [Hnode Hmem]. simpl in Hnode.
    apply rb_search_member in Hnode.
    destruct (manual_step epoch node st s Hm)
      as (s1 & Hrun & (_ & _ & Hf & Hst & Hzones) & _ & Hv & _ & Hcl).
    destruct Hnode as [n Hn]. rewrite Hn in Hv.
    assert (Hdue : cleanup_due node s).
    { split; [eauto|]. split; [now apply all_running_mark|]. split; assumption. }
    destruct Hcl as [[_ Ht]|[Hnot _]]; [|contradiction].
    destruct (IH st s1) as (s' & Hrest & Hcount).
    + now rewrite Hf.
    + rewrite Hv. now apply all_running_mark.
    + now rewrite Hzones.
    + unfold has_cleanup in *. now rewrite Hst.
    + rewrite Hv, mark_found_running_keys. exact Hmem.
    + exists s'. simpl. rewrite Hrun. split; [exact Hrest|].
      rewrite Hcount. unfold cleanups. rewrite Ht, filter_app, length_app.
      simpl. lia.
Qed.

End ManualCompletion.

(** ** The accumulator of recovered nodes *)

Section Accumulator.

Variable SD_CLUSTER_FLAG_MANUAL : Z.
Variable SD_MAX_NODES : Z.
Variable ec_max_data_strip : Z.

Local Abbreviation run :=
  (run_reports SD_CLUSTER_FLAG_MANUAL SD_MAX_NODES ec_max_data_strip).
Local Abbreviation auto_mode := (non_manual SD_CLUSTER_FLAG_MANUAL).
Local Abbreviation of_epoch e reports :=
  (map snd (filter (fun r : Z * sd_node => r.1 = e) reports)).

(** X11: In automatic mode the accumulator holds the reports of the newest
    epoch.  After any sequence of reports that the array has room for, the
    newest epoch seen is the one the handler had seen before or that of a
    report, no report is newer, and the nodes recorded are, up to their
    order, those reported for that epoch, after those recorded before if
    that epoch was the newest already. *)
Theorem accumulator_holds_newest_reports (reports : list (Z * sd_node)) :
  forall (st : recovery_statics) (s : system) (st' : recovery_statics)
         (s' : system),
    auto_mode s ->
    run reports st s = Some (st', s') ->
    let newest := latest_epoch st' in
    latest_epoch st <= newest /\
    Forall (fun r => r.1 <= newest) reports /\
    (newest = latest_epoch st \/ newest ∈ map fst reports) /\
    recovereds st'
    ≡ₚ (if decide (latest_epoch st = newest) then recovereds st else [])
       ++ of_epoch newest reports.
Proof.
  induction reports as [|[epoch node] rest IH]; intros st s st' s' Hauto Hrun;
    simpl in Hrun.
  - injection Hrun as <- <-. cbv zeta. rewrite decide_True by reflexivity.
    simpl. rewrite app_nil_r. repeat split; auto; lia.
  - destruct (cluster_recovery_completion _ _ _ epoch node st s)
      as [[[r st1] s1]|] eqn:Hh; [|discriminate].
    destruct (completion_step _ _ _ _ _ _ _ _ _ _ Hauto Hh) as (_ & Hcase).
    assert (Hauto1 : auto_mode s1).
    { destruct Hcase as [(_ & _ & ->)|(_ & _ & _ & [->|(-> & _)])];
        assumption. }
    destruct (IH st1 s1 st' s' Hauto1 Hrun) as (Hle & Hall & Hmax & Hperm).
    cbv zeta in *. set (newest := latest_epoch st') in *.
    destruct Hcase as [(Hold & -> & _)|(Hnew & Hlat & Hrec & _)].
    + split; [exact Hle|]. split; [constructor; [simpl; lia|exact Hall]|].
      split; [destruct Hmax; [now left|right; simpl; now right]|].
      rewrite filter_cons_False by (simpl; lia). exact Hperm.
    + split; [lia|]. split; [constructor; [simpl; lia|exact Hall]|].
      split.
      { destruct Hmax as [Hm|Hm]; [|right; simpl; now right].
        right. simpl. apply elem_of_cons. left. congruence. }
      rewrite Hperm. destruct (decide (epoch = newest)) as [He|He].
      * rewrite filter_cons_True by exact He. simpl.
        rewrite decide_True by congruence. rewrite Hrec, xqsort_perm.
        destruct (latest_epoch st <? epoch) eqn:Hlt.
        -- apply Z.ltb_lt in Hlt. rewrite decide_False by lia. reflexivity.
        -- apply Z.ltb_ge in Hlt. rewrite decide_True by lia.
           rewrite <- app_assoc. reflexivity.
      * rewrite filter_cons_False by exact He.
        rewrite decide_False by congruence. rewrite decide_False by lia.
        reflexivity.
Qed.

End Accumulator.

(** ** Creating and deleting a VDI *)

Lemma to_long_small x : - 2 ^ 63 <= x < 2 ^ 63 -> to_long x = x.
Proof. intros H. unfold to_long. rewrite Z.mod_small by lia. lia. Qed.

Lemma create_time_sum (tv_sec tv_usec : Z) :
  0 <= tv_sec -> 0 <= tv_usec < 1000000 ->
  create_time tv_sec tv_usec = (tv_sec mod 2 ^ 32) * 2 ^ 32 + tv_usec * 1000.
Proof.
  intros Hs Hu. unfold create_time.
  rewrite to_long_small, (wrap64_small (tv_usec * 1000)) by lia.
  assert (Hhigh : wrap64 (Z.shiftl (wrap64 tv_sec) 32)
                  = Z.shiftl (tv_sec mod 2 ^ 32) 32).
  { unfold wrap64. rewrite !Z.shiftl_mul_pow2 by lia.
    change (2 ^ 64) with (2 ^ 32 * 2 ^ 32).
    rewrite Z.mul_mod_distr_r by lia. f_equal.
    rewrite Z.mod_mod_divide; [reflexivity|]. exists (2 ^ 32). reflexivity. }
  rewrite Hhigh.
  pose proof (Z.mod_pos_bound tv_sec (2 ^ 32) ltac:(lia)).
  exact (vid_to_data_oid_sum (tv_sec mod 2 ^ 32) (tv_usec * 1000)
           ltac:(lia) ltac:(lia)).
Qed.

(** X12: The creation time [cluster_new_vdi] gives a VDI packs the seconds in
    the upper and the nanoseconds in the lower 32 bits: for a time of day
    with less than a million microseconds both can be read back, the
    seconds modulo 2^32, and before the seconds reach 2^32 a later time
    of day gives a larger creation time. *)
Theorem create_time_packs (tv_sec tv_usec : Z) :
  0 <= tv_sec -> 0 <= tv_usec < 1000000 ->
  0 <= create_time tv_sec tv_usec < 2 ^ 64 /\
  Z.shiftr (create_time tv_sec tv_usec) 32 = tv_sec mod 2 ^ 32 /\
  Z.land (create_time tv_sec tv_usec) (Z.ones 32) = tv_usec * 1000 /\
  (forall tv_sec' tv_usec',
     tv_sec < 2 ^ 32 -> 0 <= tv_sec' < 2 ^ 32 -> 0 <= tv_usec' < 1000000 ->
     (create_time tv_sec tv_usec < create_time tv_sec' tv_usec' <->
      tv_sec < tv_sec' \/ (tv_sec = tv_sec' /\ tv_usec < tv_usec'))).
Proof.
  intros Hs Hu. rewrite create_time_sum by assumption.
  pose proof (Z.mod_pos_bound tv_sec (2 ^ 32) ltac:(lia)) as Hm.
  split; [lia|]. split.
  { rewrite Z.shiftr_div_pow2 by lia. rewrite Z.div_add_l by lia.
    rewrite Z.div_small by lia. lia. }
  split.
  { rewrite Z.land_ones by lia. rewrite Z.add_comm, Z.mod_add by lia.
    apply Z.mod_small. lia. }
  intros tv_sec' tv_usec' Hs1 Hs' Hu'. rewrite create_time_sum by lia.
  rewrite !Z.mod_small by lia. lia.
Qed.

Section Vdis.

Variable SD_MAX_VDI_LEN : Z.
Variable SD_MAX_VDI_TAG_LEN : Z.
Variable ec_policy_to_dp : Z -> Z.
Variable vdi_create : vdi_iocb -> sd_res * Z.
Variable vdi_snapshot : vdi_iocb -> sd_res * Z.
Variable vdi_lookup : lookup_iocb -> sd_res * Z.
Variable vdi_delete : Z -> Z -> sd_res.

Local Abbreviation new_vdi :=
  (cluster_new_vdi SD_MAX_VDI_LEN ec_policy_to_dp vdi_create vdi_snapshot).
Local Abbreviation del_vdi :=
  (cluster_del_vdi SD_MAX_VDI_LEN SD_MAX_VDI_TAG_LEN vdi_lookup vdi_delete).
(** X13: [cluster_new_vdi] creates nothing and leaves the response alone when
    the data length is not [SD_MAX_VDI_LEN].  Otherwise it makes exactly
    one call, [vdi_snapshot] when the request names a snapshot id and
    [vdi_create] when it does not, returns what that call returns, and
    reports the redundancy it asked for: the copy count and policy of the
    request, or those of the cluster when the request names no copy count
    (whatever policy it names), the count being the one the policy stands
    for under an erasure policy. *)
Theorem new_vdi_redundancy (s : system) (tv_sec tv_usec : Z) (hdr : sd_req_vdi)
    (rsp : sd_rsp_vdi) :
  let r := new_vdi s tv_sec tv_usec hdr rsp in
  (rq_vdi_data_length hdr <> wrap32 SD_MAX_VDI_LEN ->
     r = (SD_RES_INVALID_PARMS, rsp, [])) /\
  (rq_vdi_data_length hdr = wrap32 SD_MAX_VDI_LEN ->
     exists iocb,
       r.2 = [if snapid hdr =? 0 then CallVdiCreate iocb
              else CallVdiSnapshot iocb] /\
       r.1.1 = (if snapid hdr =? 0 then vdi_create iocb
                else vdi_snapshot iocb).1 /\
       rsp_vdi_id r.1.2 = (if snapid hdr =? 0 then vdi_create iocb
                           else vdi_snapshot iocb).2 /\
       iocb_copy_policy iocb = effective_policy s hdr /\
       iocb_nr_copies iocb = effective_copies ec_policy_to_dp s hdr /\
       rsp_copies r.1.2 = effective_copies ec_policy_to_dp s hdr /\
       iocb_base_vid iocb = base_vdi_id hdr /\
       iocb_size iocb = vdi_size hdr /\
       iocb_time iocb = create_time tv_sec tv_usec).
Proof.
  cbv zeta. unfold cluster_new_vdi, effective_copies, effective_policy. split.
  - intros Hne. apply Z.eqb_neq in Hne.
    destruct (vdi_copies hdr =? 0); rewrite Hne; reflexivity.
  - intros Heq. apply Z.eqb_eq in Heq.
    destruct (vdi_copies hdr =? 0); rewrite Heq; cbn [negb iocb_create_snapshot].
    all: destruct (snapid hdr =? 0); cbn [negb].
    all: match goal with
         | |- context [vdi_create ?i] =>
             exists i; destruct (vdi_create i) as [ret vid]
         | |- context [vdi_snapshot ?i] =>
             exists i; destruct (vdi_snapshot i) as [ret vid]
         end.
    all: cbn.
    all: try (destruct (cinfo_copy_policy s =? 0)).
    all: try (destruct (vdi_copy_policy hdr =? 0)).
    all: repeat split.
Qed.

Lemma del_vdi_run (hdr : sd_req_vdi) (rsp : sd_rsp_vdi) :
  let len := rq_vdi_data_length hdr in
  let with_tag := wrap32 (SD_MAX_VDI_LEN + SD_MAX_VDI_TAG_LEN) in
  let iocb :=
    mk_lookup len (snapid hdr)
      (if len =? with_tag then Some SD_MAX_VDI_LEN else None) in
  let vid := (vdi_lookup iocb).2 in
  del_vdi hdr rsp
  = if (len =? with_tag) || (len =? wrap32 SD_MAX_VDI_LEN) then
      if decide ((vdi_lookup iocb).1 <> SD_RES_SUCCESS)
      then ((vdi_lookup iocb).1, rsp, [CallVdiLookup iocb])
      else (vdi_delete vid (async_delete hdr), mk_rsp_vdi vid (rsp_copies rsp),
            [CallVdiLookup iocb; CallVdiDelete vid (async_delete hdr)])
    else (SD_RES_INVALID_PARMS, rsp, []).
Proof.
  cbv zeta. unfold cluster_del_vdi, vdi_init_tag.
  destruct (rq_vdi_data_length hdr
            =? wrap32 (SD_MAX_VDI_LEN + SD_MAX_VDI_TAG_LEN)); simpl.
  - destruct (vdi_lookup _) as [ret vid]. reflexivity.
  - destruct (rq_vdi_data_length hdr =? wrap32 SD_MAX_VDI_LEN); simpl.
    + destruct (vdi_lookup _) as [ret vid]. reflexivity.
    + reflexivity.
Qed.

(** X14: [cluster_del_vdi] deletes only what the lookup found.  A data length
    that is neither that of a name nor that of a name and a tag is
    refused with [INVALID_PARMS] before anything is looked up; the lookup
    is given the tag exactly when the length is that of a name and a tag;
    when the lookup fails its code is returned and nothing is deleted;
    when it succeeds the one VDI deleted is the one it found, whose id is
    put in the response, and the code is that of the deletion. *)
Theorem del_vdi_deletes_what_lookup_found (hdr : sd_req_vdi) (rsp : sd_rsp_vdi) :
  let len := rq_vdi_data_length hdr in
  let with_tag := wrap32 (SD_MAX_VDI_LEN + SD_MAX_VDI_TAG_LEN) in
  let r := del_vdi hdr rsp in
  (len <> with_tag -> len <> wrap32 SD_MAX_VDI_LEN ->
     r = (SD_RES_INVALID_PARMS, rsp, [])) /\
  (len = with_tag \/ len = wrap32 SD_MAX_VDI_LEN ->
     let iocb :=
       mk_lookup len (snapid hdr)
         (if len =? with_tag then Some SD_MAX_VDI_LEN else None) in
     ((vdi_lookup iocb).1 <> SD_RES_SUCCESS ->
        r = ((vdi_lookup iocb).1, rsp, [CallVdiLookup iocb])) /\
     ((vdi_lookup iocb).1 = SD_RES_SUCCESS ->
        let vid := (vdi_lookup iocb).2 in
        r = (vdi_delete vid (async_delete hdr),
             mk_rsp_vdi vid (rsp_copies rsp),
             [CallVdiLookup iocb; CallVdiDelete vid (async_delete hdr)]))) /\
  (forall vid async, CallVdiDelete vid async ∈ r.2 ->
     exists iocb, vdi_lookup iocb = (SD_RES_SUCCESS, vid) /\
                  r.2 = [CallVdiLookup iocb; CallVdiDelete vid async]).
Proof.
  cbv zeta. rewrite del_vdi_run. cbv zeta.
  set (len := rq_vdi_data_length hdr).
  set (with_tag := wrap32 (SD_MAX_VDI_LEN + SD_MAX_VDI_TAG_LEN)).
  set (iocb := mk_lookup len (snapid hdr) _).
  split; [|split].
  - intros H1 H2. apply Z.eqb_neq in H1, H2. now rewrite H1, H2.
  - intros Hlen.
    assert (Hor : (len =? with_tag) || (len =? wrap32 SD_MAX_VDI_LEN) = true).
    { apply orb_true_iff. destruct Hlen as [H|H]; [left|right];
        now apply Z.eqb_eq. }
    rewrite Hor. split.
    + intros Hne. destruct (decide (_ <> _)); [reflexivity|contradiction].
    + intros Heq. destruct (decide (_ <> _)); [contradiction|reflexivity].
  - intros vid async Hin.
    destruct ((len =? with_tag) || (len =? wrap32 SD_MAX_VDI_LEN));
      [|inversion Hin].
    destruct (decide ((vdi_lookup iocb).1 <> SD_RES_SUCCESS)) as [Hne|Heq].
    + simpl in Hin. apply list_elem_of_singleton in Hin. discriminate Hin.
    + simpl in Hin. apply elem_of_cons in Hin as [Hin|Hin]; [discriminate Hin|].
      apply list_elem_of_singleton in Hin. injection Hin as -> ->.
      exists iocb. split; [|reflexivity].
      apply dec_stable in Heq.
      destruct (vdi_lookup iocb) as [ret v]. simpl in *. now rewrite Heq.
Qed.

End Vdis.

(** ** The copy count of the cluster *)

(** X15: [cluster_alter_cluster_copy] tests the policy of the request, not that
    of the cluster.  A request that names an erasure policy is refused
    with [INVALID_PARMS] and changes nothing.  Any other request sets the
    copy count, on a replicated and on an erasure-coded cluster alike,
    and keeps it set when the configuration cannot be saved, the code
    returned being that of [set_cluster_config]:
    [local_get_cluster_default] then reports the new count beside the
    old policy. *)
Theorem alter_cluster_copy_effect (set_cluster_config : sd_res)
    (req : sd_req_cluster) (s : system) (SD_DEFAULT_BLOCK_SIZE_SHIFT : Z) :
  let r := cluster_alter_cluster_copy set_cluster_config req s in
  let after := (local_get_cluster_default SD_DEFAULT_BLOCK_SIZE_SHIFT r.1.2).2 in
  (copy_policy req <> 0 -> r = (SD_RES_INVALID_PARMS, s, [])) /\
  (copy_policy req = 0 ->
     r.1.1 = set_cluster_config /\
     r.2 = [CallSetClusterConfig (copies req)] /\
     nr_copies_default after = copies req /\
     copy_policy_default after = cinfo_copy_policy s /\
     cinfo_epoch r.1.2 = cinfo_epoch s /\
     cinfo_status r.1.2 = cinfo_status s).
Proof.
  cbv zeta. unfold cluster_alter_cluster_copy. split.
  - intros Hne. now rewrite (proj2 (Z.eqb_neq _ _) Hne).
  - intros ->. simpl. repeat split.
Qed.

(** ** The properties at sample inputs *)

Lemma oids_exist_compacts_witness :
  0 <= 24 < 2 ^ 32 /\
  24 / 8 <= Z.of_nat (length four_oids) /\
  exists ret len oids',
    local_oids_exist 31 first_strip no_erasure holds_even 24 0 four_oids
    = Some (ret, len, oids') /\
    ret = SD_RES_NO_OBJ /\ len = 16 /\ oids' = [1; 3; 3; 4].
Proof.
  assert (H1 : 0 <= 24 < 2 ^ 32) by lia.
  assert (H2 : 24 / 8 <= Z.of_nat (length four_oids)) by (vm_compute; discriminate).
  split; [exact H1|]. split; [exact H2|].
  destruct (oids_exist_compacts 31 first_strip no_erasure holds_even 24 0
              four_oids H1 H2)
    as (ret & len & oids' & Hrun & _ & _ & _ & _ & Hgone).
  exists ret, len, oids'. split; [exact Hrun|].
  destruct Hgone as (Hret & Hlen & _); [vm_compute; discriminate|].
  split; [exact Hret|]. split; [rewrite Hlen; reflexivity|].
  vm_compute in Hrun. now injection Hrun as _ _ <-.
Defined.

Lemma oids_exist_agrees_with_oid_exist_witness :
  nr_vnodes (this_node sys_ab) <> 0 /\
  exists ret len oids',
    local_oids_exist 31 first_strip no_erasure holds_even 24 0 four_oids
    = Some (ret, len, oids') /\
    (ret = SD_RES_SUCCESS <->
     Forall (fun o => local_oid_exist 31 first_strip no_erasure holds_even
                        sys_ab o = SD_RES_SUCCESS) [1; 2; 3]) /\
    exists j,
      take j oids'
      = filter (fun o => local_oid_exist 31 first_strip no_erasure holds_even
                           sys_ab o = SD_RES_NO_OBJ) [1; 2; 3].
Proof.
  assert (Hv : nr_vnodes (this_node sys_ab) <> 0) by (vm_compute; discriminate).
  split; [exact Hv|].
  exact (proj1 (oids_exist_agrees_with_oid_exist 31 first_strip no_erasure
                  holds_even sys_ab 24 0 four_oids ltac:(lia)
                  ltac:(vm_compute; discriminate)) Hv).
Defined.

Lemma stat_cluster_fills_buffer_witness :
  let r :=
    local_stat_cluster 64 16 16 copy_name read_two_nodes read_nothing_remote
      3 sys_ab 300 2 (Some view_ab) 0 in
  (64 + 2 * 16) * Z.of_nat (length r.2) <= 300 /\
  map el_epoch r.2 = [3; 2; 1] /\
  r.1.1 = Res SD_RES_SUCCESS /\ r.1.2 = 288.
Proof.
  cbv zeta.
  destruct (stat_cluster_fills_buffer 64 16 16 copy_name read_two_nodes
              read_nothing_remote ltac:(lia) ltac:(lia) 3 sys_ab 300 2 view_ab
              ltac:(lia) ltac:(lia) ltac:(lia))
    as (Hfit & Hep & _ & Hret & _).
  split; [exact Hfit|]. split; [rewrite Hep; reflexivity|].
  destruct Hret as (Hcode & _ & Hlen); [vm_compute; discriminate|].
  split; [rewrite Hcode; reflexivity|rewrite Hlen; reflexivity].
Defined.

Lemma force_recover_round_trip_witness :
  exists req',
    cluster_force_recover_work 64 env_ok sys_wait req_recover
    = (SD_RES_SUCCESS, req') /\
    data req' = [node_a; node_b] /\
    (cluster_force_recover_main 64 env_ok (rp_epoch req') (rp_data_length req')
       (data req') sys_wait).1 = Returned SD_RES_SUCCESS /\
    cinfo_epoch (cluster_force_recover_main 64 env_ok (rp_epoch req')
                   (rp_data_length req') (data req') sys_wait).2 = 2 /\
    last (trace (cluster_force_recover_main 64 env_ok (rp_epoch req')
                   (rp_data_length req') (data req') sys_wait).2)
    = Some (EvStartRecovery [node_a; node_b]).
Proof.
  destruct (force_recover_round_trip 64 env_ok sys_wait req_recover view_ab
              view_ab)
    as (req' & Hwork & _ & _ & Hdata & Hmain & Hepoch & _ & _ & Hlast);
    try reflexivity; try (simpl; lia).
  { simpl. repeat constructor. }
  exists req'. split; [exact Hwork|]. split; [exact Hdata|].
  split; [exact Hmain|]. split; [exact Hepoch|exact Hlast].
Defined.

Lemma manual_completion_report_witness :
  Z.land (cinfo_flags sys_manual) 1 <> 0 /\
  exists s',
    cluster_recovery_completion 1 1024 1 1 node_b statics0 sys_manual
    = Some (SD_RES_SUCCESS, statics0, s') /\
    trace s' = trace sys_manual ++ [EvCleanup].
Proof.
  assert (Hm : Z.land (cinfo_flags sys_manual) 1 <> 0) by (vm_compute; discriminate).
  split; [exact Hm|].
  destruct (manual_completion_report 1 1024 1 1 node_b statics0 sys_manual Hm)
    as (s' & Hrun & _ & _ & _ & _ & _ & Hdue & _).
  exists s'. split; [exact Hrun|]. apply Hdue.
  split; [eexists; reflexivity|]. split; [|split; [simpl; lia|reflexivity]].
  repeat constructor; discriminate.
Defined.

Lemma manual_cleanup_repeats_witness :
  exists s',
    run_reports 1 1024 1 [(1, node_a); (1, node_b); (1, node_a)] statics0
      sys_manual_recovered = Some (statics0, s') /\
    cleanups s' = 3%nat.
Proof.
  apply (manual_cleanup_repeats 1 1024 1 [(1, node_a); (1, node_b); (1, node_a)]
           statics0 sys_manual_recovered).
  - vm_compute. discriminate.
  - repeat constructor; discriminate.
  - simpl. lia.
  - reflexivity.
  - repeat constructor; simpl; set_solver.
Defined.

Lemma accumulator_holds_newest_reports_witness :
  non_manual 8 sys_ab /\
  exists st' s',
    run_reports 8 1024 1 mixed_reports statics0 sys_ab = Some (st', s') /\
    latest_epoch st' = 2 /\
    recovereds st' ≡ₚ [node_b; node_a].
Proof.
  assert (H : non_manual 8 sys_ab) by reflexivity.
  split; [exact H|].
  destruct (run_reports 8 1024 1 mixed_reports statics0 sys_ab)
    as [[st' s']|] eqn:Hrun; [|vm_compute in Hrun; discriminate Hrun].
  destruct (accumulator_holds_newest_reports 8 1024 1 mixed_reports statics0
              sys_ab st' s' H Hrun) as (_ & _ & _ & Hperm).
  vm_compute in Hrun. injection Hrun as <- <-.
  do 2 eexists. split; [reflexivity|]. split; [reflexivity|]. exact Hperm.
Defined.

Lemma create_time_packs_witness :
  Z.shiftr (create_time 1700000000 123456) 32 = 1700000000 /\
  Z.land (create_time 1700000000 123456) (Z.ones 32) = 123456000.
Proof.
  destruct (create_time_packs 1700000000 123456 ltac:(lia) ltac:(lia))
    as (_ & Hsec & Hnsec & _).
  split; [exact Hsec|exact Hnsec].
Defined.

(** With a [pstrcpy] that keeps [size - 1] characters and a field of 16
    bytes, [cluster_make_fs] keeps 15 characters of a store name of 20,
    the driver being the one found under the whole name. *)
Example make_fs_cuts_a_long_name :
  let r :=
    cluster_make_fs 3 16 copy_name env_long_name req_format
      "abcdefghijklmnopqrst" sys_wait in
  r.1 = SD_RES_SUCCESS /\ cinfo_store r.2 = "abcdefghijklmno" /\
  sd_store r.2 = Some plain_driver.
Proof. repeat split. Qed.
End HandlersProps.

(** * Properties of whole requests of the VDI I/O engine *)

Module RequestsProps.
Import Vdi Requests VdiProps.

(** ** Object ids *)

(** The index of a data object id is the index it was made from, whatever
    the vid. *)
Lemma data_oid_to_idx_any_vid vid idx :
  0 <= idx < 2 ^ 32 -> data_oid_to_idx (vid_to_data_oid vid idx) = idx.
Proof.
  intros Hi. unfold data_oid_to_idx, vid_to_data_oid.
  rewrite Z.land_lor_distr_l.
  assert (Hhigh : Z.land (Z.shiftl vid 32) (Z.ones 32) = 0).
  { apply Z.bits_inj'. intros n Hn. rewrite Z.land_spec, Z.bits_0.
    destruct (Z.lt_ge_cases n 32) as [Hlt|Hge].
    - rewrite Z.shiftl_spec_low by lia. reflexivity.
    - rewrite Z.ones_spec_high by lia. apply andb_false_r. }
  rewrite Hhigh, Z.lor_0_l, Z.land_ones by lia. apply Z.mod_small. lia.
Qed.

(** ** The sub-request of one iteration *)

Lemma allocated_cons_alloc a r l :
  allocated a (EvAlloc r :: l)
  = if decide (aiocb r = a) then r :: allocated a l else allocated a l.
Proof. unfold allocated. simpl. destruct (decide (aiocb r = a)); reflexivity. Qed.

Section Iteration.

Variable SD_INODE_HEADER_SIZE : Z.

Local Abbreviation HDR := SD_INODE_HEADER_SIZE.

(** The object an iteration targets is, for some vid, the data object of
    the index the loop is at. *)
Lemma classify_target (a : sheep_aiocb) (ls : loop_state) (c : sd_cluster) :
  exists vid, (rw_classify a ls c).1.2 = vid_to_data_oid vid (idx ls) /\
              (aio_opcode a = VDI_WRITE -> vid = vdi_vid c).
Proof.
  unfold rw_classify. cbv zeta.
  destruct (negb (sheep_inode_get_vid c (idx ls) =? 0)
            && negb (sheep_inode_get_vid c (idx ls) =? vdi_vid c)); simpl.
  - destruct (bool_decide (aio_opcode a = VDI_WRITE)) eqn:Hw; simpl.
    + eexists. split; [reflexivity|auto].
    + eexists. split; [reflexivity|].
      intros Hop. apply bool_decide_eq_false in Hw. contradiction.
  - eexists. split; [reflexivity|auto].
Qed.

(** One iteration logs the allocation of one sub-request, on the object
    it targets and with the offset and length of the loop variables, and
    allocates nothing else. *)
Lemma iteration_alloc (a : sheep_aiocb) (i : interference) (ls : loop_state)
    (c : sd_cluster) :
  exists r l,
    log (rw_iteration HDR a i ls c) = log c ++ EvAlloc r :: l /\
    (forall x, allocated x l = []) /\
    aiocb r = aio_id a /\ opcode r = aio_opcode a /\
    oid r = (rw_classify a ls c).1.2 /\
    cow_oid r = (rw_classify a ls c).2 /\
    req_length r = len ls /\ req_offset r = start ls.
Proof.
  unfold rw_iteration.
  destruct (rw_classify a ls c) as [[vid o] co].
  unfold alloc_sheep_request. cbv zeta.
  set (r := mk_sheep_request _ _ _ _ _ _ _ _).
  set (c1 := emit (EvAlloc r) _).
  destruct (replies_continues HDR (after_classify i) c1) as (l1 & H1 & A1).
  destruct (dispatch_continues HDR i ls vid r (replies HDR (after_classify i) c1))
    as (l2 & H2 & A2).
  destruct (replies_continues HDR (after_iter i)
              (rw_dispatch HDR i ls vid r (replies HDR (after_classify i) c1)))
    as (l3 & H3 & A3).
  exists r, (l1 ++ l2 ++ l3). rewrite H3, H2, H1. unfold c1. simpl.
  rewrite <- !app_assoc. simpl. repeat split.
  intros x. now rewrite !allocated_app, A1, A2, A3.
Qed.

(** The vid of the open VDI is not changed by the engine. *)
Lemma vid_reply id c : vdi_vid (handle_reply HDR id c) = vdi_vid c.
Proof.
  unfold handle_reply.
  destruct (find _ (inflight_list c)) as [req|]; [|reflexivity].
  unfold respond_process.
  destruct (opcode req).
  - now destruct (end_effect req (set_inflight (remove_seq id (inflight_list c)) c))
      as (_ & _ & _ & -> & _).
  - now destruct (end_effect req (set_inflight (remove_seq id (inflight_list c)) c))
      as (_ & _ & _ & -> & _).
  - now destruct (create_respond_effect HDR req
                    (set_inflight (remove_seq id (inflight_list c)) c))
      as (_ & _ & _ & _ & -> & _).
Qed.

Lemma vid_replies ids : forall c, vdi_vid (replies HDR ids c) = vdi_vid c.
Proof.
  induction ids as [|id ids IH]; intros c; simpl; [reflexivity|].
  now rewrite IH, vid_reply.
Qed.

Lemma vid_dispatch i ls vid req c :
  vdi_vid (rw_dispatch HDR i ls vid req c) = vdi_vid c.
Proof.
  unfold rw_dispatch.
  destruct (negb (vid =? 0) && (cow_oid req =? 0)); [reflexivity|].
  destruct (opcode req); try reflexivity.
  - now destruct (end_effect req c) as (_ & _ & _ & -> & _).
  - destruct (find_inflight_request_oid c (oid req)); [|reflexivity].
    unfold rw_block_or_submit. cbv zeta.
    destruct (negb (_ =? 0) && (_ =? _)); simpl; apply vid_replies.
Qed.

Lemma vid_iteration a i ls c :
  vdi_vid (rw_iteration HDR a i ls c) = vdi_vid c.
Proof.
  unfold rw_iteration. destruct (rw_classify a ls c) as [[vid o] co].
  unfold alloc_sheep_request. cbv zeta.
  now rewrite vid_replies, vid_dispatch, vid_replies.
Qed.

(** What an iteration of a read does when no reply comes in: it stores
    nothing in the index map, blocks nothing, and what it submits is a
    read without copy-on-write source. *)
Lemma read_iteration (a : sheep_aiocb) (ls : loop_state) (c : sd_cluster) :
  aio_opcode a = VDI_READ ->
  let c' := rw_iteration HDR a no_interference ls c in
  data_vdi_id c' = data_vdi_id c /\
  blocking_list c' = blocking_list c /\
  exists l,
    log c' = log c ++ l /\
    inode_stores l = [] /\ blocked l = [] /\
    Forall (fun r => opcode r = VDI_READ /\ aiocb r = aio_id a /\ cow_oid r = 0)
      (submitted l).
Proof.
  intros Hop. cbv zeta. unfold rw_iteration, rw_classify. cbv zeta.
  rewrite Hop. rewrite bool_decide_eq_false_2 by discriminate.
  rewrite andb_false_r. cbn [negb andb].
  unfold alloc_sheep_request. cbv zeta. rewrite Hop.
  set (r := mk_sheep_request _ _ _ _ _ _ _ _).
  cbn [after_classify after_iter no_interference replies foldl].
  unfold rw_dispatch. cbn [cow_oid r opcode].
  rewrite Z.eqb_refl, andb_true_r.
  destruct (negb (sheep_inode_get_vid c (idx ls) =? 0)).
  - split; [reflexivity|]. split; [reflexivity|].
    exists [EvAlloc r; EvSubmit r]. split; [simpl; now rewrite <- app_assoc|].
    split; [reflexivity|]. split; [reflexivity|].
    repeat constructor.
  - match goal with
    | |- context [end_sheep_request r ?c0] =>
        destruct (end_effect r c0) as (_ & E2 & E3 & _ & _ & E6)
    end.
    rewrite E2, E3, E6. split; [reflexivity|]. split; [reflexivity|].
    eexists. split; [simpl; rewrite <- app_assoc; reflexivity|].
    destruct (_ <=? 0); repeat split; constructor.
Qed.

Lemma find_seq_fresh id (l : list sheep_request) :
  Forall (fun r => seq_num r <> id) l ->
  find (fun r => seq_num r =? id) l = None /\ remove_seq id l = l.
Proof.
  induction 1 as [|r l Hr _ [IH1 IH2]]; simpl; [auto|].
  rewrite (proj2 (Z.eqb_neq _ _) Hr), IH1, IH2. auto.
Qed.

Lemma remove_seq_snoc id (l : list sheep_request) r :
  Forall (fun r => seq_num r <> id) l -> seq_num r = id ->
  find (fun r => seq_num r =? id) (l ++ [r]) = Some r /\
  remove_seq id (l ++ [r]) = l.
Proof.
  intros Hl Hr. split.
  - rewrite find_snoc. destruct (find_seq_fresh id l Hl) as [-> _].
    now rewrite (proj2 (Z.eqb_eq _ _) Hr).
  - induction Hl as [|x l Hx _ IH]; simpl.
    + now rewrite (proj2 (Z.eqb_eq _ _) Hr).
    + now rewrite (proj2 (Z.eqb_neq _ _) Hx), IH.
Qed.

(** X16: A write to an object that is not there yet, its completion, and the
    next write to the same object.  With nothing in flight on the object,
    the first write is submitted as a create; the reply to it stores the
    VDI's own vid in the entry of the very index the write was on; and a
    write that comes after is submitted as it is, a plain write on the
    same object, without copy-on-write source and without being put on
    the blocking list. *)
Theorem write_after_create_is_plain (a1 a2 : sheep_aiocb)
    (ls1 ls2 : loop_state) (c : sd_cluster) :
  aio_opcode a1 = VDI_WRITE -> aio_opcode a2 = VDI_WRITE ->
  idx ls2 = idx ls1 -> 0 <= idx ls1 < 2 ^ 32 ->
  0 < vdi_vid c ->
  0 <= sheep_inode_get_vid c (idx ls1) ->
  sheep_inode_get_vid c (idx ls1) <> vdi_vid c ->
  find_inflight_request_oid c (vid_to_data_oid (vdi_vid c) (idx ls1)) = None ->
  Forall (fun r => seq_num r <> seq_num_c c + 1) (inflight_list c) ->
  let target := vid_to_data_oid (vdi_vid c) (idx ls1) in
  let c1 := rw_iteration HDR a1 no_interference ls1 c in
  let c2 := handle_reply HDR (seq_num_c c + 1) c1 in
  let c3 := rw_iteration HDR a2 no_interference ls2 c2 in
  exists r1 r2,
    log c1 = log c ++ [EvAlloc (set_opcode VDI_WRITE r1); EvSubmit r1] /\
    opcode r1 = VDI_CREATE /\ oid r1 = target /\
    sheep_inode_get_vid c2 (idx ls1) = vdi_vid c /\
    log c3 = log c2 ++ [EvAlloc r2; EvSubmit r2] /\
    opcode r2 = VDI_WRITE /\ oid r2 = target /\ cow_oid r2 = 0 /\
    req_offset r2 = start ls2 /\ req_length r2 = len ls2 /\
    blocking_list c3 = blocking_list c2.
Proof.
  intros Hop1 Hop2 Hsame Hidx Hown Hvid0 Hne Hfree Hfresh target c1 c2 c3.
  set (vid := sheep_inode_get_vid c (idx ls1)) in *.
  set (cow := if negb (vid =? 0) && negb (vid =? vdi_vid c)
              then vid_to_data_oid vid (idx ls1) else 0).
  set (r1 := mk_sheep_request (start ls1) (len ls1) target cow (aio_id a1) None
               (seq_num_c c + 1) VDI_CREATE).
  assert (Hcow : negb (vid =? 0) && (cow =? 0) = false).
  { unfold cow. rewrite (proj2 (Z.eqb_neq _ _) Hne).
    destruct (Z.eqb_spec vid 0) as [|Hz]; [reflexivity|]. simpl.
    apply Z.eqb_neq. apply vid_to_data_oid_nonzero; [lia|exact Hidx]. }
  assert (Hc1 : c1 = submit_sheep_request r1
                       (alloc_sheep_request a1 target cow (len ls1) (start ls1) c).2).
  { unfold c1, rw_iteration, rw_classify. cbv zeta. fold vid.
    rewrite Hop1, bool_decide_eq_true_2 by reflexivity.
    rewrite andb_false_r, andb_true_r. fold target. fold cow.
    unfold alloc_sheep_request. cbv zeta. rewrite Hop1.
    cbn [after_classify after_iter no_interference replies foldl].
    unfold rw_dispatch. cbn [cow_oid opcode oid]. rewrite Hcow.
    unfold find_inflight_request_oid in *. cbn [inflight_list emit uatomic_inc
      set_nr_requests set_seq_num]. fold target in Hfree. rewrite Hfree.
    reflexivity. }
  assert (Hin1 : inflight_list c1 = inflight_list c ++ [r1]).
  { rewrite Hc1. reflexivity. }
  destruct (remove_seq_snoc (seq_num_c c + 1) (inflight_list c) r1 Hfresh eq_refl)
    as [Hfind Hrem].
  set (c0 := set_inflight (inflight_list c) c1).
  assert (Hc2 : c2 = vdi_create_respond HDR r1 c0).
  { unfold c2, handle_reply. rewrite Hin1, Hfind, Hrem. reflexivity. }
  destruct (create_respond_effect HDR r1 c0) as (D1 & _ & D3 & D4 & D5 & _).
  rewrite <- Hc2 in D1, D3, D4, D5.
  assert (Hvid2 : vdi_vid c2 = vdi_vid c).
  { rewrite D5. unfold c0. rewrite Hc1. reflexivity. }
  assert (Hentry : sheep_inode_get_vid c2 (idx ls1) = vdi_vid c).
  { unfold sheep_inode_get_vid. rewrite D1.
    change (oid r1) with target. unfold target.
    rewrite data_oid_to_idx_any_vid by exact Hidx.
    rewrite lookup_insert_eq. unfold c0. rewrite Hc1. reflexivity. }
  set (r2 := mk_sheep_request (start ls2) (len ls2) target 0 (aio_id a2) None
               (seq_num_c c2 + 1) VDI_WRITE).
  exists r1, r2. split.
  { rewrite Hc1. unfold alloc_sheep_request. cbv zeta. rewrite Hop1. simpl.
    now rewrite <- app_assoc. }
  split; [reflexivity|]. split; [reflexivity|]. split; [exact Hentry|].
  assert (Hc3 : c3 = submit_sheep_request r2
                       (alloc_sheep_request a2 target 0 (len ls2) (start ls2) c2).2).
  { unfold c3, rw_iteration, rw_classify. cbv zeta.
    rewrite Hsame, Hentry, Hvid2, Z.eqb_refl.
    rewrite Hop2, bool_decide_eq_true_2 by reflexivity.
    rewrite andb_false_r. cbn [negb andb]. fold target.
    unfold alloc_sheep_request. cbv zeta. rewrite Hop2.
    cbn [after_classify after_iter no_interference replies foldl].
    unfold rw_dispatch. cbn [cow_oid opcode oid].
    rewrite (proj2 (Z.eqb_neq _ _)) by lia. reflexivity. }
  rewrite Hc3. unfold alloc_sheep_request. cbv zeta. rewrite Hop2. simpl.
  rewrite <- app_assoc. repeat split.
Qed.

End Iteration.

(** ** The splitting loop as a whole *)

Section Loop.

Variable SD_DATA_OBJ_SIZE : Z.
Variable SD_INODE_HEADER_SIZE : Z.
Hypothesis obj_size_range : 0 < SD_DATA_OBJ_SIZE < 2 ^ 31.

Local Abbreviation OBJ := SD_DATA_OBJ_SIZE.
Local Abbreviation HDR := SD_INODE_HEADER_SIZE.
Local Abbreviation next := (loop_next SD_DATA_OBJ_SIZE).
Local Abbreviation inv := (loop_inv SD_DATA_OBJ_SIZE).

(** What holds of the loop variables and the engine before an iteration
    and is carried by every iteration that is not the last holds, carried
    one step further, when the loop is over. *)
Lemma loop_carries (a : sheep_aiocb) (sched : nat -> interference)
    (P : loop_state -> sd_cluster -> Prop) (Q : sd_cluster -> Prop) :
  (forall j ls c,
     inv ls -> 0 < total (next ls) -> P ls c ->
     P (next ls) (rw_iteration HDR a (sched j) ls c)) ->
  (forall j ls c,
     inv ls -> total (next ls) <= 0 -> P ls c ->
     Q (rw_iteration HDR a (sched j) ls c)) ->
  forall fuel k ls c m c',
    inv ls -> P ls c ->
    vdi_rw_loop OBJ HDR fuel a sched k ls c = Some (m, c') -> Q c'.
Proof.
  intros Hstep Hlast. induction fuel as [|fuel IH];
    intros k ls c m c' Hinv HP Hrun; [discriminate Hrun|].
  rewrite vdi_rw_loop_S in Hrun.
  destruct (0 <? total (next ls)) eqn:Hmore.
  - apply Z.ltb_lt in Hmore. eapply IH; [| |exact Hrun].
    + now apply loop_next_inv.
    + now apply Hstep.
  - apply Z.ltb_ge in Hmore. injection Hrun as _ <-. now apply Hlast.
Qed.

Local Abbreviation pos ls := (idx ls * OBJ + start ls).

Lemma tiles_snoc (l : list sheep_request) (r : sheep_request) : forall p mid,
  tiles OBJ p l mid ->
  first_byte OBJ r = mid -> 0 <= req_offset r -> 0 < req_length r ->
  req_offset r + req_length r <= OBJ ->
  tiles OBJ p (l ++ [r]) (mid + req_length r).
Proof.
  induction l as [|x l IH]; intros p mid Ht Hf Ho Hl Hb; simpl in *.
  - subst p. repeat split; assumption.
  - destruct Ht as (H1 & H2 & H3 & H4 & H5). repeat split; try assumption.
    now apply IH.
Qed.

(** The lengths of sub-requests that tile a range add up to its length,
    and there is one for every object the range touches. *)
Lemma tiles_total (l : list sheep_request) : forall p stop,
  tiles OBJ p l stop ->
  p + foldr (fun r n => req_length r + n) 0 l = stop.
Proof.
  induction l as [|x l IH]; intros p stop Ht; simpl in *; [lia|].
  destruct Ht as (_ & _ & _ & _ & Ht). specialize (IH _ _ Ht). lia.
Qed.

(** X17: The sub-requests of a logical read or write tile its byte range.  For
    a request of positive length that ends inside the 2^32 objects a
    volume can have, [vdi_rw_request] returns, and the sub-requests it has
    allocated cover the bytes from [offset] to [offset + length] in order,
    without gap or overlap, each of them not empty and inside one data
    object; those of a write are all on objects of the VDI's own vid.
    This holds whatever replies are handled while the loop runs. *)
Theorem sub_requests_tile_the_range (a : sheep_aiocb) (c : sd_cluster)
    (sched : nat -> interference) (fuel : nat) :
  0 <= aio_offset a -> 0 < aio_length a ->
  aio_offset a + aio_length a <= 2 ^ 32 * OBJ ->
  (Z.to_nat (nr_objects OBJ (aio_offset a) (aio_length a)) <= fuel)%nat ->
  exists c' l,
    vdi_rw_request OBJ HDR fuel a sched c = Some c' /\
    log c' = log c ++ l /\
    tiles OBJ (aio_offset a) (allocated (aio_id a) l)
      (aio_offset a + aio_length a) /\
    foldr (fun r n => req_length r + n) 0 (allocated (aio_id a) l)
    = aio_length a /\
    (aio_opcode a = VDI_WRITE ->
     Forall (fun r => oid r
                      = vid_to_data_oid (vdi_vid c) (data_oid_to_idx (oid r)))
       (allocated (aio_id a) l)).
Proof.
  intros Ho Hl Hend Hfuel.
  set (aid := aio_id a). set (stop := aio_offset a + aio_length a).
  set (c0 := uatomic_inc aid c).
  set (own r := aio_opcode a = VDI_WRITE ->
                oid r = vid_to_data_oid (vdi_vid c) (data_oid_to_idx (oid r))).
  set (P := fun (ls : loop_state) (c' : sd_cluster) =>
              (exists l, log c' = log c ++ l /\
                         tiles OBJ (aio_offset a) (allocated aid l) (pos ls) /\
                         Forall own (allocated aid l)) /\
              vdi_vid c' = vdi_vid c /\
              pos ls + total ls = stop /\ 0 <= idx ls < 2 ^ 32 /\
              0 < total ls).
  set (Q := fun (c' : sd_cluster) =>
              exists l, log c' = log c ++ l /\
                        tiles OBJ (aio_offset a) (allocated aid l) stop /\
                        Forall own (allocated aid l)).
  assert (Hbig : 2 ^ 32 * OBJ < 2 ^ 64) by nia.
  assert (Hiter : forall i ls c' l,
            inv ls -> 0 <= idx ls < 2 ^ 32 -> 0 < total ls ->
            vdi_vid c' = vdi_vid c ->
            log c' = log c ++ l ->
            tiles OBJ (aio_offset a) (allocated aid l) (pos ls) ->
            Forall own (allocated aid l) ->
            exists l',
              log (rw_iteration HDR a i ls c') = log c ++ l' /\
              tiles OBJ (aio_offset a) (allocated aid l') (pos ls + len ls) /\
              Forall own (allocated aid l')).
  { intros i ls c' l Hinv Hidx Htot Hvid Hlog Ht Hown.
    destruct (iteration_alloc HDR a i ls c')
      as (r & l' & Hl' & Hnone & Ha & _ & Hoid & _ & Hlen & Hoff).
    destruct (classify_target a ls c') as (v & Hv & Hw).
    destruct (loop_next_inv OBJ obj_size_range ls Hinv) as (_ & Hle & Hpos & _).
    destruct Hinv as (Hs & _ & Hmin).
    assert (Hidx' : data_oid_to_idx (oid r) = idx ls).
    { rewrite Hoid, Hv. now apply data_oid_to_idx_any_vid. }
    exists (l ++ EvAlloc r :: l'). split; [now rewrite Hl', Hlog, <- app_assoc|].
    assert (Hall : allocated aid (l ++ EvAlloc r :: l') = allocated aid l ++ [r]).
    { rewrite allocated_app, allocated_cons_alloc, Hnone.
      destruct (decide (aiocb r = aid)); [reflexivity|contradiction]. }
    rewrite Hall. split.
    - rewrite <- Hlen. apply tiles_snoc; try assumption.
      + unfold first_byte. now rewrite Hidx', Hoff.
      + rewrite Hoff. lia.
      + rewrite Hlen. now apply Hpos.
      + rewrite Hoff, Hlen. lia.
    - apply Forall_app. split; [exact Hown|]. constructor; [|constructor].
      intros Hop. rewrite Hidx', Hoid, Hv, (Hw Hop), Hvid. reflexivity. }
  destruct (positive_length_runs OBJ HDR obj_size_range a sched (fun _ _ => True)
              ltac:(auto) ltac:(lia) ltac:(lia) fuel c0 Hfuel I)
    as (c1 & Hrun & _).
  destruct (loop_init_inv OBJ obj_size_range (aio_offset a) (aio_length a)
              ltac:(lia) ltac:(lia)) as (Hinv0 & Hstart0 & Htotal0).
  assert (HQ : Q c1).
  { eapply (loop_carries a sched P Q); [| |exact Hinv0| |exact Hrun].
    - intros j ls c' Hinv Hmore ((l & Hlog & Ht & Hown) & Hvid & Hsum & Hidx & Htot).
      destruct (Hiter (sched j) ls c' l) as (l' & Hlog' & Ht' & Hown');
        try assumption.
      destruct (loop_next_inv OBJ obj_size_range ls Hinv)
        as (Htot' & _ & _ & Hbnd & _).
      destruct (Hbnd Hmore) as [Hlen Hs0].
      assert (Hnext : idx (next ls) = idx ls + 1).
      { change (idx (next ls)) with (wrap32 (idx ls + 1)).
        apply wrap32_small. nia. }
      assert (Hpos' : pos (next ls) = pos ls + len ls).
      { rewrite Hnext, Hs0, Hlen. lia. }
      split; [|split; [|split; [|split]]].
      + exists l'. rewrite Hpos'. auto.
      + now rewrite vid_iteration.
      + rewrite Hpos', Htot'. lia.
      + rewrite Hnext. nia.
      + exact Hmore.
    - intros j ls c' Hinv Hlast ((l & Hlog & Ht & Hown) & Hvid & Hsum & Hidx & Htot).
      destruct (Hiter (sched j) ls c' l) as (l' & Hlog' & Ht' & Hown');
        try assumption.
      destruct (loop_next_inv OBJ obj_size_range ls Hinv)
        as (Htot' & Hle & _ & _ & _).
      exists l'. replace stop with (pos ls + len ls) by lia. auto.
    - split; [|split; [|split; [|split]]].
      + exists []. rewrite app_nil_r. split; [reflexivity|]. split; [|constructor].
        change (aio_offset a
                = pos (loop_init OBJ (aio_offset a) (aio_length a))).
        rewrite Hstart0.
        change (idx (loop_init OBJ (aio_offset a) (aio_length a)))
          with (wrap32 (aio_offset a / OBJ)).
        rewrite wrap32_small.
        * rewrite (Z.div_mod (aio_offset a) OBJ) at 1 by lia. lia.
        * split; [apply Z.div_pos; lia|]. apply Z.div_lt_upper_bound; lia.
      + reflexivity.
      + rewrite Hstart0, Htotal0.
        change (idx (loop_init OBJ (aio_offset a) (aio_length a)))
          with (wrap32 (aio_offset a / OBJ)).
        rewrite wrap32_small.
        * unfold stop. rewrite (Z.div_mod (aio_offset a) OBJ) at 3 by lia. lia.
        * split; [apply Z.div_pos; lia|]. apply Z.div_lt_upper_bound; lia.
      + change (idx (loop_init OBJ (aio_offset a) (aio_length a)))
          with (wrap32 (aio_offset a / OBJ)).
        rewrite wrap32_small; split; try (apply Z.div_pos; lia);
          apply Z.div_lt_upper_bound; lia.
      + now rewrite Htotal0. }
  destruct HQ as (l & Hlog & Ht & Hown).
  exists (drop_reference aid c1),
    (l ++ if counter c1 aid - 1 <=? 0 then [EvDone aid] else []).
  assert (Hall : allocated aid
                   (l ++ if counter c1 aid - 1 <=? 0 then [EvDone aid] else [])
                 = allocated aid l).
  { rewrite allocated_app.
    destruct (counter c1 aid - 1 <=? 0); simpl; now rewrite app_nil_r. }
  rewrite Hall. split; [|split; [|split; [|split]]].
  - unfold vdi_rw_request. cbv zeta. fold aid. fold c0. now rewrite Hrun.
  - unfold drop_reference. cbv zeta.
    destruct (counter c1 aid - 1 <=? 0); simpl; rewrite Hlog.
    + now rewrite <- app_assoc.
    + now rewrite app_nil_r.
  - exact Ht.
  - pose proof (tiles_total _ _ _ Ht). unfold stop in *. lia.
  - intros Hop. eapply Forall_impl; [exact Hown|]. intros r Hr. now apply Hr.
Qed.

End Loop.

(** ** The lists and the index map *)

Section Consistency.

Variable SD_INODE_HEADER_SIZE : Z.

Local Abbreviation HDR := SD_INODE_HEADER_SIZE.
Local Abbreviation reply := (handle_reply SD_INODE_HEADER_SIZE).
Local Abbreviation target c i := (vid_to_data_oid (vdi_vid c) i).

(** Consistency is about the vid, the index map and the two lists. *)
Lemma consistent_same c c' :
  vdi_vid c' = vdi_vid c -> data_vdi_id c' = data_vdi_id c ->
  inflight_list c' = inflight_list c -> blocking_list c' = blocking_list c ->
  consistent c -> consistent c'.
Proof.
  intros Hv Hd Hi Hb. unfold consistent, sheep_inode_get_vid.
  now rewrite Hv, Hd, Hi, Hb.
Qed.

Lemma find_seq_elem id l req :
  find (fun r => seq_num r =? id) l = Some req -> req ∈ l.
Proof.
  induction l as [|r l IH]; simpl; [discriminate|].
  destruct (seq_num r =? id).
  - intros [= ->]. left.
  - intros H. right. now apply IH.
Qed.

Lemma find_oid_elem o l r0 :
  find (fun r => oid r =? o) l = Some r0 -> r0 ∈ l /\ oid r0 = o.
Proof.
  induction l as [|r l IH]; simpl; [discriminate|].
  destruct (Z.eqb_spec (oid r) o) as [Ho|Ho].
  - intros [= ->]. split; [left|exact Ho].
  - intros H. destruct (IH H). split; [now right|assumption].
Qed.

Lemma remove_seq_elem id l x : x ∈ remove_seq id l -> x ∈ l.
Proof.
  induction l as [|r l IH]; simpl; [auto|].
  destruct (seq_num r =? id).
  - intros H. now right.
  - intros H. apply elem_of_cons in H as [->|H]; [left|right; now apply IH].
Qed.

Lemma remove_seq_keeps id l req x :
  find (fun r => seq_num r =? id) l = Some req ->
  x ∈ l -> x = req \/ x ∈ remove_seq id l.
Proof.
  induction l as [|r l IH]; simpl; [discriminate|].
  destruct (seq_num r =? id).
  - intros [= ->] H. apply elem_of_cons in H as [->|H]; auto.
  - intros Hf H. apply elem_of_cons in H as [->|H].
    + right. left.
    + destruct (IH Hf H); [auto|]. right. now right.
Qed.

(** The data objects of the VDI are not its inode object. *)
Lemma vdi_oid_is_no_data_oid vid i :
  0 <= vid < 2 ^ 31 -> 0 <= i < 2 ^ 32 ->
  vid_to_vdi_oid vid <> vid_to_data_oid vid i.
Proof.
  intros Hv Hi H. rewrite vid_to_data_oid_sum in H by lia.
  assert (Hbit : Z.testbit (vid_to_vdi_oid vid) 63 = true).
  { unfold vid_to_vdi_oid. rewrite Z.lor_spec, Z.pow2_bits_true by lia.
    reflexivity. }
  rewrite H in Hbit.
  rewrite Z.bits_above_log2 in Hbit; [discriminate|lia|].
  destruct (Z.eq_dec (vid * 2 ^ 32 + i) 0) as [->|Hnz]; [simpl; lia|].
  apply Z.log2_lt_pow2; lia.
Qed.

(** An entry that names the VDI's own vid keeps naming it. *)
Lemma owned_reply id c i :
  sheep_inode_get_vid c i = vdi_vid c ->
  sheep_inode_get_vid (reply id c) i = vdi_vid c.
Proof.
  intros Hown. unfold handle_reply.
  destruct (find _ (inflight_list c)) as [req|]; [|exact Hown].
  set (c0 := set_inflight (remove_seq id (inflight_list c)) c).
  unfold respond_process, sheep_inode_get_vid in *.
  destruct (opcode req).
  - now destruct (end_effect req c0) as (_ & _ & -> & _).
  - now destruct (end_effect req c0) as (_ & _ & -> & _).
  - destruct (create_respond_effect HDR req c0) as (-> & _).
    destruct (decide (data_oid_to_idx (oid req) = i)) as [<-|Hne].
    + now rewrite lookup_insert_eq.
    + now rewrite lookup_insert_ne.
Qed.

Lemma owned_replies ids : forall c i,
  sheep_inode_get_vid c i = vdi_vid c ->
  sheep_inode_get_vid (replies HDR ids c) i = vdi_vid c.
Proof.
  induction ids as [|id ids IH]; intros c i H; simpl; [exact H|].
  rewrite IH; [apply vid_reply|]. rewrite vid_reply. now apply owned_reply.
Qed.

(** A create in flight stays in flight until it is answered, and then the
    entry of its object names the VDI's own vid. *)
Lemma create_reply id c r0 :
  r0 ∈ inflight_list c -> opcode r0 = VDI_CREATE ->
  r0 ∈ inflight_list (reply id c) \/
  sheep_inode_get_vid (reply id c) (data_oid_to_idx (oid r0)) = vdi_vid c.
Proof.
  intros Hin Hop. unfold handle_reply.
  destruct (find _ (inflight_list c)) as [req|] eqn:Hf; [|now left].
  set (c0 := set_inflight (remove_seq id (inflight_list c)) c).
  destruct (remove_seq_keeps id _ req r0 Hf Hin) as [->|Hstay].
  - right. unfold respond_process. rewrite Hop.
    destruct (create_respond_effect HDR req c0) as (Hd & _).
    unfold sheep_inode_get_vid. rewrite Hd, lookup_insert_eq. reflexivity.
  - left. unfold respond_process. destruct (opcode req).
    + now destruct (end_effect req c0) as (-> & _).
    + now destruct (end_effect req c0) as (-> & _).
    + destruct (create_respond_effect HDR req c0) as (_ & -> & _).
      apply elem_of_app. now left.
Qed.

Lemma create_replies ids : forall c r0,
  r0 ∈ inflight_list c -> opcode r0 = VDI_CREATE ->
  r0 ∈ inflight_list (replies HDR ids c) \/
  sheep_inode_get_vid (replies HDR ids c) (data_oid_to_idx (oid r0)) = vdi_vid c.
Proof.
  induction ids as [|id ids IH]; intros c r0 Hin Hop; simpl; [now left|].
  destruct (create_reply id c r0 Hin Hop) as [Hstay|Hdone].
  - rewrite <- (vid_reply HDR id c). now apply IH.
  - right. rewrite <- (vid_reply HDR id c). apply owned_replies.
    now rewrite vid_reply.
Qed.

(** A reply keeps the lists consistent with the index map. *)
Lemma consistent_reply id c : consistent c -> consistent (reply id c).
Proof.
  intros (Hvid & Hent & Hblk & Hfly). unfold handle_reply.
  destruct (find _ (inflight_list c)) as [req|] eqn:Hf;
    [|exact (conj Hvid (conj Hent (conj Hblk Hfly)))].
  set (c0 := set_inflight (remove_seq id (inflight_list c)) c).
  assert (Hends : opcode req <> VDI_CREATE ->
                  consistent (end_sheep_request req c0)).
  { intros Hop.
    destruct (end_effect req c0) as (E1 & E2 & E3 & E4 & _).
    unfold consistent, sheep_inode_get_vid. rewrite E1, E2, E3, E4. simpl.
    split; [exact Hvid|]. split; [exact Hent|]. split.
    - intros r Hr. destruct (Hblk r Hr) as (r' & Hr' & Hop' & Hoid).
      exists r'. split; [|auto].
      destruct (remove_seq_keeps id _ req r' Hf Hr') as [->|H];
        [contradiction|exact H].
    - intros r i Hr. apply Hfly. now apply remove_seq_elem in Hr. }
  unfold respond_process. destruct (opcode req) eqn:Hop;
    [apply Hends; discriminate|apply Hends; discriminate|].
  destruct (create_respond_effect HDR req c0) as (C1 & C2 & C3 & _ & C5 & _).
  unfold consistent, sheep_inode_get_vid. rewrite C1, C2, C3, C5. simpl.
  split; [exact Hvid|]. split.
  { intros i v Hiv. destruct (decide (data_oid_to_idx (oid req) = i)) as [<-|Hne].
    - rewrite lookup_insert_eq in Hiv. injection Hiv as <-. lia.
    - rewrite lookup_insert_ne in Hiv by exact Hne. now apply (Hent i). }
  split.
  { intros r Hr. apply list_elem_of_filter in Hr as [Hne Hr].
    destruct (Hblk r Hr) as (r' & Hr' & Hop' & Hoid).
    exists r'. split; [|auto]. apply elem_of_app. left.
    destruct (remove_seq_keeps id _ req r' Hf Hr') as [->|H];
      [congruence|exact H]. }
  intros r i Hr Hnc Hi Hoid.
  assert (Hset : forall j,
            default 0 (data_vdi_id c !! j) = vdi_vid c ->
            default 0 (<[data_oid_to_idx (oid req) := vdi_vid c]>
                         (data_vdi_id c) !! j) = vdi_vid c).
  { intros j Hj. destruct (decide (data_oid_to_idx (oid req) = j)) as [<-|Hne].
    - now rewrite lookup_insert_eq.
    - now rewrite lookup_insert_ne. }
  apply elem_of_app in Hr as [Hr|Hr].
  - apply Hset. apply (Hfly r i); try assumption.
    now apply remove_seq_elem in Hr.
  - apply elem_of_cons in Hr as [->|Hr].
    + exfalso. simpl in Hoid.
      exact (vdi_oid_is_no_data_oid (vdi_vid c) i ltac:(lia) Hi Hoid).
    + apply list_elem_of_filter in Hr as [Hsame _].
      rewrite <- Hsame, Hoid, data_oid_to_idx_any_vid by exact Hi.
      now rewrite lookup_insert_eq.
Qed.

Lemma consistent_replies ids : forall c,
  consistent c -> consistent (replies HDR ids c).
Proof.
  induction ids as [|id ids IH]; intros c H; simpl; [exact H|].
  apply IH. now apply consistent_reply.
Qed.

Lemma consistent_submit r c :
  consistent c ->
  (opcode r <> VDI_CREATE -> forall i,
     0 <= i < 2 ^ 32 -> oid r = target c i ->
     sheep_inode_get_vid c i = vdi_vid c) ->
  consistent (submit_sheep_request r c).
Proof.
  intros (Hvid & Hent & Hblk & Hfly) Hr.
  split; [exact Hvid|]. split; [exact Hent|]. split.
  - intros x Hx. destruct (Hblk x Hx) as (r' & Hr' & H).
    exists r'. split; [|exact H]. simpl. apply elem_of_app. now left.
  - intros x i Hx Hop Hi Hoid. simpl in Hx.
    apply elem_of_app in Hx as [Hx|Hx].
    + now apply (Hfly x i).
    + apply list_elem_of_singleton in Hx. subst x. now apply Hr.
Qed.

Lemma consistent_block r c :
  consistent c ->
  (exists r', r' ∈ inflight_list c /\ opcode r' = VDI_CREATE /\ oid r' = oid r) ->
  consistent (set_blocking (blocking_list c ++ [r]) c).
Proof.
  intros (Hvid & Hent & Hblk & Hfly) Hr.
  split; [exact Hvid|]. split; [exact Hent|]. split; [|exact Hfly].
  intros x Hx. simpl in Hx. apply elem_of_app in Hx as [Hx|Hx].
  - now apply Hblk.
  - apply list_elem_of_singleton in Hx. now subst x.
Qed.

(** One iteration of the splitting loop keeps the lists consistent with
    the index map, whatever replies are handled on the way. *)
Lemma consistent_iteration a i ls c :
  consistent c -> 0 <= idx ls < 2 ^ 32 ->
  consistent (rw_iteration HDR a i ls c).
Proof.
  intros Hc Hidx. unfold rw_iteration.
  destruct (rw_classify a ls c) as [[vid o] co] eqn:Hcl.
  unfold alloc_sheep_request. cbv zeta.
  set (r := mk_sheep_request _ _ _ _ _ _ _ _).
  set (c1 := emit (EvAlloc r) _).
  assert (Hc1 : consistent c1).
  { revert Hc. apply consistent_same; reflexivity. }
  assert (Hvid1 : vdi_vid c1 = vdi_vid c) by reflexivity.
  assert (Hread : vid = sheep_inode_get_vid c1 (idx ls)).
  { unfold rw_classify in Hcl. now injection Hcl as <- _ _. }
  assert (Hrange : 0 <= vid < 2 ^ 32).
  { destruct Hc as (_ & Hent & _). rewrite Hread.
    unfold sheep_inode_get_vid, c1. simpl.
    destruct (data_vdi_id c !! idx ls) as [v|] eqn:Hv; simpl; [|lia].
    exact (Hent _ _ Hv). }
  assert (Hown : 0 < vdi_vid c < 2 ^ 31) by apply Hc.
  assert (Hown0 : 0 <= vdi_vid c) by lia.
  assert (Hvid0 : 0 <= vid) by lia.
  apply consistent_replies.
  set (c2 := replies HDR (after_classify i) c1).
  assert (Hc2 : consistent c2) by now apply consistent_replies.
  assert (Hvid2 : vdi_vid c2 = vdi_vid c).
  { unfold c2. now rewrite vid_replies. }
  assert (Hkeep : vid = vdi_vid c -> sheep_inode_get_vid c2 (idx ls) = vdi_vid c2).
  { intros Hv. unfold c2. rewrite vid_replies. apply owned_replies.
    now rewrite <- Hread, Hvid1. }
  assert (Htarget : o = target c (idx ls) \/
                    (o = vid_to_data_oid vid (idx ls) /\ vid <> 0 /\
                     vid <> vdi_vid c /\ aio_opcode a <> VDI_WRITE /\ co = 0)).
  { unfold rw_classify in Hcl. cbv zeta in Hcl.
    fold (sheep_inode_get_vid c1 (idx ls)) in Hread.
    replace (sheep_inode_get_vid c (idx ls)) with vid in Hcl
      by (rewrite Hread; reflexivity).
    destruct (Z.eqb_spec vid 0) as [Hz|Hz];
      destruct (Z.eqb_spec vid (vdi_vid c)) as [Ho|Ho];
      destruct (bool_decide (aio_opcode a = VDI_WRITE)) eqn:Hw;
      simpl in Hcl; injection Hcl as <- <-; try (now left).
    right. apply bool_decide_eq_false in Hw. repeat split; auto. }
  assert (Hwrite : aio_opcode a = VDI_WRITE -> o = target c (idx ls)).
  { intros Hw. destruct Htarget as [H|(_ & _ & _ & H & _)]; [exact H|contradiction]. }
  assert (Hcow : vid <> 0 -> co = 0 -> vid = vdi_vid c \/ aio_opcode a <> VDI_WRITE).
  { intros Hz Hco. unfold rw_classify in Hcl. cbv zeta in Hcl.
    replace (sheep_inode_get_vid c (idx ls)) with vid in Hcl
      by (rewrite Hread; reflexivity).
    destruct (Z.eqb_spec vid 0) as [|_]; [contradiction|].
    destruct (Z.eqb_spec vid (vdi_vid c)) as [Ho|Ho]; [now left|].
    destruct (bool_decide (aio_opcode a = VDI_WRITE)) eqn:Hw;
      simpl in Hcl; injection Hcl as <- <-.
    - exfalso. exact (vid_to_data_oid_nonzero vid (idx ls) ltac:(lia) Hidx Hco).
    - right. now apply bool_decide_eq_false in Hw. }
  unfold rw_dispatch. fold c2.
  destruct (negb (vid =? 0) && (cow_oid r =? 0)) eqn:Hdirect.
  { apply andb_true_iff in Hdirect as [Hz Hco].
    apply negb_true_iff, Z.eqb_neq in Hz. apply Z.eqb_eq in Hco.
    apply consistent_submit; [exact Hc2|]. intros _ j Hj Hoid.
    rewrite Hvid2 in Hoid. change (oid r) with o in Hoid.
    destruct Htarget as [Ht|(Ht & _ & Hne & _)].
    - rewrite Ht in Hoid.
      destruct (vid_to_data_oid_inj _ _ _ _ Hown0 Hown0 Hidx Hj Hoid)
        as [_ <-].
      apply Hkeep. unfold rw_classify in Hcl. cbv zeta in Hcl.
      destruct (Hcow Hz Hco) as [Hv|Hnw]; [exact Hv|].
      replace (sheep_inode_get_vid c (idx ls)) with vid in Hcl
        by (rewrite Hread; reflexivity).
      destruct (Z.eqb_spec vid 0) as [|_]; [contradiction|].
      destruct (Z.eqb_spec vid (vdi_vid c)) as [Ho|Ho]; [exact Ho|].
      destruct (bool_decide (aio_opcode a = VDI_WRITE)) eqn:Hw;
        simpl in Hcl; injection Hcl as Ho' _.
      + apply bool_decide_eq_true in Hw. contradiction.
      + rewrite Ht in Ho'.
        destruct (vid_to_data_oid_inj _ _ _ _ Hvid0 Hown0 Hidx Hidx Ho').
        congruence.
    - rewrite Ht in Hoid.
      destruct (vid_to_data_oid_inj _ _ _ _ Hvid0 Hown0 Hidx Hj Hoid).
      congruence. }
  change (opcode r) with (aio_opcode a). destruct (aio_opcode a) eqn:Hop.
  - destruct (end_effect r c2) as (E1 & E2 & E3 & E4 & _).
    revert Hc2. now apply consistent_same.
  - specialize (Hwrite eq_refl). change (oid r) with o. subst o.
    destruct (find_inflight_request_oid c2 (target c (idx ls))) as [r0|] eqn:Hfind.
    + set (c3 := replies HDR (before_lock i) c2).
      assert (Hc3 : consistent c3) by now apply consistent_replies.
      assert (Hvid3 : vdi_vid c3 = vdi_vid c).
      { unfold c3. now rewrite vid_replies. }
      unfold rw_block_or_submit. cbv zeta.
      change (sheep_inode_get_vid (emit (EvWriteLock blocking_lock) c3) (idx ls))
        with (sheep_inode_get_vid c3 (idx ls)).
      change (vdi_vid (emit (EvWriteLock blocking_lock) c3)) with (vdi_vid c3).
      destruct (negb (sheep_inode_get_vid c3 (idx ls) =? 0)
                && (sheep_inode_get_vid c3 (idx ls) =? vdi_vid c3)) eqn:Hthere.
      * apply andb_true_iff in Hthere as [_ Hsame]. apply Z.eqb_eq in Hsame.
        apply consistent_submit.
        { revert Hc3. apply consistent_same; reflexivity. }
        intros _ j Hj Hoid. simpl in Hoid. rewrite Hvid3 in Hoid.
        destruct (vid_to_data_oid_inj _ _ _ _ Hown0 Hown0 Hidx Hj Hoid)
          as [_ <-].
        exact Hsame.
      * apply (consistent_same
                 (set_blocking (blocking_list c3 ++ [r]) c3)); try reflexivity.
        apply consistent_block; [exact Hc3|].
        unfold find_inflight_request_oid in Hfind.
        apply find_oid_elem in Hfind as [Hin0 Hoid0].
        assert (Hnot : sheep_inode_get_vid c3 (idx ls) <> vdi_vid c3).
        { intros Heq. rewrite Heq, Z.eqb_refl, Hvid3 in Hthere.
          rewrite (proj2 (Z.eqb_neq _ _)) in Hthere by lia. discriminate Hthere. }
        assert (Hcreate : opcode r0 = VDI_CREATE).
        { destruct (decide (opcode r0 = VDI_CREATE)) as [|Hnc]; [assumption|].
          exfalso. apply Hnot. unfold c3. rewrite vid_replies.
          apply owned_replies.
          destruct Hc2 as (_ & _ & _ & Hfly).
          apply (Hfly r0 (idx ls)); try assumption. now rewrite Hvid2. }
        destruct (create_replies (before_lock i) c2 r0 Hin0 Hcreate) as [Hstay|Hdone].
        -- exists r0. auto.
        -- exfalso. apply Hnot. fold c3 in Hdone.
           rewrite Hoid0, data_oid_to_idx_any_vid in Hdone by exact Hidx.
           now rewrite Hvid3, <- Hvid2.
    + apply consistent_submit; [exact Hc2|]. intros Hnc. now contradict Hnc.
  - apply consistent_submit; [exact Hc2|]. intros Hnc. now contradict Hnc.
Qed.

End Consistency.

(** ** Copy-on-write *)

Section CopyOnWrite.

Variable SD_INODE_HEADER_SIZE : Z.

Local Abbreviation HDR := SD_INODE_HEADER_SIZE.
Local Abbreviation create r := (set_opcode VDI_CREATE r).

Lemma stored_before_end_app i v r L E :
  stored_before_end i v r L ->
  EvInodeSet i v ∈ L \/ stored_before_end i v r E ->
  stored_before_end i v r (L ++ E).
Proof.
  revert E. induction L as [|e L IH]; intros E HL HE l1 l2 Heq; simpl in Heq.
  - destruct HE as [HE|HE]; [inversion HE|]. now apply (HE l1 l2).
  - destruct l1 as [|e1 l1]; simpl in Heq.
    + injection Heq as -> _. specialize (HL [] L eq_refl). inversion HL.
    + injection Heq as <- Heq.
      destruct (decide (e = EvInodeSet i v)) as [->|Hne]; [left|].
      right. refine (IH E _ _ l1 l2 Heq).
      * intros m1 m2 Hm. specialize (HL (e :: m1) m2). simpl in HL.
        rewrite Hm in HL. specialize (HL eq_refl).
        apply elem_of_cons in HL as [HL|HL]; [congruence|exact HL].
      * destruct HE as [HE|HE]; [|now right].
        apply elem_of_cons in HE as [HE|HE]; [congruence|now left].
Qed.

(** A stretch of the log in which [r] is not ended. *)
Lemma stored_before_end_absent i v r E :
  EvEnd r ∉ E -> stored_before_end i v r E.
Proof.
  intros Hno l1 l2 Heq. exfalso. apply Hno. rewrite Heq.
  apply elem_of_app. right. left.
Qed.

(** The only sub-request the completion of a create ends is the create. *)
Lemma create_log_ends (r x new : sheep_request) (w : list sheep_request)
    (i v : Z) (dn : bool) (a : nat) :
  EvEnd r ∈ [EvWriteLock vdi_lock; EvInodeSet i v; EvUnlock vdi_lock;
             EvSubmit new; EvWriteLock blocking_lock]
            ++ map EvSubmit w
            ++ [EvUnlock blocking_lock; EvEnd x]
            ++ (if dn then [EvDone a] else []) ->
  r = x.
Proof.
  intros H. apply elem_of_app in H as [H|H].
  { repeat (apply elem_of_cons in H as [H|H]; [discriminate H|]). inversion H. }
  apply elem_of_app in H as [H|H].
  { apply list_elem_of_fmap in H as (y & Hy & _). discriminate Hy. }
  apply elem_of_app in H as [H|H].
  { apply elem_of_cons in H as [H|H]; [discriminate H|].
    apply elem_of_cons in H as [H|H]; [now injection H|inversion H]. }
  destruct dn; [|inversion H].
  apply elem_of_cons in H as [H|H]; [discriminate H|inversion H].
Qed.

(** One reply keeps [store_first]. *)
Lemma store_first_reply i own req id c L :
  buf req = None -> opcode req <> VDI_CREATE ->
  data_oid_to_idx (oid req) = i ->
  store_first i own req c L ->
  exists E,
    log (handle_reply HDR id c) = log c ++ E /\
    store_first i own req (handle_reply HDR id c) (L ++ E).
Proof.
  intros Hbuf Hop Hidx (Hvid & Hfly & Hent & Hend).
  unfold handle_reply.
  destruct (find _ (inflight_list c)) as [x|] eqn:Hf.
  2:{ exists []. rewrite !app_nil_r. split; [reflexivity|].
      exact (conj Hvid (conj Hfly (conj Hent Hend))). }
  set (c0 := set_inflight (remove_seq id (inflight_list c)) c).
  assert (Hx : x ∈ inflight_list c) by (eapply find_seq_elem; exact Hf).
  assert (Hold : forall y, y ∈ inflight_list c0 -> y ∈ inflight_list c).
  { intros y Hy. eapply remove_seq_elem. exact Hy. }
  unfold respond_process.
  assert (Hends : opcode x <> VDI_CREATE ->
            exists E,
              log (end_sheep_request x c0) = log c ++ E /\
              store_first i own req (end_sheep_request x c0) (L ++ E)).
  { intros Hnc. destruct (end_effect x c0) as (E1 & _ & E3 & E4 & _ & E6).
    eexists. split; [exact E6|]. split; [rewrite E4; exact Hvid|].
    split; [|split].
    - rewrite E1. intros Hin. apply elem_of_app. left. auto.
    - unfold sheep_inode_get_vid. rewrite E3. intros H.
      apply elem_of_app. left. now apply Hent.
    - intros r Hr. apply stored_before_end_app; [now apply Hend|].
      destruct (decide (r = x)) as [->|Hne].
      + left. apply Hfly. destruct Hr as [-> | ->]; [exact Hx|].
        exfalso. apply Hnc. reflexivity.
      + right. apply stored_before_end_absent. intros Hin.
        apply elem_of_app in Hin as [Hin|Hin].
        * apply list_elem_of_singleton in Hin. congruence.
        * destruct (counter c0 (aiocb x) - 1 <=? 0); [|inversion Hin].
          apply list_elem_of_singleton in Hin. discriminate Hin. }
  destruct (opcode x) eqn:Hox; [apply Hends; discriminate|
                                apply Hends; discriminate|].
  clear Hends.
  destruct (create_respond_effect HDR x c0) as (D1 & D2 & D3 & _ & D5 & D6).
  cbv zeta in D1, D2, D3, D5, D6.
  change (vdi_vid c0) with (vdi_vid c) in D1, D5, D6. rewrite Hvid in D1, D5, D6.
  eexists. split; [exact D6|]. split; [exact D5|].
  assert (Hset : data_oid_to_idx (oid x) = i ->
            EvInodeSet i own
            ∈ L ++ [EvWriteLock vdi_lock;
                    EvInodeSet (data_oid_to_idx (oid x)) own;
                    EvUnlock vdi_lock; EvSubmit (inode_update HDR c0 x);
                    EvWriteLock blocking_lock]
                 ++ map EvSubmit
                      (filter (fun r => oid r = oid x) (blocking_list c0))
                 ++ [EvUnlock blocking_lock; EvEnd x]
                 ++ (if counter c0 (aiocb x) <=? 0 then [EvDone (aiocb x)]
                     else [])).
  { intros ->. apply elem_of_app. right. apply elem_of_app. left.
    right. left. }
  split; [|split].
  - rewrite D2. intros Hin. apply elem_of_app in Hin as [Hin|Hin].
    { apply elem_of_app. left. auto. }
    apply elem_of_cons in Hin as [Hin|Hin].
    { exfalso. rewrite Hin in Hbuf. discriminate Hbuf. }
    apply list_elem_of_filter in Hin as [Hoid _].
    apply Hset. now rewrite <- Hoid.
  - unfold sheep_inode_get_vid. rewrite D1. intros H.
    destruct (decide (data_oid_to_idx (oid x) = i)) as [He|Hne].
    + now apply Hset.
    + rewrite lookup_insert_ne in H by exact Hne.
      apply elem_of_app. left. now apply Hent.
  - intros r Hr. apply stored_before_end_app; [now apply Hend|].
    right. intros l1 l2 Heq.
    assert (Hrx : r = x).
    { eapply create_log_ends. rewrite Heq. apply elem_of_app. right. left. }
    assert (Hi : data_oid_to_idx (oid x) = i).
    { rewrite <- Hrx. now destruct Hr as [-> | ->]. }
    rewrite Hi in Heq.
    destruct l1 as [|e1 [|e2 l1]]; simpl in Heq; try discriminate Heq.
    injection Heq as _ <- _. right. left.
Qed.

Lemma store_first_replies i own req ids : forall c L,
  buf req = None -> opcode req <> VDI_CREATE ->
  data_oid_to_idx (oid req) = i ->
  store_first i own req c L ->
  exists E,
    log (replies HDR ids c) = log c ++ E /\
    store_first i own req (replies HDR ids c) (L ++ E).
Proof.
  induction ids as [|id ids IH]; intros c L Hbuf Hop Hidx H; simpl.
  - exists []. rewrite !app_nil_r. auto.
  - destruct (store_first_reply i own req id c L Hbuf Hop Hidx H)
      as (E1 & Hl1 & H1).
    destruct (IH _ _ Hbuf Hop Hidx H1) as (E2 & Hl2 & H2).
    exists (E1 ++ E2). rewrite Hl2, Hl1, <- app_assoc.
    split; [reflexivity|]. now rewrite app_assoc.
Qed.

(** From [store_first] on, whatever replies follow, the store to the entry
    comes before the end of the sub-request. *)
Lemma store_first_completion i own req c c3 L ids r :
  buf req = None -> opcode req <> VDI_CREATE ->
  data_oid_to_idx (oid req) = i ->
  log c3 = log c ++ L -> store_first i own req c3 L ->
  r = req \/ r = create req ->
  stored_before_end i own r
    (drop (length (log c)) (log (replies HDR ids c3))).
Proof.
  intros Hbuf Hop Hidx Hlog H Hr.
  destruct (store_first_replies i own req ids c3 L Hbuf Hop Hidx H)
    as (E & Hl & (_ & _ & _ & Hend)).
  rewrite Hl, Hlog, <- app_assoc, drop_app_length. now apply Hend.
Qed.

(** The completion of a create stores the index entry and only then
    resubmits a sub-request that waits for it on the blocking list. *)
Lemma create_reply_resubmits (c : sd_cluster) (rA req : sheep_request) :
  opcode rA = VDI_CREATE -> oid rA = oid req ->
  find (fun r => seq_num r =? seq_num rA) (inflight_list c) = Some rA ->
  req ∈ blocking_list c ->
  let c' := handle_reply HDR (seq_num rA) c in
  sheep_inode_get_vid c' (data_oid_to_idx (oid req)) = vdi_vid c /\
  req ∈ inflight_list c' /\
  (req ∉ blocking_list c') /\
  exists l2 l3,
    log c' = log c ++ EvWriteLock vdi_lock
               :: EvInodeSet (data_oid_to_idx (oid req)) (vdi_vid c)
               :: l2 ++ EvSubmit req :: l3 /\
    EvEnd rA ∈ l3.
Proof.
  intros HopC HoidC Hfind Hblocked c'.
  unfold c', handle_reply. rewrite Hfind. unfold respond_process.
  rewrite HopC.
  set (c0 := set_inflight (remove_seq (seq_num rA) (inflight_list c)) c).
  destruct (create_respond_effect HDR rA c0) as (H1 & H2 & H3 & _ & _ & H6).
  rewrite HoidC in H1, H2, H3, H6.
  assert (Hw : req ∈ filter (fun r => oid r = oid req) (blocking_list c0)).
  { apply list_elem_of_filter. split; [reflexivity|exact Hblocked]. }
  split.
  { unfold sheep_inode_get_vid. rewrite H1, lookup_insert_eq. reflexivity. }
  split.
  { rewrite H2. apply elem_of_app. right. right. exact Hw. }
  split.
  { rewrite H3. intros Hin. apply list_elem_of_filter in Hin. tauto. }
  apply list_elem_of_split in Hw as (w1 & w2 & Hw).
  rewrite Hw in H6. rewrite map_app in H6. simpl in H6.
  eexists ([EvUnlock vdi_lock; _; EvWriteLock blocking_lock] ++ map EvSubmit w1).
  eexists. split.
  - rewrite H6. simpl. rewrite <- !app_assoc. reflexivity.
  - set_unfold. tauto.
Qed.

(** C2, as the engine has it.  A write sub-request on an index owned by
    an ancestor is allocated on the object of the writer's own vid, never
    on the ancestor's, which it only names as the copy-on-write source.
    When nothing is in flight on its object it is submitted as one
    [VDI_CREATE] carrying that source.  When something is in flight on
    its object it issues no create: under the blocking lock it reads the
    entry again and, if the entry names the writer's vid by then, is
    submitted as the write it is; otherwise it is appended to the
    blocking list, nothing is submitted, and a create is in flight on its
    object; the completion of a create on its object stores the entry
    and only then resubmits it, as the write it is.  Nothing else is
    handed to the object store for it.  And whatever replies follow, on
    each of these ways the entry is stored to the writer's vid before the
    sub-request, or the create made of it, is ended. *)
Theorem copy_on_write_spares_the_ancestor (a : sheep_aiocb) (i : interference)
    (ls : loop_state) (c : sd_cluster) :
  aio_opcode a = VDI_WRITE ->
  consistent c ->
  Forall (fun r => seq_num r <> seq_num_c c + 1) (inflight_list c) ->
  0 <= idx ls < 2 ^ 32 ->
  let own := vdi_vid c in
  let anc := sheep_inode_get_vid c (idx ls) in
  anc <> 0 -> anc <> own ->
  let target := vid_to_data_oid own (idx ls) in
  let source := vid_to_data_oid anc (idx ls) in
  let req :=
    mk_sheep_request (start ls) (len ls) target source (aio_id a) None
      (seq_num_c c + 1) VDI_WRITE in
  let c1 :=
    replies HDR (after_classify i)
      (alloc_sheep_request a target source (len ls) (start ls) c).2 in
  let c2 := replies HDR (before_lock i) c1 in
  target <> source /\
  (exists c3,
     rw_iteration HDR a i ls c = replies HDR (after_iter i) c3 /\
     (find_inflight_request_oid c1 target = None ->
        log c3 = log c1 ++ [EvSubmit (create req)] /\
        inflight_list c3 = inflight_list c1 ++ [create req] /\
        blocking_list c3 = blocking_list c1) /\
     (is_Some (find_inflight_request_oid c1 target) ->
      created c2 (idx ls) ->
        log c3 = log c2 ++ [EvWriteLock blocking_lock;
                            EvUnlock blocking_lock; EvSubmit req] /\
        inflight_list c3 = inflight_list c2 ++ [req] /\
        blocking_list c3 = blocking_list c2) /\
     (is_Some (find_inflight_request_oid c1 target) ->
      ~ created c2 (idx ls) ->
        log c3 = log c2 ++ [EvWriteLock blocking_lock; EvBlocked req;
                            EvUnlock blocking_lock] /\
        inflight_list c3 = inflight_list c2 /\
        blocking_list c3 = blocking_list c2 ++ [req] /\
        exists r', r' ∈ inflight_list c3 /\
                   opcode r' = VDI_CREATE /\ oid r' = target) /\
     (forall ids r,
        r = req \/ r = create req ->
        stored_before_end (idx ls) own r
          (drop (length (log c)) (log (replies HDR ids c3))))) /\
  (forall c' rA,
     vdi_vid c' = own -> req ∈ blocking_list c' ->
     opcode rA = VDI_CREATE -> oid rA = target ->
     find (fun r => seq_num r =? seq_num rA) (inflight_list c') = Some rA ->
     let c'' := handle_reply HDR (seq_num rA) c' in
     sheep_inode_get_vid c'' (idx ls) = own /\
     req ∈ inflight_list c'' /\
     (req ∉ blocking_list c'') /\
     exists l2 l3,
       log c'' = log c' ++ EvWriteLock vdi_lock :: EvInodeSet (idx ls) own
                   :: l2 ++ EvSubmit req :: l3 /\
       EvEnd rA ∈ l3).
Proof.
  intros Hop Hc Hfresh Hidx own anc Hanc Hne target source req c1 c2.
  pose proof Hc as (Hvid & Hentr & _ & _).
  fold own in Hvid.
  assert (Hancr : 0 <= anc < 2 ^ 32).
  { unfold anc, sheep_inode_get_vid.
    destruct (data_vdi_id c !! idx ls) as [v|] eqn:Hv; simpl; [|lia].
    exact (Hentr _ _ Hv). }
  assert (Hts : target <> source).
  { intros Heq. apply vid_to_data_oid_inj in Heq as [Heq _]; lia. }
  assert (Hreqi : data_oid_to_idx (oid req) = idx ls).
  { apply data_oid_to_idx_any_vid. exact Hidx. }
  assert (Hbuf : buf req = None) by reflexivity.
  assert (Hopr : opcode req <> VDI_CREATE) by discriminate.
  set (c0 := (alloc_sheep_request a target source (len ls) (start ls) c).2).
  assert (Hlog0 : log c0 = log c ++ [EvAlloc req]).
  { unfold c0, alloc_sheep_request. simpl. now rewrite Hop. }
  assert (Hvid0 : vdi_vid c0 = own) by reflexivity.
  assert (Hc0 : consistent c0).
  { revert Hc. apply consistent_same; reflexivity. }
  assert (Hc1 : consistent c1) by now apply consistent_replies.
  assert (Hvid1 : vdi_vid c1 = own).
  { unfold c1. now rewrite vid_replies. }
  assert (Hvid2 : vdi_vid c2 = own).
  { unfold c2. now rewrite vid_replies. }
  assert (Hiter : rw_iteration HDR a i ls c
                  = replies HDR (after_iter i) (rw_dispatch HDR i ls anc req c1)).
  { unfold rw_iteration, rw_classify, c1. fold anc. fold own.
    rewrite (proj2 (Z.eqb_neq anc 0)) by exact Hanc.
    rewrite (proj2 (Z.eqb_neq anc own)) by exact Hne.
    rewrite Hop. simpl. rewrite Hop. reflexivity. }
  assert (Hdisp : rw_dispatch HDR i ls anc req c1
                  = match find_inflight_request_oid c1 target with
                    | Some _ => rw_block_or_submit ls req c2
                    | None => submit_sheep_request (create req) c1
                    end).
  { unfold rw_dispatch. simpl.
    rewrite (proj2 (Z.eqb_neq source 0))
      by (apply vid_to_data_oid_nonzero; lia).
    rewrite andb_false_r. reflexivity. }
  assert (H0 : store_first (idx ls) own req c0 [EvAlloc req]).
  { split; [reflexivity|]. split; [|split].
    - intros Hin. exfalso. change (inflight_list c0) with (inflight_list c) in Hin.
      rewrite Forall_forall in Hfresh. now apply (Hfresh req Hin).
    - intros He. exfalso. apply Hne. exact He.
    - intros r _. apply stored_before_end_absent. intros Hin.
      apply list_elem_of_singleton in Hin. discriminate Hin. }
  destruct (store_first_replies (idx ls) own req (after_classify i) c0 _
              Hbuf Hopr Hreqi H0) as (E1 & Hl1 & H1).
  change (replies HDR (after_classify i) c0) with c1 in Hl1, H1.
  rewrite Hlog0, <- app_assoc in Hl1.
  destruct (store_first_replies (idx ls) own req (before_lock i) c1 _
              Hbuf Hopr Hreqi H1) as (E2 & Hl2 & H2).
  change (replies HDR (before_lock i) c1) with c2 in Hl2, H2.
  rewrite Hl1, <- app_assoc in Hl2.
  split; [exact Hts|]. split.
  2:{ intros c' rA Hv' Hblocked HopA HoidA Hfind c''.
      destruct (create_reply_resubmits c' rA req HopA HoidA Hfind Hblocked)
        as (R1 & R2 & R3 & R4).
      rewrite Hreqi, Hv' in R1, R4. exact (conj R1 (conj R2 (conj R3 R4))). }
  destruct (find_inflight_request_oid c1 target) as [r0|] eqn:Hfind.
  - destruct (block_or_submit_cases ls req c2) as [Hyes Hno].
    destruct (decide (sheep_inode_get_vid c2 (idx ls) = own)) as [Hcr|Hncr].
    + assert (Hcreated : created c2 (idx ls)).
      { split; [rewrite Hcr; lia|now rewrite Hvid2]. }
      eexists. split; [rewrite Hiter, Hdisp, (Hyes Hcreated); reflexivity|].
      split; [discriminate|]. split.
      { intros _ _. simpl. rewrite <- !app_assoc. repeat split. }
      split; [intros _ Hn; contradiction|].
      intros ids r Hr.
      apply (store_first_completion (idx ls) own req c _
               ((([EvAlloc req] ++ E1) ++ E2)
                ++ [EvWriteLock blocking_lock; EvUnlock blocking_lock;
                    EvSubmit req]) ids r Hbuf Hopr Hreqi); [| |exact Hr].
      { simpl. rewrite Hl2, <- !app_assoc. reflexivity. }
      destruct H2 as (_ & _ & Hent2 & Hend2).
      assert (Hin : EvInodeSet (idx ls) own ∈ ([EvAlloc req] ++ E1) ++ E2)
        by now apply Hent2.
      split; [exact Hvid2|]. split; [|split].
      * intros _. apply elem_of_app. now left.
      * intros _. apply elem_of_app. now left.
      * intros r' Hr'. apply stored_before_end_app; [now apply Hend2|now left].
    + assert (Hncreated : ~ created c2 (idx ls)).
      { intros [_ H]. apply Hncr. now rewrite H, Hvid2. }
      eexists. split; [rewrite Hiter, Hdisp, (Hno Hncreated); reflexivity|].
      split; [discriminate|]. split; [intros _ Hy; contradiction|].
      split.
      { intros _ _. simpl. rewrite <- !app_assoc.
        split; [reflexivity|]. split; [reflexivity|]. split; [reflexivity|].
        apply find_oid_elem in Hfind as [Hin0 Hoid0].
        assert (Hop0 : opcode r0 = VDI_CREATE).
        { destruct (decide (opcode r0 = VDI_CREATE)) as [H|H]; [exact H|].
          exfalso. apply Hncr. unfold c2. rewrite <- Hvid1.
          apply owned_replies.
          destruct Hc1 as (_ & _ & _ & Hfly1).
          apply (Hfly1 r0 (idx ls) Hin0 H Hidx). now rewrite Hvid1. }
        destruct (create_replies HDR (before_lock i) c1 r0 Hin0 Hop0)
          as [Hstay|Hdone].
        - exists r0. auto.
        - exfalso. apply Hncr.
          rewrite Hoid0 in Hdone. unfold target in Hdone.
          rewrite data_oid_to_idx_any_vid in Hdone by exact Hidx.
          unfold c2. now rewrite Hdone. }
      intros ids r Hr.
      apply (store_first_completion (idx ls) own req c _
               ((([EvAlloc req] ++ E1) ++ E2)
                ++ [EvWriteLock blocking_lock; EvBlocked req;
                    EvUnlock blocking_lock]) ids r Hbuf Hopr Hreqi);
        [| |exact Hr].
      { simpl. rewrite Hl2, <- !app_assoc. reflexivity. }
      destruct H2 as (_ & Hfly2 & Hent2 & Hend2).
      split; [exact Hvid2|]. split; [|split].
      * intros Hin. apply elem_of_app. left. now apply Hfly2.
      * intros He. apply elem_of_app. left. now apply Hent2.
      * intros r' Hr'. apply stored_before_end_app; [now apply Hend2|].
        right. apply stored_before_end_absent. intros Hin.
        repeat (apply elem_of_cons in Hin as [Hin|Hin]; [discriminate Hin|]).
        inversion Hin.
  - eexists. split; [rewrite Hiter, Hdisp; reflexivity|].
    split.
    { intros _. simpl. auto. }
    split; [intros [? H]; discriminate H|].
    split; [intros [? H]; discriminate H|].
    intros ids r Hr.
    apply (store_first_completion (idx ls) own req c _
             (([EvAlloc req] ++ E1) ++ [EvSubmit (create req)])
             ids r Hbuf Hopr Hreqi); [| |exact Hr].
    { simpl. rewrite Hl1, <- !app_assoc. reflexivity. }
    destruct H1 as (_ & Hfly1 & Hent1 & Hend1).
    split; [exact Hvid1|]. split; [|split].
    + intros Hin. apply elem_of_app. left.
      change (inflight_list (submit_sheep_request (create req) c1))
        with (inflight_list c1 ++ [create req]) in Hin.
      apply elem_of_app in Hin as [Hin|Hin]; [now apply Hfly1|].
      apply list_elem_of_singleton in Hin. discriminate Hin.
    + intros He. apply elem_of_app. left. now apply Hent1.
    + intros r' Hr'. apply stored_before_end_app; [now apply Hend1|].
      right. apply stored_before_end_absent. intros Hin.
      apply list_elem_of_singleton in Hin. discriminate Hin.
Qed.

End CopyOnWrite.

(** ** Answering what is in flight *)

Section Drain.

Variable SD_INODE_HEADER_SIZE : Z.

Local Abbreviation HDR := SD_INODE_HEADER_SIZE.
Local Abbreviation answer := (answer_head SD_INODE_HEADER_SIZE).
Local Abbreviation weights l := (foldr (fun r n => weight r + n)%nat O l).

Lemma weights_app l1 l2 : weights (l1 ++ l2) = (weights l1 + weights l2)%nat.
Proof. induction l1 as [|r l1 IH]; simpl; [reflexivity|]. rewrite IH. lia. Qed.

Lemma weight_bound r : (1 <= weight r <= 2)%nat.
Proof. unfold weight. destruct (decide (opcode r = VDI_CREATE)); lia. Qed.

Lemma weight_create r : opcode r = VDI_CREATE -> weight r = 2%nat.
Proof. intros H. unfold weight. now rewrite decide_True. Qed.

Lemma weights_bound l : (length l <= weights l <= 2 * length l)%nat.
Proof.
  induction l as [|r l IH]; simpl; [lia|].
  pose proof (weight_bound r). lia.
Qed.

Lemma length_filter_split (P : sheep_request -> Prop)
    `{forall r, Decision (P r)} (l : list sheep_request) :
  (length (filter P l) + length (filter (fun r => ~ P r) l))%nat = length l.
Proof.
  induction l as [|r l IH]; [reflexivity|].
  rewrite !filter_cons. destruct (decide (P r)).
  - rewrite decide_False by tauto. simpl. lia.
  - rewrite decide_True by tauto. simpl. lia.
Qed.

(** Each answer takes work off the lists. *)
Lemma answer_works (c : sd_cluster) :
  inflight_list c <> [] -> (work (answer c) < work c)%nat.
Proof.
  unfold answer_head, work. destruct (inflight_list c) as [|r l] eqn:Hl;
    [congruence|]. intros _.
  unfold handle_reply. rewrite Hl. simpl. rewrite Z.eqb_refl.
  set (c0 := set_inflight l c).
  unfold respond_process.
  assert (Hend : opcode r <> VDI_CREATE ->
                 (weights (inflight_list (end_sheep_request r c0))
                  + 2 * length (blocking_list (end_sheep_request r c0))
                  < weight r + weights l + 2 * length (blocking_list c))%nat).
  { intros Hop. destruct (end_effect r c0) as (-> & -> & _). simpl.
    pose proof (weight_bound r). lia. }
  destruct (opcode r) eqn:Hop;
    [apply Hend; discriminate|apply Hend; discriminate|].
  destruct (create_respond_effect HDR r c0) as (_ & -> & -> & _). simpl.
  rewrite (weight_create r Hop), weights_app. simpl.
  pose proof (weight_bound (inode_update HDR c0 r)) as Hnew.
  assert (Hone : weight (inode_update HDR c0 r) = 1%nat) by reflexivity.
  pose proof (weights_bound (filter (fun x => oid x = oid r) (blocking_list c))).
  pose proof (length_filter_split (fun x => oid x = oid r) (blocking_list c)).
  lia.
Qed.

Lemma drain_S n c : drain HDR (S n) c = drain HDR n (answer c).
Proof. unfold drain. apply Nat.iter_succ_r. Qed.

Lemma drain_idle n c : inflight_list c = [] -> drain HDR n c = c.
Proof.
  intros He. induction n as [|n IH]; [reflexivity|].
  rewrite drain_S. unfold answer_head. now rewrite He.
Qed.

(** As many answers as there is work empty the inflight list. *)
Lemma drain_empties n : forall c,
  (work c <= n)%nat -> inflight_list (drain HDR n c) = [].
Proof.
  induction n as [|n IH]; intros c Hw.
  - simpl. unfold work in Hw.
    pose proof (weights_bound (inflight_list c)).
    destruct (inflight_list c); [reflexivity|simpl in *; lia].
  - destruct (inflight_list c) as [|r l] eqn:Hl.
    + now rewrite drain_idle.
    + rewrite drain_S. apply IH.
      pose proof (answer_works c ltac:(congruence)). lia.
Qed.

(** The answers are replies. *)
Lemma drain_replies n : forall c, exists ids, drain HDR n c = replies HDR ids c.
Proof.
  induction n as [|n IH]; intros c; [now exists []|].
  rewrite drain_S. destruct (IH (answer c)) as (ids & ->).
  unfold answer_head. destruct (inflight_list c) as [|r l].
  - now exists ids.
  - now exists (seq_num r :: ids).
Qed.

End Drain.

(** ** Whole requests *)

Section Requests.

Variable SD_DATA_OBJ_SIZE : Z.
Variable SD_INODE_HEADER_SIZE : Z.
Hypothesis obj_size_range : 0 < SD_DATA_OBJ_SIZE < 2 ^ 31.

Local Abbreviation OBJ := SD_DATA_OBJ_SIZE.
Local Abbreviation HDR := SD_INODE_HEADER_SIZE.
Local Abbreviation next := (loop_next SD_DATA_OBJ_SIZE).
Local Abbreviation inv := (loop_inv SD_DATA_OBJ_SIZE).
Local Abbreviation pos ls := (idx ls * OBJ + start ls).

(** The loop of a request that ends inside the 2^32 objects of a volume
    runs every iteration on an index below 2^32: what such iterations
    keep holds when the loop is over. *)
Lemma loop_in_range (a : sheep_aiocb) (sched : nat -> interference)
    (S : sd_cluster -> Prop) :
  (forall i ls c,
     0 <= idx ls < 2 ^ 32 -> S c -> S (rw_iteration HDR a i ls c)) ->
  0 <= aio_offset a -> 0 < aio_length a ->
  aio_offset a + aio_length a <= 2 ^ 32 * OBJ ->
  forall fuel c m c',
    vdi_rw_loop OBJ HDR fuel a sched O
      (loop_init OBJ (aio_offset a) (aio_length a)) c = Some (m, c') ->
    S c -> S c'.
Proof.
  intros Hkeep Ho Hl Hend fuel c m c' Hrun HS.
  set (stop := aio_offset a + aio_length a).
  assert (Hbig : 2 ^ 32 * OBJ < 2 ^ 64) by nia.
  destruct (loop_init_inv OBJ obj_size_range (aio_offset a) (aio_length a)
              ltac:(lia) ltac:(lia)) as (Hinv0 & Hstart0 & Htotal0).
  assert (Hidx0 : idx (loop_init OBJ (aio_offset a) (aio_length a))
                  = aio_offset a / OBJ).
  { change (idx (loop_init OBJ (aio_offset a) (aio_length a)))
      with (wrap32 (aio_offset a / OBJ)).
    apply wrap32_small. split; [apply Z.div_pos; lia|].
    apply Z.div_lt_upper_bound; lia. }
  eapply (loop_carries OBJ HDR obj_size_range a sched
            (fun ls c => S c /\ pos ls + total ls = stop /\
                         0 <= idx ls < 2 ^ 32 /\ 0 < total ls) S);
    [| |exact Hinv0| |exact Hrun].
  - intros j ls c0 Hinv Hmore (HS0 & Hsum & Hidx & Htot).
    destruct (loop_next_inv OBJ obj_size_range ls Hinv)
      as (Htot' & _ & _ & Hbnd & _).
    destruct (Hbnd Hmore) as [Hlen Hs0].
    assert (Hnext : idx (next ls) = idx ls + 1).
    { change (idx (next ls)) with (wrap32 (idx ls + 1)).
      apply wrap32_small. nia. }
    split; [now apply Hkeep|]. rewrite Hnext, Hs0, Htot'.
    split; [lia|]. split; [nia|lia].
  - intros j ls c0 Hinv _ (HS0 & _ & Hidx & _). now apply Hkeep.
  - split; [exact HS|]. rewrite Hidx0, Hstart0, Htotal0.
    pose proof (Z.div_mod (aio_offset a) OBJ ltac:(lia)).
    pose proof (Z.mod_pos_bound (aio_offset a) OBJ ltac:(lia)).
    assert (0 <= aio_offset a / OBJ) by (apply Z.div_pos; lia).
    assert (aio_offset a / OBJ < 2 ^ 32) by (apply Z.div_lt_upper_bound; lia).
    unfold stop. repeat split; lia.
Qed.

(** A request of positive length returns. *)
Lemma request_returns (a : sheep_aiocb) (sched : nat -> interference)
    (fuel : nat) (c : sd_cluster) :
  0 <= aio_offset a < 2 ^ 64 -> 0 < aio_length a < 2 ^ 64 ->
  (Z.to_nat (nr_objects OBJ (aio_offset a) (aio_length a)) <= fuel)%nat ->
  exists m c1,
    vdi_rw_loop OBJ HDR fuel a sched O
      (loop_init OBJ (aio_offset a) (aio_length a)) (uatomic_inc (aio_id a) c)
    = Some (m, c1) /\
    vdi_rw_request OBJ HDR fuel a sched c = Some (drop_reference (aio_id a) c1).
Proof.
  intros Ho Hl Hfuel.
  destruct (positive_length_runs OBJ HDR obj_size_range a sched (fun _ _ => True)
              ltac:(auto) Ho Hl fuel (uatomic_inc (aio_id a) c) Hfuel I)
    as (c1 & Hrun & _).
  eexists _, c1. split; [exact Hrun|].
  unfold vdi_rw_request. cbv zeta. now rewrite Hrun.
Qed.

(** X18: The blocking list never holds a sub-request that nothing will wake.
    From an engine whose lists are consistent with the index map, a
    request of positive length inside the volume returns and leaves them
    consistent, whatever replies are handled while it runs, and so does
    every reply after it: each blocked sub-request has a create in flight
    on its object, whose completion resubmits it. *)
Theorem blocked_wait_for_a_create (a : sheep_aiocb) (c : sd_cluster)
    (sched : nat -> interference) (fuel : nat) :
  consistent c ->
  0 <= aio_offset a -> 0 < aio_length a ->
  aio_offset a + aio_length a <= 2 ^ 32 * OBJ ->
  (Z.to_nat (nr_objects OBJ (aio_offset a) (aio_length a)) <= fuel)%nat ->
  exists c1,
    vdi_rw_request OBJ HDR fuel a sched c = Some c1 /\
    forall ids,
      let c2 := replies HDR ids c1 in
      consistent c2 /\
      forall r, r ∈ blocking_list c2 ->
        exists r', r' ∈ inflight_list c2 /\
                   opcode r' = VDI_CREATE /\ oid r' = oid r.
Proof.
  intros Hc Ho Hl Hend Hfuel.
  assert (Hbig : 2 ^ 32 * OBJ < 2 ^ 64) by nia.
  destruct (request_returns a sched fuel c ltac:(lia) ltac:(lia) Hfuel)
    as (m & c1 & Hloop & Hrun).
  exists (drop_reference (aio_id a) c1). split; [exact Hrun|].
  assert (Hc1 : consistent c1).
  { apply (loop_in_range a sched consistent
             ltac:(intros; now apply consistent_iteration) Ho Hl Hend
             fuel (uatomic_inc (aio_id a) c) m c1 Hloop).
    revert Hc. apply consistent_same; reflexivity. }
  assert (Hc2 : consistent (drop_reference (aio_id a) c1)).
  { revert Hc1. unfold drop_reference. cbv zeta.
    destruct (counter c1 (aio_id a) - 1 <=? 0);
      apply consistent_same; reflexivity. }
  intros ids c2.
  assert (Hc3 : consistent c2) by now apply consistent_replies.
  split; [exact Hc3|]. apply Hc3.
Qed.

(** X19: A read reads.  With no reply handled while it runs, a read of positive
    length returns having stored nothing in the index map and put nothing
    on the blocking list, and all it has handed to the object store are
    reads of its own, without copy-on-write source. *)
Theorem read_request_is_read_only (a : sheep_aiocb) (c : sd_cluster)
    (fuel : nat) :
  aio_opcode a = VDI_READ ->
  0 <= aio_offset a < 2 ^ 64 -> 0 < aio_length a < 2 ^ 64 ->
  (Z.to_nat (nr_objects OBJ (aio_offset a) (aio_length a)) <= fuel)%nat ->
  exists c' l,
    vdi_rw_request OBJ HDR fuel a no_schedule c = Some c' /\
    log c' = log c ++ l /\
    data_vdi_id c' = data_vdi_id c /\
    blocking_list c' = blocking_list c /\
    inode_stores l = [] /\ blocked l = [] /\
    Forall (fun r => opcode r = VDI_READ /\ aiocb r = aio_id a /\ cow_oid r = 0)
      (submitted l).
Proof.
  intros Hop Ho Hl Hfuel.
  destruct (request_returns a no_schedule fuel c Ho Hl Hfuel)
    as (m & c1 & Hloop & Hrun).
  set (S := fun (c' : sd_cluster) =>
              data_vdi_id c' = data_vdi_id c /\
              blocking_list c' = blocking_list c /\
              exists l,
                log c' = log c ++ l /\
                inode_stores l = [] /\ blocked l = [] /\
                Forall (fun r => opcode r = VDI_READ /\ aiocb r = aio_id a /\
                                 cow_oid r = 0) (submitted l)).
  assert (Hkeep : forall ls c', S c' ->
                    S (rw_iteration HDR a no_interference ls c')).
  { intros ls c' (Hd & Hb & l & Hlog & Hi & Hbl & Hsub).
    destruct (read_iteration HDR a ls c' Hop)
      as (Hd' & Hb' & l' & Hlog' & Hi' & Hbl' & Hsub').
    split; [congruence|]. split; [congruence|].
    exists (l ++ l'). split; [now rewrite Hlog', Hlog, <- app_assoc|].
    unfold inode_stores, blocked, submitted in *.
    rewrite !omap_app, Hi, Hi', Hbl, Hbl'. repeat split.
    apply Forall_app. now split. }
  destruct (loop_init_inv OBJ obj_size_range (aio_offset a) (aio_length a)
              Ho ltac:(lia)) as (Hinv0 & _).
  assert (HS : S c1).
  { eapply (loop_carries OBJ HDR obj_size_range a no_schedule
              (fun _ c' => S c') S); [| |exact Hinv0| |exact Hloop].
    - intros j ls c' _ _ H. now apply Hkeep.
    - intros j ls c' _ _ H. now apply Hkeep.
    - split; [reflexivity|]. split; [reflexivity|].
      exists []. rewrite app_nil_r. repeat split. constructor. }
  destruct HS as (Hd & Hb & l & Hlog & Hi & Hbl & Hsub).
  exists (drop_reference (aio_id a) c1),
    (l ++ if counter c1 (aio_id a) - 1 <=? 0 then [EvDone (aio_id a)] else []).
  split; [exact Hrun|]. unfold drop_reference. cbv zeta.
  unfold inode_stores, blocked, submitted in *.
  destruct (counter c1 (aio_id a) - 1 <=? 0); simpl;
    rewrite ?omap_app, ?app_nil_r, Hlog, ?Hi, ?Hbl, <- ?app_assoc;
    simpl; rewrite ?app_nil_r; repeat split; assumption.
Qed.

(** The bookkeeping of a request when [vdi_rw_request] returns. *)
Lemma request_counted_after (a : sheep_aiocb) (sched : nat -> interference)
    (fuel : nat) (c : sd_cluster) (m : nat) (c1 : sd_cluster) :
  counter c (aio_id a) = 0 -> pending c (aio_id a) = O ->
  fired c (aio_id a) = O ->
  vdi_rw_loop OBJ HDR fuel a sched O
    (loop_init OBJ (aio_offset a) (aio_length a)) (uatomic_inc (aio_id a) c)
  = Some (m, c1) ->
  0 <= aio_offset a < 2 ^ 64 -> 0 <= aio_length a < 2 ^ 64 ->
  counted_after (drop_reference (aio_id a) c1) (aio_id a).
Proof.
  intros Hc0 Hp0 Hf0 Hrun Ho Hl. set (aid := aio_id a) in *.
  destruct (loop_init_inv OBJ obj_size_range (aio_offset a) (aio_length a)
              Ho Hl) as (Hinv0 & _).
  assert (Hcnt : counted_running c1 aid 1).
  { eapply (loop_carries OBJ HDR obj_size_range a sched
              (fun _ c' => counted_running c' aid 1)
              (fun c' => counted_running c' aid 1));
      [| |exact Hinv0| |exact Hrun].
    - intros j ls c' _ _ H. now apply iteration_counted_running.
    - intros j ls c' _ _ H. now apply iteration_counted_running.
    - unfold counted_running.
      rewrite counter_uatomic_inc, decide_True by reflexivity.
      rewrite pending_uatomic_inc, fired_uatomic_inc, Hc0, Hp0, Hf0.
      split; reflexivity. }
  destruct Hcnt as [Hcnt Hfired].
  unfold counted_after, drop_reference.
  assert (Hpend : pending (set_nr_requests
                             (<[aid := counter c1 aid - 1]> (nr_requests c1)) c1) aid
                  = pending c1 aid) by reflexivity.
  destruct (counter c1 aid - 1 <=? 0) eqn:Hz.
  - apply Z.leb_le in Hz.
    rewrite counter_emit, pending_emit, fired_emit, counter_insert,
      fired_set_nr_requests, Hpend, !decide_True by reflexivity.
    rewrite decide_True by lia. split; lia.
  - apply Z.leb_gt in Hz.
    rewrite counter_insert, fired_set_nr_requests, Hpend, decide_True
      by reflexivity.
    rewrite decide_False by lia. split; lia.
Qed.

(** X20: Every request completes.  From an engine whose lists are consistent
    with the index map, a request of positive length inside the volume
    returns, whatever replies are handled while it runs.  From then on,
    whenever the replies handled have emptied the inflight list, the
    blocking list is empty too and the completion callback of the request
    has fired exactly once; and answering the sub-requests in flight one
    after the other empties the inflight list, within as many answers as
    the work the lists hold. *)
Theorem every_request_completes (a : sheep_aiocb) (c : sd_cluster)
    (sched : nat -> interference) (fuel : nat) :
  consistent c ->
  counter c (aio_id a) = 0 -> pending c (aio_id a) = O ->
  fired c (aio_id a) = O ->
  0 <= aio_offset a -> 0 < aio_length a ->
  aio_offset a + aio_length a <= 2 ^ 32 * OBJ ->
  (Z.to_nat (nr_objects OBJ (aio_offset a) (aio_length a)) <= fuel)%nat ->
  exists c1,
    vdi_rw_request OBJ HDR fuel a sched c = Some c1 /\
    (forall ids,
       let c2 := replies HDR ids c1 in
       inflight_list c2 = [] ->
       blocking_list c2 = [] /\ fired c2 (aio_id a) = 1%nat) /\
    (let c2 := drain HDR (work c1) c1 in
     inflight_list c2 = [] /\ blocking_list c2 = [] /\
     fired c2 (aio_id a) = 1%nat).
Proof.
  intros Hc Hc0 Hp0 Hf0 Ho Hl Hend Hfuel.
  assert (Hbig : 2 ^ 32 * OBJ < 2 ^ 64) by nia.
  destruct (request_returns a sched fuel c ltac:(lia) ltac:(lia) Hfuel)
    as (m & c1 & Hloop & Hrun).
  exists (drop_reference (aio_id a) c1). split; [exact Hrun|].
  assert (Hc1 : consistent c1).
  { apply (loop_in_range a sched consistent
             ltac:(intros; now apply consistent_iteration) Ho Hl Hend
             fuel (uatomic_inc (aio_id a) c) m c1 Hloop).
    revert Hc. apply consistent_same; reflexivity. }
  assert (Hc2 : consistent (drop_reference (aio_id a) c1)).
  { revert Hc1. unfold drop_reference. cbv zeta.
    destruct (counter c1 (aio_id a) - 1 <=? 0);
      apply consistent_same; reflexivity. }
  pose proof (request_counted_after a sched fuel c m c1 Hc0 Hp0 Hf0 Hloop
                ltac:(lia) ltac:(lia)) as Hafter.
  assert (Hdone : forall ids,
            inflight_list (replies HDR ids (drop_reference (aio_id a) c1)) = [] ->
            blocking_list (replies HDR ids (drop_reference (aio_id a) c1)) = [] /\
            fired (replies HDR ids (drop_reference (aio_id a) c1)) (aio_id a)
            = 1%nat).
  { intros ids Hempty.
    pose proof (consistent_replies HDR ids _ Hc2) as (_ & _ & Hblk & _).
    pose proof (replies_counted_after HDR ids _ _ Hafter) as [_ Hfired].
    assert (Hb : blocking_list (replies HDR ids (drop_reference (aio_id a) c1))
                 = []).
    { destruct (blocking_list _) as [|r l] eqn:Hb; [reflexivity|].
      destruct (Hblk r ltac:(left)) as (r' & Hr' & _).
      rewrite Hempty in Hr'. inversion Hr'. }
    split; [exact Hb|]. rewrite Hfired.
    unfold pending. rewrite Hempty, Hb. reflexivity. }
  split; [exact Hdone|]. cbv zeta.
  pose proof (drain_empties HDR (work (drop_reference (aio_id a) c1))
                (drop_reference (aio_id a) c1) ltac:(lia)) as Hempty.
  destruct (drain_replies HDR (work (drop_reference (aio_id a) c1))
              (drop_reference (aio_id a) c1)) as (ids & Hids).
  rewrite Hids in *. split; [exact Hempty|]. now apply Hdone.
Qed.

End Requests.

(** ** The properties at sample inputs *)

Lemma cluster0_consistent : consistent cluster0.
Proof.
  split; [simpl; lia|]. split; [|split].
  - intros i v H. unfold cluster0 in H. simpl in H.
    apply lookup_insert_Some in H as [[_ <-]|[_ H]]; [lia|].
    apply lookup_insert_Some in H as [[_ <-]|[_ H]]; [lia|].
    rewrite lookup_empty in H. discriminate H.
  - intros r Hr. inversion Hr.
  - intros r i Hr. inversion Hr.
Qed.

Lemma cluster_creating_consistent : consistent cluster_creating.
Proof.
  apply consistent_iteration; [exact cluster0_consistent|simpl; lia].
Qed.

Lemma sub_requests_tile_the_range_witness :
  exists c' l,
    vdi_rw_request 4194304 4616 4 read_four no_schedule cluster0 = Some c' /\
    log c' = log cluster0 ++ l /\
    tiles 4194304 100 (allocated 1 l) (100 + 3 * 4194304) /\
    map req_length (allocated 1 l) = [4194204; 4194304; 4194304; 100].
Proof.
  destruct (sub_requests_tile_the_range 4194304 4616 ltac:(lia) read_four
              cluster0 no_schedule 4)
    as (c' & l & Hrun & Hlog & Htiles & _);
    [simpl; lia|simpl; lia|simpl; lia|vm_compute; lia|].
  exists c', l. split; [exact Hrun|]. split; [exact Hlog|].
  split; [exact Htiles|].
  vm_compute in Hrun. injection Hrun as <-.
  simpl in Hlog. subst l. reflexivity.
Defined.

Lemma blocked_wait_for_a_create_witness :
  exists c1,
    vdi_rw_request 4194304 4616 1 write_b no_schedule cluster_creating = Some c1 /\
    blocking_list c1 = [sub_b] /\
    exists r', r' ∈ inflight_list c1 /\
               opcode r' = VDI_CREATE /\ oid r' = oid sub_b.
Proof.
  destruct (blocked_wait_for_a_create 4194304 4616 ltac:(lia) write_b
              cluster_creating no_schedule 1 cluster_creating_consistent)
    as (c1 & Hrun & Hafter);
    [simpl; lia|simpl; lia|simpl; lia|vm_compute; lia|].
  exists c1. split; [exact Hrun|].
  destruct (Hafter []) as [_ Hblk]. simpl in Hblk.
  assert (Hb : blocking_list c1 = [sub_b]).
  { vm_compute in Hrun. now injection Hrun as <-. }
  split; [exact Hb|]. apply Hblk. rewrite Hb. left.
Defined.

Lemma every_request_completes_witness :
  exists c1,
    vdi_rw_request 4194304 4616 1 write_b no_schedule cluster_creating = Some c1 /\
    inflight_list (drain 4616 (work c1) c1) = [] /\
    blocking_list (drain 4616 (work c1) c1) = [] /\
    fired (drain 4616 (work c1) c1) 2 = 1%nat.
Proof.
  destruct (every_request_completes 4194304 4616 ltac:(lia) write_b
              cluster_creating no_schedule 1 cluster_creating_consistent)
    as (c1 & Hrun & _ & Hdrain);
    [reflexivity|reflexivity|reflexivity|simpl; lia|simpl; lia|simpl; lia
    |vm_compute; lia|].
  exists c1. split; [exact Hrun|exact Hdrain].
Defined.

Lemma read_request_is_read_only_witness :
  exists c' l,
    vdi_rw_request 4194304 4616 4 read_four no_schedule cluster0 = Some c' /\
    log c' = log cluster0 ++ l /\
    data_vdi_id c' = data_vdi_id cluster0 /\
    blocking_list c' = [] /\
    inode_stores l = [] /\
    map opcode (submitted l) = [VDI_READ; VDI_READ].
Proof.
  destruct (read_request_is_read_only 4194304 4616 ltac:(lia) read_four
              cluster0 4)
    as (c' & l & Hrun & Hlog & Hd & Hb & Hi & _);
    [reflexivity|simpl; lia|simpl; lia|vm_compute; lia|].
  exists c', l. split; [exact Hrun|]. split; [exact Hlog|].
  split; [exact Hd|]. split; [exact Hb|]. split; [exact Hi|].
  vm_compute in Hrun. injection Hrun as <-.
  simpl in Hlog. subst l. reflexivity.
Defined.

Lemma write_after_create_is_plain_witness :
  exists r1 r2,
    log cluster_creating
    = log cluster0 ++ [EvAlloc (set_opcode VDI_WRITE r1); EvSubmit r1] /\
    opcode r1 = VDI_CREATE /\
    sheep_inode_get_vid (handle_reply 4616 1 cluster_creating) 0 = 7 /\
    log (rw_iteration 4616 write_b no_interference first_ten
           (handle_reply 4616 1 cluster_creating))
    = log (handle_reply 4616 1 cluster_creating) ++ [EvAlloc r2; EvSubmit r2] /\
    opcode r2 = VDI_WRITE /\ cow_oid r2 = 0.
Proof.
  destruct (write_after_create_is_plain 4616 write_a write_b first_ten first_ten
              cluster0)
    as (r1 & r2 & H1 & H2 & _ & H4 & H5 & H6 & _ & H8 & _);
    [reflexivity|reflexivity|reflexivity|simpl; lia|simpl; lia
    |vm_compute; congruence|vm_compute; congruence|reflexivity|constructor|].
  exists r1, r2. split; [exact H1|]. split; [exact H2|].
  split; [exact H4|]. split; [exact H5|]. split; [exact H6|exact H8].
Defined.

Lemma cluster_cow_creating_consistent : consistent cluster_cow_creating.
Proof.
  apply consistent_iteration; [exact cluster0_consistent|simpl; lia].
Qed.

Lemma copy_on_write_spares_the_ancestor_witness :
  vid_to_data_oid 7 1 <> vid_to_data_oid 5 1 /\
  (exists c3,
     rw_iteration 4616 cow_a no_interference ten_on_inherited cluster0 = c3 /\
     log c3 = [EvAlloc cow_sub_a; EvSubmit (set_opcode VDI_CREATE cow_sub_a)] /\
     inflight_list c3 = [set_opcode VDI_CREATE cow_sub_a] /\
     stored_before_end 1 7 (set_opcode VDI_CREATE cow_sub_a)
       (log (replies 4616 [1] c3)) /\
     EvEnd (set_opcode VDI_CREATE cow_sub_a) ∈ log (replies 4616 [1] c3)) /\
  (exists c3,
     rw_iteration 4616 cow_b no_interference ten_on_inherited
       cluster_cow_creating = c3 /\
     blocking_list c3 = [cow_sub_b] /\
     inflight_list c3 = [set_opcode VDI_CREATE cow_sub_a] /\
     stored_before_end 1 7 cow_sub_b
       (drop (length (log cluster_cow_creating))
          (log (replies 4616 [1; 3; 2] c3))) /\
     EvEnd cow_sub_b ∈ log (replies 4616 [1; 3; 2] c3)).
Proof.
  pose proof (copy_on_write_spares_the_ancestor 4616 cow_a no_interference
                ten_on_inherited cluster0 eq_refl cluster0_consistent) as H.
  pose proof (copy_on_write_spares_the_ancestor 4616 cow_b no_interference
                ten_on_inherited cluster_cow_creating eq_refl
                cluster_cow_creating_consistent) as H'.
  cbv zeta in H, H'.
  assert (Hfresh : Forall (fun r => seq_num r <> seq_num_c cluster0 + 1)
                     (inflight_list cluster0)) by constructor.
  assert (Hfresh' : Forall (fun r => seq_num r
                                     <> seq_num_c cluster_cow_creating + 1)
                      (inflight_list cluster_cow_creating)).
  { repeat constructor. vm_compute. discriminate. }
  assert (Hidx : 0 <= idx ten_on_inherited < 2 ^ 32)
    by (vm_compute; split; [discriminate|reflexivity]).
  assert (Hanc : sheep_inode_get_vid cluster0 (idx ten_on_inherited) <> 0)
    by (vm_compute; discriminate).
  assert (Hne : sheep_inode_get_vid cluster0 (idx ten_on_inherited)
                <> vdi_vid cluster0) by (vm_compute; discriminate).
  assert (Hanc' : sheep_inode_get_vid cluster_cow_creating
                    (idx ten_on_inherited) <> 0)
    by (vm_compute; discriminate).
  assert (Hne' : sheep_inode_get_vid cluster_cow_creating
                   (idx ten_on_inherited) <> vdi_vid cluster_cow_creating)
    by (vm_compute; discriminate).
  destruct (H Hfresh Hidx Hanc Hne)
    as (H1 & (c3 & Hit & Hnone & _ & _ & Hord) & _).
  destruct (H' Hfresh' Hidx Hanc' Hne')
    as (_ & (c3' & Hit' & _ & _ & Hblk & Hord') & _).
  split; [exact H1|]. split.
  - exists c3. split; [exact Hit|].
    destruct (Hnone eq_refl) as (Hlog & Hfly & _).
    split; [exact Hlog|]. split; [exact Hfly|].
    split; [exact (Hord [1] _ (or_intror eq_refl))|].
    change (replies 4616 (after_iter no_interference) c3) with c3 in Hit.
    rewrite <- Hit. apply (bool_decide_unpack _). vm_compute. reflexivity.
  - exists c3'. split; [exact Hit'|].
    destruct Hblk as (_ & Hfly & Hb & _).
    { exists (set_opcode VDI_CREATE cow_sub_a). reflexivity. }
    { intros [_ Hcr]. vm_compute in Hcr. discriminate Hcr. }
    split; [exact Hb|]. split; [exact Hfly|].
    split; [exact (Hord' [1; 3; 2] _ (or_introl eq_refl))|].
    change (replies 4616 (after_iter no_interference) c3') with c3' in Hit'.
    rewrite <- Hit'. apply (bool_decide_unpack _). vm_compute. reflexivity.
Defined.

(** C2 as stated fails for the second of two writes on an index owned by
    an ancestor.  Index 1 is owned by VDI 5 when [cow_a] arrives and
    still when [cow_b] arrives, the create of [cow_a] being in flight:
    no create is issued for the sub-request of [cow_b], which is put on
    the blocking list; the completion of the create of [cow_a] resubmits
    it, and all that is ever handed to the object store for it is that
    one plain write; and it completes. *)
Lemma second_cow_write_issues_no_create :
  exists c1 c2,
    vdi_rw_request 4194304 4616 1 cow_a no_schedule cluster0 = Some c1 /\
    vdi_rw_request 4194304 4616 1 cow_b no_schedule c1 = Some c2 /\
    sheep_inode_get_vid cluster0 1 = 5 /\
    sheep_inode_get_vid c1 1 = 5 /\ vdi_vid c1 = 7 /\
    allocated 2 (log c2) = [cow_sub_b] /\
    submitted (log c2) = [set_opcode VDI_CREATE cow_sub_a] /\
    blocking_list c2 = [cow_sub_b] /\
    submitted (log (replies 4616 [1; 3; 2] c2))
    = [set_opcode VDI_CREATE cow_sub_a; cow_slot_write; cow_sub_b] /\
    opcode cow_sub_b = VDI_WRITE /\
    EvEnd cow_sub_b ∈ log (replies 4616 [1; 3; 2] c2) /\
    fired (replies 4616 [1; 3; 2] c2) 2 = 1%nat.
Proof.
  eexists. eexists. split; [reflexivity|]. split; [reflexivity|].
  repeat split; try (vm_compute; reflexivity).
  apply (bool_decide_unpack _). vm_compute. reflexivity.
Qed.
End RequestsProps.
